(** * ResearchFlow: data model, project manager and undo/redo engine

    A shallow embedding of [models.py], [utils.py] and [undo.py], and the
    properties of the project specification that can be stated over it.

    Conventions of the embedding.
    - A Python value that comes out of [json.load] (or goes into
      [json.dump]) is a [json]; a Python [dict] with string keys is an
      association list read by first match, [dict_get].
    - Python floats (coordinates, widths) are modelled as exact integers
      [Z].  The module [Binary64] models the group move once more, with
      binary64 coordinates, for the statements that rounding decides.
    - The dataclasses are typed records.  A [from_dict] returns [None]
      where a present field holds a value of another shape than the
      record's type annotation: Python would either raise there (a nested
      [from_dict] on a non-dict) or build an object that violates the
      annotations.
    - [uuid.uuid4] is an oracle [uuid4 : nat -> string]; the number of
      identifiers drawn so far is threaded as state. *)

From stdpp Require Import gmap strings list fin_maps pretty.
From Stdlib Require Import ZArith.
From Stdlib Require Import Ascii.
From Stdlib Require PrimFloat.

Open Scope Z_scope.
Open Scope string_scope.
Open Scope list_scope.

(** ** Python values *)

#[warnings="-register-all"]
Inductive json :=
  | JNull
  | JBool (b : bool)
  | JNum (n : Z)
  | JStr (s : string)
  | JList (l : list json)
  | JDict (d : list (string * json)).

Abbreviation dict := (list (string * json)).

(** [d.get(k)] *)
Fixpoint dict_get (k : string) (d : dict) : option json :=
  match d with
  | [] => None
  | (k', v) :: d' => if String.eqb k k' then Some v else dict_get k d'
  end.

(** [isinstance(j, dict)] and [isinstance(j, str)] *)
Definition is_dict (j : json) : bool :=
  match j with JDict _ => true | _ => false end.
Definition is_str (j : json) : bool :=
  match j with JStr _ => true | _ => false end.

(** Typed readers for [data.get(k, default)]. *)
Definition get_str (data : dict) (k default : string) : option string :=
  match dict_get k data with
  | None => Some default
  | Some (JStr s) => Some s
  | Some _ => None
  end.

Definition get_num (data : dict) (k : string) (default : Z) : option Z :=
  match dict_get k data with
  | None => Some default
  | Some (JNum n) => Some n
  | Some _ => None
  end.

Definition get_bool (data : dict) (k : string) (default : bool) : option bool :=
  match dict_get k data with
  | None => Some default
  | Some (JBool b) => Some b
  | Some _ => None
  end.

Definition get_dict (data : dict) (k : string) (default : dict) : option dict :=
  match dict_get k data with
  | None => Some default
  | Some (JDict d) => Some d
  | Some _ => None
  end.

Definition get_list (data : dict) (k : string) (default : list json)
  : option (list json) :=
  match dict_get k data with
  | None => Some default
  | Some (JList l) => Some l
  | Some _ => None
  end.

Definition as_str (j : json) : option string :=
  match j with JStr s => Some s | _ => None end.
Definition as_num (j : json) : option Z :=
  match j with JNum n => Some n | _ => None end.
Definition as_dict (j : json) : option dict :=
  match j with JDict d => Some d | _ => None end.

(** ** Identifier supply and the loading monad *)

Class UuidSource := uuid4 : nat → string.

(** A computation that may draw fresh identifiers and may fail. *)
Definition Load (A : Type) : Type := nat → option (A * nat).

#[global] Instance Load_ret : MRet Load := λ A a n, Some (a, n).
#[global] Instance Load_bind : MBind Load := λ A B f m n,
  match m n with
  | Some (a, n') => f a n'
  | None => None
  end.

Definition lift {A} (o : option A) : Load A :=
  λ n, match o with Some a => Some (a, n) | None => None end.

(** [generate_uuid()] *)
Definition generate_uuid `{UuidSource} : Load string :=
  λ n, Some (uuid4 n, S n).

(** A list comprehension [[f(x) for x in l]] whose body is effectful. *)
Fixpoint for_each {A B} (f : A → Load B) (l : list A) : Load (list B) :=
  match l with
  | [] => mret []
  | a :: l' => b ← f a; bs ← for_each f l'; mret (b :: bs)
  end.

(** ** models.py *)

Module Snippet.
Record t := mk {
  id : string;
  type : string;
  content : string;
  source_label : string }.

Definition to_dict (self : t) : dict :=
  [ ("id", JStr (id self));
    ("type", JStr (type self));
    ("content", JStr (content self));
    ("source_label", JStr (source_label self)) ].

Definition from_dict `{UuidSource} (data : dict) : Load t :=
  fresh ← generate_uuid;
  i ← lift (get_str data "id" fresh);
  ty ← lift (get_str data "type" "text");
  c ← lift (get_str data "content" "");
  sl ← lift (get_str data "source_label" "");
  mret (mk i ty c sl).

Definition from_json `{UuidSource} (j : json) : Load t :=
  d ← lift (as_dict j); from_dict d.

Definition deep_copy `{UuidSource} (self : t) (source_title : string) : Load t :=
  fresh ← generate_uuid;
  mret (mk fresh (type self) (content self)
          (if String.eqb source_title "" then source_label self
           else "From: " +:+ source_title)).
End Snippet.

Module Position.
Record t := mk { x : Z; y : Z }.

Definition default : t := mk 0 0.

Definition to_dict (self : t) : dict :=
  [ ("x", JNum (x self)); ("y", JNum (y self)) ].

Definition from_dict (data : dict) : option t :=
  px ← get_num data "x" 0;
  py ← get_num data "y" 0;
  Some (mk px py).
End Position.

Module NodeMetadata.
Record t := mk {
  title : string;
  year : string;
  conference : string;
  relative_path_to_md : string;
  module_name : string;
  module_type : string }.

Definition default : t := mk "" "" "" "" "" "".

Definition to_dict (self : t) : dict :=
  [ ("title", JStr (title self));
    ("year", JStr (year self));
    ("conference", JStr (conference self));
    ("relative_path_to_md", JStr (relative_path_to_md self));
    ("module_name", JStr (module_name self));
    ("module_type", JStr (module_type self)) ].

Definition from_dict (data : dict) : option t :=
  a ← get_str data "title" "";
  b ← get_str data "year" "";
  c ← get_str data "conference" "";
  d ← get_str data "relative_path_to_md" "";
  e ← get_str data "module_name" "";
  f ← get_str data "module_type" "";
  Some (mk a b c d e f).
End NodeMetadata.

Module NodeData.
Record t := mk {
  id : string;
  type : string;
  position : Position.t;
  tags : list string;
  metadata : NodeMetadata.t;
  snippets : list Snippet.t }.

Definition to_dict (self : t) : dict :=
  [ ("id", JStr (id self));
    ("type", JStr (type self));
    ("position", JDict (Position.to_dict (position self)));
    ("tags", JList (JStr <$> tags self));
    ("metadata", JDict (NodeMetadata.to_dict (metadata self)));
    ("snippets", JList ((λ s, JDict (Snippet.to_dict s)) <$> snippets self)) ].

Definition from_dict `{UuidSource} (data : dict) : Load t :=
  fresh ← generate_uuid;
  i ← lift (get_str data "id" fresh);
  ty ← lift (get_str data "type" "pipeline_module");
  pd ← lift (get_dict data "position" []);
  pos ← lift (Position.from_dict pd);
  tl ← lift (get_list data "tags" []);
  tg ← lift (mapM as_str tl);
  md ← lift (get_dict data "metadata" []);
  meta ← lift (NodeMetadata.from_dict md);
  sl ← lift (get_list data "snippets" []);
  sn ← for_each Snippet.from_json sl;
  mret (mk i ty pos tg meta sn).

Definition from_json `{UuidSource} (j : json) : Load t :=
  d ← lift (as_dict j); from_dict d.
End NodeData.

Module EdgeData.
Record t := mk {
  id : string;
  source_id : string;
  target_id : string }.

Definition to_dict (self : t) : dict :=
  [ ("id", JStr (id self));
    ("source_id", JStr (source_id self));
    ("target_id", JStr (target_id self)) ].

Definition from_dict `{UuidSource} (data : dict) : Load t :=
  fresh ← generate_uuid;
  i ← lift (get_str data "id" fresh);
  s ← lift (get_str data "source_id" "");
  g ← lift (get_str data "target_id" "");
  mret (mk i s g).

Definition from_json `{UuidSource} (j : json) : Load t :=
  d ← lift (as_dict j); from_dict d.
End EdgeData.

Module GroupData.
Record t := mk {
  id : string;
  name : string;
  position : Position.t;
  width : Z;
  height : Z;
  color : string;
  node_ids : list string }.

Definition to_dict (self : t) : dict :=
  [ ("id", JStr (id self));
    ("name", JStr (name self));
    ("position", JDict (Position.to_dict (position self)));
    ("width", JNum (width self));
    ("height", JNum (height self));
    ("color", JStr (color self));
    ("node_ids", JList (JStr <$> node_ids self)) ].

Definition from_dict `{UuidSource} (data : dict) : Load t :=
  fresh ← generate_uuid;
  i ← lift (get_str data "id" fresh);
  nm ← lift (get_str data "name" "Group");
  pd ← lift (get_dict data "position" []);
  pos ← lift (Position.from_dict pd);
  w ← lift (get_num data "width" 300);
  h ← lift (get_num data "height" 200);
  c ← lift (get_str data "color" "#78909C");
  nl ← lift (get_list data "node_ids" []);
  ns ← lift (mapM as_str nl);
  mret (mk i nm pos w h c ns).

Definition from_json `{UuidSource} (j : json) : Load t :=
  d ← lift (as_dict j); from_dict d.
End GroupData.

Module ProjectData.
Record t := mk {
  global_tags : list json;
  nodes : list NodeData.t;
  edges : list EdgeData.t;
  pipeline_initialized : bool;
  description : string;
  todos : list dict;
  pipeline_edge_color : string;
  reference_edge_color : string;
  dock_layout : list Z;
  module_colors : list (string * string);
  groups : list GroupData.t }.

Definition default_module_colors : list (string * string) :=
  [ ("input", "#4CAF50");
    ("process", "#9C27B0");
    ("decision", "#FF9800");
    ("output", "#2196F3") ].

(** [ProjectData()] *)
Definition default : t :=
  mk [] [] [] false "" [] "#607D8B" "#4CAF50" [] default_module_colors [].

Definition colors_to_dict (m : list (string * string)) : dict :=
  (λ kv, (kv.1, JStr kv.2)) <$> m.

Definition colors_of_dict (d : dict) : option (list (string * string)) :=
  mapM (λ kv, v ← as_str kv.2; Some (kv.1, v)) d.

(** [{"name": t, "color": None}] *)
Definition tag_record (name : json) : json :=
  JDict [ ("name", name); ("color", JNull) ].

Definition to_dict (self : t) : dict :=
  [ ("global_tags",
      JList ((λ tg, if is_dict tg then tg else tag_record tg) <$> global_tags self));
    ("nodes", JList ((λ n, JDict (NodeData.to_dict n)) <$> nodes self));
    ("edges", JList ((λ e, JDict (EdgeData.to_dict e)) <$> edges self));
    ("groups", JList ((λ g, JDict (GroupData.to_dict g)) <$> groups self));
    ("pipeline_initialized", JBool (pipeline_initialized self));
    ("description", JStr (description self));
    ("todos", JList (JDict <$> todos self));
    ("pipeline_edge_color", JStr (pipeline_edge_color self));
    ("reference_edge_color", JStr (reference_edge_color self));
    ("dock_layout", JList (JNum <$> dock_layout self));
    ("module_colors", JDict (colors_to_dict (module_colors self))) ].

(** The backward-compatibility loop over [raw_tags]. *)
Definition migrate_tags (raw_tags : list json) : list json :=
  (λ tg, if is_str tg then tag_record tg else tg) <$> raw_tags.

Definition from_dict `{UuidSource} (data : dict) : Load t :=
  raw_tags ← lift (get_list data "global_tags" []);
  let tags := migrate_tags raw_tags in
  nl ← lift (get_list data "nodes" []);
  ns ← for_each NodeData.from_json nl;
  el ← lift (get_list data "edges" []);
  es ← for_each EdgeData.from_json el;
  gl ← lift (get_list data "groups" []);
  gs ← for_each GroupData.from_json gl;
  pin ← lift (get_bool data "pipeline_initialized" false);
  ds ← lift (get_str data "description" "");
  tl ← lift (get_list data "todos" []);
  td ← lift (mapM as_dict tl);
  pc ← lift (get_str data "pipeline_edge_color" "#607D8B");
  rc ← lift (get_str data "reference_edge_color" "#4CAF50");
  dl ← lift (get_list data "dock_layout" []);
  dk ← lift (mapM as_num dl);
  md ← lift (get_dict data "module_colors" (colors_to_dict default_module_colors));
  mc ← lift (colors_of_dict md);
  mret (mk tags ns es pin ds td pc rc dk mc gs).

(** [self.edges = edges] *)
Definition set_edges (self : t) (new_edges : list EdgeData.t) : t :=
  mk (global_tags self) (nodes self) new_edges (pipeline_initialized self)
     (description self) (todos self) (pipeline_edge_color self)
     (reference_edge_color self) (dock_layout self) (module_colors self)
     (groups self).

(** [get_node_by_id] *)
Definition get_node_by_id (self : t) (node_id : string) : option NodeData.t :=
  find (λ n, String.eqb (NodeData.id n) node_id) (nodes self).

(** [get_edges_for_node] *)
Definition get_edges_for_node (self : t) (node_id : string) : list EdgeData.t :=
  List.filter (λ e, String.eqb (EdgeData.source_id e) node_id
                    || String.eqb (EdgeData.target_id e) node_id) (edges self).

(** [has_pipeline_module] *)
Definition has_pipeline_module (self : t) : bool :=
  existsb (λ n, String.eqb (NodeData.type n) "pipeline_module") (nodes self).
End ProjectData.

(** *** Partial records

    [prune keep path j] deletes, at every depth of [j], each field whose
    path of keys from the root is rejected by [keep]; the elements of a
    list share the path of the list. *)
Fixpoint prune (keep : list string → bool) (path : list string) (j : json) : json :=
  match j with
  | JList l => JList (map (prune keep path) l)
  | JDict d =>
      JDict ((fix fields (d : dict) : dict :=
                match d with
                | [] => []
                | (k, v) :: d' =>
                    if keep (path ++ [k])
                    then (k, prune keep (path ++ [k]) v) :: fields d'
                    else fields d'
                end) d)
  | _ => j
  end.

Definition prune_fields (keep : list string → bool) (path : list string)
  : dict → dict :=
  fix fields (d : dict) : dict :=
    match d with
    | [] => []
    | (k, v) :: d' =>
        if keep (path ++ [k])
        then (k, prune keep (path ++ [k]) v) :: fields d'
        else fields d'
    end.

(** *** What loading a partial record must give

    Written from the specification of [from_record] (section 4.1): field by
    field, the field of the entity when its key survived the pruning, and
    the documented default otherwise.  The default of an [id] is a fresh
    identifier.  The functions that draw identifiers also return the
    number of identifiers drawn so far. *)

Definition keep_or {A} (keep : list string → bool) (path : list string)
    (k : string) (present default : A) : A :=
  if keep (path ++ [k]) then present else default.

Fixpoint thread {A B} (f : nat → A → B * nat) (n : nat) (l : list A) : list B * nat :=
  match l with
  | [] => ([], n)
  | a :: l' =>
      let '(b, n1) := f n a in
      let '(bs, n2) := thread f n1 l' in
      (b :: bs, n2)
  end.

Section Defaulted.
Context `{UuidSource}.
Variable keep : list string → bool.

Definition Position_defaulted (p : list string) (e : Position.t) : Position.t :=
  Position.mk (keep_or keep p "x" (Position.x e) 0)
              (keep_or keep p "y" (Position.y e) 0).

Definition NodeMetadata_defaulted (p : list string) (e : NodeMetadata.t)
  : NodeMetadata.t :=
  NodeMetadata.mk
    (keep_or keep p "title" (NodeMetadata.title e) "")
    (keep_or keep p "year" (NodeMetadata.year e) "")
    (keep_or keep p "conference" (NodeMetadata.conference e) "")
    (keep_or keep p "relative_path_to_md" (NodeMetadata.relative_path_to_md e) "")
    (keep_or keep p "module_name" (NodeMetadata.module_name e) "")
    (keep_or keep p "module_type" (NodeMetadata.module_type e) "").

Definition Snippet_defaulted (p : list string) (n : nat) (e : Snippet.t)
  : Snippet.t * nat :=
  (Snippet.mk
     (keep_or keep p "id" (Snippet.id e) (uuid4 n))
     (keep_or keep p "type" (Snippet.type e) "text")
     (keep_or keep p "content" (Snippet.content e) "")
     (keep_or keep p "source_label" (Snippet.source_label e) ""),
   S n).

Definition EdgeData_defaulted (p : list string) (n : nat) (e : EdgeData.t)
  : EdgeData.t * nat :=
  (EdgeData.mk
     (keep_or keep p "id" (EdgeData.id e) (uuid4 n))
     (keep_or keep p "source_id" (EdgeData.source_id e) "")
     (keep_or keep p "target_id" (EdgeData.target_id e) ""),
   S n).

Definition GroupData_defaulted (p : list string) (n : nat) (e : GroupData.t)
  : GroupData.t * nat :=
  (GroupData.mk
     (keep_or keep p "id" (GroupData.id e) (uuid4 n))
     (keep_or keep p "name" (GroupData.name e) "Group")
     (keep_or keep p "position"
        (Position_defaulted (p ++ ["position"]) (GroupData.position e))
        Position.default)
     (keep_or keep p "width" (GroupData.width e) 300)
     (keep_or keep p "height" (GroupData.height e) 200)
     (keep_or keep p "color" (GroupData.color e) "#78909C")
     (keep_or keep p "node_ids" (GroupData.node_ids e) []),
   S n).

Definition NodeData_defaulted (p : list string) (n : nat) (e : NodeData.t)
  : NodeData.t * nat :=
  let sn :=
    keep_or keep p "snippets"
      (thread (Snippet_defaulted (p ++ ["snippets"])) (S n) (NodeData.snippets e))
      ([], S n) in
  (NodeData.mk
     (keep_or keep p "id" (NodeData.id e) (uuid4 n))
     (keep_or keep p "type" (NodeData.type e) "pipeline_module")
     (keep_or keep p "position"
        (Position_defaulted (p ++ ["position"]) (NodeData.position e))
        Position.default)
     (keep_or keep p "tags" (NodeData.tags e) [])
     (keep_or keep p "metadata"
        (NodeMetadata_defaulted (p ++ ["metadata"]) (NodeData.metadata e))
        NodeMetadata.default)
     sn.1,
   sn.2).

Definition ProjectData_defaulted (p : list string) (n : nat) (e : ProjectData.t)
  : ProjectData.t * nat :=
  let ns :=
    keep_or keep p "nodes"
      (thread (NodeData_defaulted (p ++ ["nodes"])) n (ProjectData.nodes e))
      ([], n) in
  let es :=
    keep_or keep p "edges"
      (thread (EdgeData_defaulted (p ++ ["edges"])) ns.2 (ProjectData.edges e))
      ([], ns.2) in
  let gs :=
    keep_or keep p "groups"
      (thread (GroupData_defaulted (p ++ ["groups"])) es.2 (ProjectData.groups e))
      ([], es.2) in
  (ProjectData.mk
     (keep_or keep p "global_tags"
        (prune keep (p ++ ["global_tags"]) <$> ProjectData.global_tags e) [])
     ns.1
     es.1
     (keep_or keep p "pipeline_initialized" (ProjectData.pipeline_initialized e) false)
     (keep_or keep p "description" (ProjectData.description e) "")
     (keep_or keep p "todos"
        (prune_fields keep (p ++ ["todos"]) <$> ProjectData.todos e) [])
     (keep_or keep p "pipeline_edge_color"
        (ProjectData.pipeline_edge_color e) "#607D8B")
     (keep_or keep p "reference_edge_color"
        (ProjectData.reference_edge_color e) "#4CAF50")
     (keep_or keep p "dock_layout" (ProjectData.dock_layout e) [])
     (keep_or keep p "module_colors"
        (List.filter (λ kv, keep ((p ++ ["module_colors"]) ++ [kv.1]))
           (ProjectData.module_colors e))
        ProjectData.default_module_colors)
     gs.1,
   gs.2).
End Defaulted.

(** A node draws one identifier for itself and one for each snippet. *)
Definition node_cost (e : NodeData.t) : nat := S (length (NodeData.snippets e)).

(** ** utils.py *)

(** [s.replace(a, b)] for one-character [a] and [b]. *)
Fixpoint replace_char (a b : ascii) (s : string) : string :=
  match s with
  | EmptyString => EmptyString
  | String c s' => String (if Ascii.eqb c a then b else c) (replace_char a b s')
  end.

(** ["".join(c for c in s if p(c))] *)
Fixpoint filter_chars (p : ascii → bool) (s : string) : string :=
  match s with
  | EmptyString => EmptyString
  | String c s' => if p c then String c (filter_chars p s') else filter_chars p s'
  end.

(** [c in s] *)
Fixpoint char_in (c : ascii) (s : string) : bool :=
  match s with
  | EmptyString => false
  | String c' s' => Ascii.eqb c c' || char_in c s'
  end.

(** [all(p(c) for c in s)] *)
Fixpoint all_chars (p : ascii → bool) (s : string) : bool :=
  match s with
  | EmptyString => true
  | String c s' => p c && all_chars p s'
  end.

Definition valid_chars : string :=
  "abcdefghijklmnopqrstuvwxyzABCDEFGHIJKLMNOPQRSTUVWXYZ0123456789_-".

(** [sanitize_project_name].  A string is the sequence of its UTF-8 bytes:
    every byte of a character outside ASCII is outside [valid_chars], so
    that the filter drops the character whole, as Python does. *)
Definition sanitize_project_name (name : string) : string :=
  let sanitized := replace_char " " "_" name in
  let sanitized := filter_chars (λ c, char_in c valid_chars) sanitized in
  match sanitized with
  | EmptyString => "Untitled_Project"
  | _ => sanitized
  end.

(** The asset directories of the open project, as the manager sees them
    through [Path.exists], [iterdir], [is_file] and [unlink]: a directory
    is absent or lists its entries; [unlink] raises [IOError] on an entry
    that is not [deletable]. *)
Record AssetFile := {
  file_name : string;
  is_file : bool;
  deletable : bool }.

Record AssetStore := {
  papers_dir : option (list AssetFile);
  images_dir : option (list AssetFile) }.

Module ProjectManager.
Record t := mk {
  current_project_name : option string;
  current_project_path : option string;
  project_data : option ProjectData.t }.

Definition is_project_open (self : t) : bool :=
  match current_project_path self with Some _ => true | None => false end.

Definition close_project (self : t) : t := mk None None None.

(** [get_referenced_assets] *)
Definition get_referenced_assets (self : t) : gset string * gset string :=
  match project_data self with
  | None => (∅, ∅)
  | Some pd =>
      foldl (λ '(paper_paths, image_paths) node,
               let paper_paths :=
                 if String.eqb (NodeData.type node) "reference_paper"
                    && negb (String.eqb (NodeMetadata.relative_path_to_md
                                           (NodeData.metadata node)) "")
                 then {[ NodeMetadata.relative_path_to_md (NodeData.metadata node) ]}
                        ∪ paper_paths
                 else paper_paths in
               let image_paths :=
                 foldl (λ image_paths snippet,
                          if String.eqb (Snippet.type snippet) "image"
                             && negb (String.eqb (Snippet.content snippet) "")
                          then {[ Snippet.content snippet ]} ∪ image_paths
                          else image_paths)
                   image_paths (NodeData.snippets node) in
               (paper_paths, image_paths))
        (∅, ∅) (ProjectData.nodes pd)
  end.

(** One of the two loops of [cleanup_orphaned_assets]: the entries that
    stay in the directory and the number of files deleted. *)
Fixpoint clean_dir (prefix : string) (refs : gset string) (files : list AssetFile)
  : list AssetFile * nat :=
  match files with
  | [] => ([], 0%nat)
  | f :: files' =>
      let '(kept, deleted) := clean_dir prefix refs files' in
      if is_file f
         && negb (bool_decide (prefix +:+ file_name f ∈ refs))
         && deletable f
      then (kept, S deleted)
      else (f :: kept, deleted)
  end.

(** [cleanup_orphaned_assets]: the counts for ['papers'] and ['images']. *)
Definition cleanup_orphaned_assets (self : t) (store : AssetStore)
  : (nat * nat) * AssetStore :=
  if negb (is_project_open self) then ((0%nat, 0%nat), store)
  else
    let '(paper_refs, image_refs) := get_referenced_assets self in
    let '(papers, np) :=
      match papers_dir store with
      | Some files =>
          let '(kept, n) := clean_dir "assets/papers/" paper_refs files in
          (Some kept, n)
      | None => (None, 0%nat)
      end in
    let '(images, ni) :=
      match images_dir store with
      | Some files =>
          let '(kept, n) := clean_dir "assets/images/" image_refs files in
          (Some kept, n)
      | None => (None, 0%nat)
      end in
    ((np, ni), {| papers_dir := papers; images_dir := images |}).

(** The loop over [project_data.edges]: the edges kept, in order, and
    the value of [stats["edges_removed"]]. *)
Fixpoint validate_edges (valid_node_ids : gset string) (edges : list EdgeData.t)
  : list EdgeData.t * nat :=
  match edges with
  | [] => ([], 0%nat)
  | edge :: edges' =>
      let '(valid_edges, removed) := validate_edges valid_node_ids edges' in
      if bool_decide (EdgeData.source_id edge ∈ valid_node_ids)
         && bool_decide (EdgeData.target_id edge ∈ valid_node_ids)
      then (edge :: valid_edges, removed)
      else (valid_edges, S removed)
  end.

(** [validate_and_clean_data].  The result is [None] where Python raises
    (a manager that is open without project data); the returned
    dictionary is [{}] when no project is open. *)
Definition validate_and_clean_data (self : t) (store : AssetStore)
  : option (list (string * nat) * t * AssetStore) :=
  if negb (is_project_open self) then Some ([], self, store)
  else
    pd ← project_data self;
    let valid_node_ids : gset string :=
      list_to_set (NodeData.id <$> ProjectData.nodes pd) in
    let '(valid_edges, edges_removed) :=
      validate_edges valid_node_ids (ProjectData.edges pd) in
    let pd' := ProjectData.set_edges pd valid_edges in
    let self' :=
      mk (current_project_name self) (current_project_path self) (Some pd') in
    let '((np, ni), store') := cleanup_orphaned_assets self' store in
    Some ([("edges_removed", edges_removed); ("assets_removed", (np + ni)%nat)],
          self', store').
End ProjectManager.

(** Following the specification of [validate_and_repair] (section 4.5): an
    edge is dangling when its source or its target is the id of no node. *)
Definition is_node_id (nodes : list NodeData.t) (i : string) : bool :=
  existsb (λ n, String.eqb (NodeData.id n) i) nodes.

Definition dangling (nodes : list NodeData.t) (e : EdgeData.t) : bool :=
  negb (is_node_id nodes (EdgeData.source_id e))
  || negb (is_node_id nodes (EdgeData.target_id e)).

(** [stats.get(key)] *)
Fixpoint stat (key : string) (stats : list (string * nat)) : option nat :=
  match stats with
  | [] => None
  | (k, v) :: stats' => if String.eqb key k then Some v else stat key stats'
  end.

(** ** The mutation target

    [undo.py] acts on a [context] object (the main window) through its
    attributes [project_dock], [scene], [project_manager] and
    [module_palette].  Their classes belong to the GUI layer; the shape of
    the data is the one the commands read and write directly
    ([scene._nodes], [node.node_data.position], [group.group_data.node_ids],
    [project_dock._tags], ...), and their methods follow section 6 of the
    specification. *)

(** *** Index-addressed list primitives *)

Definition index_ok (i : Z) (n : nat) : bool :=
  ((0 <=? i)%Z && (i <? Z.of_nat n)%Z)%bool.

Definition list_insert_at {A} (i : Z) (x : A) (l : list A) : option (list A) :=
  if ((0 <=? i)%Z && (i <=? Z.of_nat (length l))%Z)%bool
  then Some (take (Z.to_nat i) l ++ x :: drop (Z.to_nat i) l)
  else None.

Definition list_remove_at {A} (i : Z) (l : list A) : option (list A) :=
  if index_ok i (length l) then Some (delete (Z.to_nat i) l) else None.

Definition list_update_at {A} (i : Z) (f : A → A) (l : list A) : option (list A) :=
  if index_ok i (length l) then Some (alter f (Z.to_nat i) l) else None.

Definition list_move {A} (from_index to_index : Z) (l : list A) : option (list A) :=
  if index_ok from_index (length l) && index_ok to_index (length l)
  then x ← l !! Z.to_nat from_index;
       list_insert_at to_index x (delete (Z.to_nat from_index) l)
  else None.

(** *** The project dock *)

Record ProjectDock := {
  dock_description : string;
  dock_todos : list (string * bool);
  _tags : list (string * option string);
  dock_pipeline_color : string;
  dock_reference_color : string }.

Definition with_description (d : ProjectDock) (v : string) : ProjectDock :=
  {| dock_description := v; dock_todos := dock_todos d; _tags := _tags d;
     dock_pipeline_color := dock_pipeline_color d;
     dock_reference_color := dock_reference_color d |}.

Definition with_todos (d : ProjectDock) (l : list (string * bool)) : ProjectDock :=
  {| dock_description := dock_description d; dock_todos := l; _tags := _tags d;
     dock_pipeline_color := dock_pipeline_color d;
     dock_reference_color := dock_reference_color d |}.

Definition with_tags (d : ProjectDock) (l : list (string * option string))
  : ProjectDock :=
  {| dock_description := dock_description d; dock_todos := dock_todos d; _tags := l;
     dock_pipeline_color := dock_pipeline_color d;
     dock_reference_color := dock_reference_color d |}.

(** Modelled from the spec: the methods of the project dock, absent from
    the sources, after the todo and tag list primitives of section 6
    (insert-at, remove-at, update-text-at, set-done-at, move, rename,
    recolor, all index-addressed).  An index out of range raises, which is
    [None] here; the tag primitives addressed by name act on the first tag
    of that name and do nothing when there is none. *)
Definition set_description (v : string) (d : ProjectDock) : option ProjectDock :=
  Some (with_description d v).

Definition add_todo (text : string) (d : ProjectDock) : option ProjectDock :=
  Some (with_todos d (dock_todos d ++ [(text, false)])).

Definition remove_todo_at (i : Z) (d : ProjectDock) : option ProjectDock :=
  with_todos d <$> list_remove_at i (dock_todos d).

Definition insert_todo (i : Z) (text : string) (done : bool) (d : ProjectDock)
  : option ProjectDock :=
  with_todos d <$> list_insert_at i (text, done) (dock_todos d).

Definition update_todo_text (i : Z) (text : string) (d : ProjectDock)
  : option ProjectDock :=
  with_todos d <$> list_update_at i (λ td, (text, td.2)) (dock_todos d).

Definition set_todo_status (i : Z) (done : bool) (d : ProjectDock)
  : option ProjectDock :=
  with_todos d <$> list_update_at i (λ td, (td.1, done)) (dock_todos d).

Definition move_todo (from_index to_index : Z) (d : ProjectDock)
  : option ProjectDock :=
  with_todos d <$> list_move from_index to_index (dock_todos d).

Definition insert_tag (i : Z) (name : string) (color : option string)
    (d : ProjectDock) : option ProjectDock :=
  with_tags d <$> list_insert_at i (name, color) (_tags d).

Fixpoint remove_first_named (name : string) (l : list (string * option string))
  : list (string * option string) :=
  match l with
  | [] => []
  | tg :: l' => if String.eqb tg.1 name then l' else tg :: remove_first_named name l'
  end.

Fixpoint alter_first_named (name : string)
    (f : string * option string → string * option string)
    (l : list (string * option string)) : list (string * option string) :=
  match l with
  | [] => []
  | tg :: l' =>
      if String.eqb tg.1 name then f tg :: l' else tg :: alter_first_named name f l'
  end.

Definition remove_tag_by_name (name : string) (d : ProjectDock) : option ProjectDock :=
  Some (with_tags d (remove_first_named name (_tags d))).

Definition rename_tag_item (old_name new_name : string) (d : ProjectDock)
  : option ProjectDock :=
  Some (with_tags d (alter_first_named old_name (λ tg, (new_name, tg.2)) (_tags d))).

Definition set_tag_color (name : string) (color : option string) (d : ProjectDock)
  : option ProjectDock :=
  Some (with_tags d (alter_first_named name (λ tg, (tg.1, color)) (_tags d))).

Definition move_tag (from_index to_index : Z) (d : ProjectDock) : option ProjectDock :=
  with_tags d <$> list_move from_index to_index (_tags d).

Definition dock_set_edge_colors (pipeline reference : string) (d : ProjectDock)
  : ProjectDock :=
  {| dock_description := dock_description d; dock_todos := dock_todos d;
     _tags := _tags d;
     dock_pipeline_color := pipeline; dock_reference_color := reference |}.

(** *** The module palette *)

Record ModulePalette := {
  palette_colors : gmap string string;
  waypoint_item_color : string }.

(** Modelled from the spec: [module_palette.set_color_for_type] and
    [module_palette.waypoint_item.set_color], absent from the sources, after
    [set_module_color(module_type, color)] of section 6. *)
Definition set_color_for_type (module_type color : string) (mp : ModulePalette)
  : ModulePalette :=
  {| palette_colors := <[module_type := color]> (palette_colors mp);
     waypoint_item_color := waypoint_item_color mp |}.

Definition waypoint_item_set_color (color : string) (mp : ModulePalette)
  : ModulePalette :=
  {| palette_colors := palette_colors mp; waypoint_item_color := color |}.

(** *** The scene *)

(** A node or waypoint item: [pos()], [node_data], the colours set by
    [set_color] and [set_group_color], whether it is a
    [PipelineModuleItem], and its [module_type] attribute. *)
Record NodeItem := {
  item_pos : Position.t;
  node_data : NodeData.t;
  item_color : option string;
  group_color : option string;
  is_pipeline_module_item : bool;
  item_module_type : string }.

(** A group item: [pos()] and [group_data]. *)
Record GroupItem := {
  group_pos : Position.t;
  group_data : GroupData.t }.

Record Scene := {
  _nodes : gmap string NodeItem;
  _waypoints : gmap string NodeItem;
  _groups : gmap string GroupItem;
  _edges : gmap string EdgeData.t;
  scene_pipeline_color : string;
  scene_reference_color : string;
  _is_undo_operation : bool }.

Definition with_nodes (sc : Scene) (m : gmap string NodeItem) : Scene :=
  {| _nodes := m; _waypoints := _waypoints sc; _groups := _groups sc;
     _edges := _edges sc; scene_pipeline_color := scene_pipeline_color sc;
     scene_reference_color := scene_reference_color sc;
     _is_undo_operation := _is_undo_operation sc |}.

Definition with_waypoints (sc : Scene) (m : gmap string NodeItem) : Scene :=
  {| _nodes := _nodes sc; _waypoints := m; _groups := _groups sc;
     _edges := _edges sc; scene_pipeline_color := scene_pipeline_color sc;
     scene_reference_color := scene_reference_color sc;
     _is_undo_operation := _is_undo_operation sc |}.

Definition with_groups (sc : Scene) (m : gmap string GroupItem) : Scene :=
  {| _nodes := _nodes sc; _waypoints := _waypoints sc; _groups := m;
     _edges := _edges sc; scene_pipeline_color := scene_pipeline_color sc;
     scene_reference_color := scene_reference_color sc;
     _is_undo_operation := _is_undo_operation sc |}.

Definition with_edges (sc : Scene) (m : gmap string EdgeData.t) : Scene :=
  {| _nodes := _nodes sc; _waypoints := _waypoints sc; _groups := _groups sc;
     _edges := m; scene_pipeline_color := scene_pipeline_color sc;
     scene_reference_color := scene_reference_color sc;
     _is_undo_operation := _is_undo_operation sc |}.

Definition with_is_undo_operation (sc : Scene) (b : bool) : Scene :=
  {| _nodes := _nodes sc; _waypoints := _waypoints sc; _groups := _groups sc;
     _edges := _edges sc; scene_pipeline_color := scene_pipeline_color sc;
     scene_reference_color := scene_reference_color sc;
     _is_undo_operation := b |}.

(** [node.setPos(x, y); node.node_data.position.x = x;
    node.node_data.position.y = y] *)
Definition node_set_position (px py : Z) (n : NodeItem) : NodeItem :=
  let nd := node_data n in
  {| item_pos := Position.mk px py;
     node_data :=
       NodeData.mk (NodeData.id nd) (NodeData.type nd) (Position.mk px py)
         (NodeData.tags nd) (NodeData.metadata nd) (NodeData.snippets nd);
     item_color := item_color n;
     group_color := group_color n;
     is_pipeline_module_item := is_pipeline_module_item n;
     item_module_type := item_module_type n |}.

(** [group.setPos(QPointF(x, y)); group.group_data.position.x = x;
    group.group_data.position.y = y] *)
Definition group_set_position (px py : Z) (g : GroupItem) : GroupItem :=
  let gd := group_data g in
  {| group_pos := Position.mk px py;
     group_data :=
       GroupData.mk (GroupData.id gd) (GroupData.name gd) (Position.mk px py)
         (GroupData.width gd) (GroupData.height gd) (GroupData.color gd)
         (GroupData.node_ids gd) |}.

(** [group.group_data.node_ids = ids] *)
Definition group_set_node_ids (ids : list string) (g : GroupItem) : GroupItem :=
  let gd := group_data g in
  {| group_pos := group_pos g;
     group_data :=
       GroupData.mk (GroupData.id gd) (GroupData.name gd) (GroupData.position gd)
         (GroupData.width gd) (GroupData.height gd) (GroupData.color gd) ids |}.

(** Modelled from the spec: [node.set_color], [node.set_group_color] and
    [group.set_color] of the graphics items, absent from the sources, after
    the colour setters of section 6; the colour of a group is the [color]
    of its [group_data]. *)
Definition node_set_color (c : string) (n : NodeItem) : NodeItem :=
  {| item_pos := item_pos n; node_data := node_data n;
     item_color := Some c; group_color := group_color n;
     is_pipeline_module_item := is_pipeline_module_item n;
     item_module_type := item_module_type n |}.

Definition node_set_group_color (c : option string) (n : NodeItem) : NodeItem :=
  {| item_pos := item_pos n; node_data := node_data n;
     item_color := item_color n; group_color := c;
     is_pipeline_module_item := is_pipeline_module_item n;
     item_module_type := item_module_type n |}.

Definition group_set_color (c : string) (g : GroupItem) : GroupItem :=
  let gd := group_data g in
  {| group_pos := group_pos g;
     group_data :=
       GroupData.mk (GroupData.id gd) (GroupData.name gd) (GroupData.position gd)
         (GroupData.width gd) (GroupData.height gd) c (GroupData.node_ids gd) |}.

(** [scene._nodes.get(node_id) or scene._waypoints.get(node_id)] *)
Definition find_node (sc : Scene) (node_id : string) : option NodeItem :=
  match _nodes sc !! node_id with
  | Some n => Some n
  | None => _waypoints sc !! node_id
  end.

(** The in-place mutation of the item found by [find_node], when there is
    one. *)
Definition update_node (node_id : string) (f : NodeItem → NodeItem) (sc : Scene)
  : Scene :=
  match _nodes sc !! node_id with
  | Some n => with_nodes sc (<[node_id := f n]> (_nodes sc))
  | None =>
      match _waypoints sc !! node_id with
      | Some n => with_waypoints sc (<[node_id := f n]> (_waypoints sc))
      | None => sc
      end
  end.

(** The in-place mutation of [scene._groups.get(group_id)], when there is
    one. *)
Definition update_group (group_id : string) (f : GroupItem → GroupItem) (sc : Scene)
  : Scene :=
  match _groups sc !! group_id with
  | Some g => with_groups sc (<[group_id := f g]> (_groups sc))
  | None => sc
  end.

(** Modelled from the spec: the scene methods [restore_node],
    [_remove_node_internal], [_remove_waypoint_internal], [restore_edge],
    [_remove_edge_internal], [restore_group], [remove_group] and
    [set_edge_colors], absent from the sources, after [insert_node],
    [remove_node], [insert_edge], [remove_edge], [insert_group],
    [remove_group] and [set_edge_colors] of section 6.  A restored node is
    shown at the position of its data, with no colour of its own, and is
    kept among the waypoints when its type is ["waypoint"]; removing a node
    removes the edges that touch it (section 3, EdgeData) and its
    membership in every group (section 3, GroupData). *)
Definition new_node_item (nd : NodeData.t) : NodeItem :=
  {| item_pos := NodeData.position nd;
     node_data := nd;
     item_color := None;
     group_color := None;
     is_pipeline_module_item := String.eqb (NodeData.type nd) "pipeline_module";
     item_module_type := NodeMetadata.module_type (NodeData.metadata nd) |}.

Definition new_group_item (gd : GroupData.t) : GroupItem :=
  {| group_pos := GroupData.position gd; group_data := gd |}.

Definition restore_node (nd : NodeData.t) (sc : Scene) : Scene :=
  if String.eqb (NodeData.type nd) "waypoint"
  then with_waypoints sc (<[NodeData.id nd := new_node_item nd]> (_waypoints sc))
  else with_nodes sc (<[NodeData.id nd := new_node_item nd]> (_nodes sc)).

Definition touches (node_id : string) (e : EdgeData.t) : bool :=
  String.eqb (EdgeData.source_id e) node_id || String.eqb (EdgeData.target_id e) node_id.

Definition forget_node (node_id : string) (sc : Scene) : Scene :=
  with_groups
    (with_edges sc (filter (λ kv, touches node_id kv.2 = false) (_edges sc)))
    ((λ g, group_set_node_ids
             (List.filter (λ i, negb (String.eqb i node_id))
                (GroupData.node_ids (group_data g))) g) <$> _groups sc).

Definition _remove_node_internal (node_id : string) (sc : Scene) : Scene :=
  forget_node node_id (with_nodes sc (delete node_id (_nodes sc))).

Definition _remove_waypoint_internal (node_id : string) (sc : Scene) : Scene :=
  forget_node node_id (with_waypoints sc (delete node_id (_waypoints sc))).

Definition restore_edge (ed : EdgeData.t) (sc : Scene) : Scene :=
  with_edges sc (<[EdgeData.id ed := ed]> (_edges sc)).

Definition _remove_edge_internal (edge_id : string) (sc : Scene) : Scene :=
  with_edges sc (delete edge_id (_edges sc)).

Definition restore_group (gd : GroupData.t) (sc : Scene) : Scene :=
  with_groups sc (<[GroupData.id gd := new_group_item gd]> (_groups sc)).

Definition remove_group (group_id : string) (sc : Scene) : Scene :=
  with_groups sc (delete group_id (_groups sc)).

Definition scene_set_edge_colors (pipeline reference : string) (sc : Scene) : Scene :=
  {| _nodes := _nodes sc; _waypoints := _waypoints sc; _groups := _groups sc;
     _edges := _edges sc; scene_pipeline_color := pipeline;
     scene_reference_color := reference;
     _is_undo_operation := _is_undo_operation sc |}.

(** *** The context and the world *)

(** The [context] of the commands and of the manager: an attribute that
    [hasattr] does not find is [None]. *)
Record Context := {
  project_dock : option ProjectDock;
  scene : option Scene;
  project_manager : option ProjectManager.t;
  module_palette : option ModulePalette }.

(** What the program can change: the context, the number of identifiers
    drawn, and the history files on disk, keyed by project path. *)
Record World := {
  context : Context;
  uuid_count : nat;
  history_files : gmap string json }.

Definition with_context (w : World) (c : Context) : World :=
  {| context := c; uuid_count := uuid_count w; history_files := history_files w |}.

Definition with_project_dock (c : Context) (d : ProjectDock) : Context :=
  {| project_dock := Some d; scene := scene c;
     project_manager := project_manager c; module_palette := module_palette c |}.

Definition with_scene (c : Context) (sc : Scene) : Context :=
  {| project_dock := project_dock c; scene := Some sc;
     project_manager := project_manager c; module_palette := module_palette c |}.

Definition with_project_manager (c : Context) (pm : ProjectManager.t) : Context :=
  {| project_dock := project_dock c; scene := scene c;
     project_manager := Some pm; module_palette := module_palette c |}.

Definition with_module_palette (c : Context) (mp : ModulePalette) : Context :=
  {| project_dock := project_dock c; scene := scene c;
     project_manager := project_manager c; module_palette := Some mp |}.

(** *** Actions: state and exceptions *)

Inductive result (A : Type) :=
  | Ok (a : A) (w : World)
  | Raise (w : World).
Arguments Ok {A} a w.
Arguments Raise {A} w.

Definition Act (A : Type) : Type := World → result A.

#[global] Instance Act_ret : MRet Act := λ A a w, Ok a w.
#[global] Instance Act_bind : MBind Act := λ A B f m w,
  match m w with
  | Ok a w' => f a w'
  | Raise w' => Raise w'
  end.

(** [try: body finally: cleanup] *)
Definition try_finally {A} (body : Act A) (cleanup : World → World) : Act A :=
  λ w, match body w with
       | Ok a w' => Ok a (cleanup w')
       | Raise w' => Raise (cleanup w')
       end.

(** Running a loader inside an action; a loader that fails raises. *)
Definition load {A} (m : Load A) : Act A :=
  λ w, match m (uuid_count w) with
       | Some (a, n) =>
           Ok a {| context := context w; uuid_count := n;
                   history_files := history_files w |}
       | None => Raise w
       end.

(** [if hasattr(self.context, 'project_dock'): <one dock method>] *)
Definition on_dock (f : ProjectDock → option ProjectDock) : Act unit :=
  λ w, match project_dock (context w) with
       | None => Ok () w
       | Some d =>
           match f d with
           | Some d' => Ok () (with_context w (with_project_dock (context w) d'))
           | None => Raise w
           end
       end.

(** A mutation of the scene, when the context has one. *)
Definition on_scene (f : Scene → Scene) : Act unit :=
  λ w, match scene (context w) with
       | None => Ok () w
       | Some sc => Ok () (with_context w (with_scene (context w) (f sc)))
       end.

Definition on_scene_world (f : Scene → Scene) (w : World) : World :=
  match scene (context w) with
  | None => w
  | Some sc => with_context w (with_scene (context w) (f sc))
  end.

(** [hasattr(self.context, 'scene')] *)
Definition has_scene : Act bool :=
  λ w, Ok (match scene (context w) with Some _ => true | None => false end) w.

(** [d[k]], which raises [KeyError] on a missing key. *)
Definition item (data : dict) (k : string) : option json := dict_get k data.

Definition raise_ {A} : Act A := λ w, Raise w.

Definition of_option {A} (o : option A) : Act A :=
  λ w, match o with Some a => Ok a w | None => Raise w end.

(** ** undo.py: the commands *)

Inductive Command :=
  | DescriptionChangeCommand (old_value new_value : string)
  | TodoAddCommand (todo_text : string) (todo_index : Z)
  | TodoRemoveCommand (todo_index : Z) (todo_text : string) (is_done : bool)
  | TodoEditCommand (todo_index : Z) (old_text new_text : string)
  | TodoToggleCommand (todo_index : Z) (new_state : bool)
  | TodoMoveCommand (from_index to_index : Z)
  | TagAddCommand (tag_name : string) (tag_index : Z)
  | TagRemoveCommand (tag_name : string) (tag_color : option string) (tag_index : Z)
  | TagRenameCommand (old_name new_name : string)
  | TagColorChangeCommand (tag_name : string) (old_color new_color : option string)
  | TagMoveCommand (from_index to_index : Z)
  | NodePositionCommand (node_id : string) (old_x old_y new_x new_y : Z)
  | AddNodeCommand (node_data_dict : dict)
  | RemoveNodeCommand (node_data_dict : dict) (connected_edges : list dict)
  | AddEdgeCommand (edge_data_dict : dict)
  | RemoveEdgeCommand (edge_data_dict : dict)
  | AddGroupCommand (group_data_dict : dict)
  | RemoveGroupCommand (group_data_dict : dict)
  | GroupMoveCommand (group_id : string) (old_pos new_pos : Z * Z)
      (child_positions : option (list (string * (Z * Z))))
      (_first_execute : bool)
  | NodeGroupChangeCommand (node_id : string) (old_group_id new_group_id : option string)
  | GlobalEdgeColorChangeCommand
      (old_pipeline_color old_reference_color
       new_pipeline_color new_reference_color : string)
  | ModulePaletteColorChangeCommand (module_type old_color new_color : string).

(** [d[k] = v] on a dictionary kept in insertion order. *)
Fixpoint adict_set {V} (k : string) (v : V) (d : list (string * V))
  : list (string * V) :=
  match d with
  | [] => [(k, v)]
  | (k', v') :: d' =>
      if String.eqb k k' then (k, v) :: d' else (k', v') :: adict_set k v d'
  end.

(** The truth value of an [Optional[str]]: [None] and [""] are false. *)
Definition truthy (o : option string) : bool :=
  match o with
  | Some s => negb (String.eqb s "")
  | None => false
  end.

(** A value used as a dictionary key or compared with the keys of a
    dictionary of strings: a string is itself, a list or a dict is
    unhashable and raises, any other value equals no key. *)
Definition as_key (j : json) : Act (option string) :=
  match j with
  | JStr s => mret (Some s)
  | JList _ | JDict _ => raise_
  | _ => mret None
  end.

(** The body shared by [AddNodeCommand.undo] and
    [RemoveNodeCommand.execute]. *)
Definition remove_node_or_waypoint (node_data_dict : dict) : Act unit :=
  b ← has_scene;
  if b : bool then
    _ ← on_scene (λ sc, with_is_undo_operation sc true);
    try_finally
      (j ← of_option (item node_data_dict "id");
       k ← as_key j;
       match k with
       | Some node_id =>
           on_scene (λ sc,
             if bool_decide (is_Some (_nodes sc !! node_id))
             then _remove_node_internal node_id sc
             else if bool_decide (is_Some (_waypoints sc !! node_id))
             then _remove_waypoint_internal node_id sc
             else sc)
       | None => mret ()
       end)
      (on_scene_world (λ sc, with_is_undo_operation sc false))
  else mret ().

(** The body shared by [AddNodeCommand.execute] and the first step of
    [RemoveNodeCommand.undo]. *)
Definition restore_node_from `{UuidSource} (node_data_dict : dict) : Act unit :=
  node_data ← load (NodeData.from_dict node_data_dict);
  on_scene (restore_node node_data).

(** The body shared by [AddEdgeCommand.execute] and
    [RemoveEdgeCommand.undo]. *)
Definition restore_edge_from `{UuidSource} (edge_data_dict : dict) : Act unit :=
  b ← has_scene;
  if b : bool then
    edge_data ← load (EdgeData.from_dict edge_data_dict);
    on_scene (restore_edge edge_data)
  else mret ().

(** The body shared by [AddEdgeCommand.undo] and
    [RemoveEdgeCommand.execute]. *)
Definition remove_edge_of (edge_data_dict : dict) : Act unit :=
  b ← has_scene;
  if b : bool then
    _ ← on_scene (λ sc, with_is_undo_operation sc true);
    try_finally
      (j ← of_option (item edge_data_dict "id");
       k ← as_key j;
       match k with
       | Some edge_id => on_scene (_remove_edge_internal edge_id)
       | None => mret ()
       end)
      (on_scene_world (λ sc, with_is_undo_operation sc false))
  else mret ().

(** The body shared by [AddGroupCommand.execute] and
    [RemoveGroupCommand.undo]. *)
Definition restore_group_from `{UuidSource} (group_data_dict : dict) : Act unit :=
  b ← has_scene;
  if b : bool then
    group_data ← load (GroupData.from_dict group_data_dict);
    on_scene (restore_group group_data)
  else mret ().

(** The body shared by [AddGroupCommand.undo] and
    [RemoveGroupCommand.execute]. *)
Definition remove_group_of (group_data_dict : dict) : Act unit :=
  b ← has_scene;
  if b : bool then
    j ← of_option (item group_data_dict "id");
    k ← as_key j;
    match k with
    | Some group_id => on_scene (remove_group group_id)
    | None => mret ()
    end
  else mret ().

(** [GroupMoveCommand.__post_init__]: the snapshot of the children. *)
Definition snapshot_children (sc : Scene) (group_id : string) (old_pos new_pos : Z * Z)
  : list (string * (Z * Z)) :=
  match _groups sc !! group_id with
  | Some group =>
      let dx := new_pos.1 - old_pos.1 in
      let dy := new_pos.2 - old_pos.2 in
      foldl (λ child_positions node_id,
               match find_node sc node_id with
               | Some node =>
                   adict_set node_id
                     (Position.x (item_pos node) - dx, Position.y (item_pos node) - dy)
                     child_positions
               | None => child_positions
               end)
        [] (GroupData.node_ids (group_data group))
  | None => []
  end.

Definition __post_init__ (ctx : Context) (group_id : string) (old_pos new_pos : Z * Z)
    (child_positions : option (list (string * (Z * Z))))
  : option (list (string * (Z * Z))) :=
  match child_positions, scene ctx with
  | None, Some sc => Some (snapshot_children sc group_id old_pos new_pos)
  | _, _ => child_positions
  end.

(** The constructor [GroupMoveCommand(context, group_id, old_pos, new_pos,
    child_positions)]. *)
Definition new_GroupMoveCommand (ctx : Context) (group_id : string)
    (old_pos new_pos : Z * Z) (child_positions : option (list (string * (Z * Z))))
  : Command :=
  GroupMoveCommand group_id old_pos new_pos
    (__post_init__ ctx group_id old_pos new_pos child_positions) true.

(** [GroupMoveCommand._move_to] on a scene. *)
Definition move_scene_to (group_id : string) (old_pos : Z * Z)
    (child_positions : option (list (string * (Z * Z)))) (target_pos : Z * Z)
    (sc : Scene) : Scene :=
  match _groups sc !! group_id with
  | Some group =>
      let sc := update_group group_id (group_set_position target_pos.1 target_pos.2) sc in
      let dx := target_pos.1 - old_pos.1 in
      let dy := target_pos.2 - old_pos.2 in
      foldl (λ sc '(node_id, (old_x, old_y)),
               update_node node_id (node_set_position (old_x + dx) (old_y + dy)) sc)
        sc (default [] child_positions)
  | None => sc
  end.

Definition _move_to (group_id : string) (old_pos : Z * Z)
    (child_positions : option (list (string * (Z * Z)))) (target_pos : Z * Z)
  : Act unit :=
  on_scene (move_scene_to group_id old_pos child_positions target_pos).

(** [NodeGroupChangeCommand._apply_grouping] on a scene. *)
Definition remove_first (x : string) : list string → list string :=
  fix go l :=
    match l with
    | [] => []
    | y :: l' => if String.eqb y x then l' else y :: go l'
    end.

Definition contains (x : string) (l : list string) : bool :=
  existsb (String.eqb x) l.

Definition apply_grouping_scene (node_id : string)
    (from_group_id to_group_id : option string) (sc : Scene) : Scene :=
  let sc :=
    match (if truthy from_group_id then from_group_id else None) with
    | Some g =>
        update_group g
          (λ old_group,
             if contains node_id (GroupData.node_ids (group_data old_group))
             then group_set_node_ids
                    (remove_first node_id (GroupData.node_ids (group_data old_group)))
                    old_group
             else old_group) sc
    | None => sc
    end in
  let sc :=
    match (if truthy to_group_id then to_group_id else None) with
    | Some g =>
        update_group g
          (λ new_group,
             if contains node_id (GroupData.node_ids (group_data new_group))
             then new_group
             else group_set_node_ids
                    (GroupData.node_ids (group_data new_group) ++ [node_id])
                    new_group) sc
    | None => sc
    end in
  match (if truthy to_group_id then to_group_id else None) with
  | Some g =>
      match _groups sc !! g with
      | Some new_group =>
          update_node node_id
            (node_set_group_color (Some (GroupData.color (group_data new_group)))) sc
      | None => sc
      end
  | None => update_node node_id (node_set_group_color None) sc
  end.

Definition _apply_grouping (node_id : string)
    (from_group_id to_group_id : option string) : Act unit :=
  on_scene (apply_grouping_scene node_id from_group_id to_group_id).

(** [self.context.project_manager.project_data.<field> = ...], guarded by
    [hasattr(self.context, 'project_manager') and
    self.context.project_manager.is_project_open]; it raises when the open
    manager holds no project data. *)
Definition on_project_data (f : ProjectData.t → ProjectData.t) : Act unit :=
  λ w, match project_manager (context w) with
       | None => Ok () w
       | Some pm =>
           if ProjectManager.is_project_open pm then
             match ProjectManager.project_data pm with
             | Some pd =>
                 Ok () (with_context w
                          (with_project_manager (context w)
                             (ProjectManager.mk
                                (ProjectManager.current_project_name pm)
                                (ProjectManager.current_project_path pm)
                                (Some (f pd)))))
             | None => Raise w
             end
           else Ok () w
       end.

Definition on_palette (f : ModulePalette → ModulePalette) : Act unit :=
  λ w, match module_palette (context w) with
       | None => Ok () w
       | Some mp => Ok () (with_context w (with_module_palette (context w) (f mp)))
       end.

Definition set_project_edge_colors (pipeline reference : string) (pd : ProjectData.t)
  : ProjectData.t :=
  ProjectData.mk (ProjectData.global_tags pd) (ProjectData.nodes pd)
    (ProjectData.edges pd) (ProjectData.pipeline_initialized pd)
    (ProjectData.description pd) (ProjectData.todos pd) pipeline reference
    (ProjectData.dock_layout pd) (ProjectData.module_colors pd)
    (ProjectData.groups pd).

Definition set_project_module_color (module_type color : string) (pd : ProjectData.t)
  : ProjectData.t :=
  ProjectData.mk (ProjectData.global_tags pd) (ProjectData.nodes pd)
    (ProjectData.edges pd) (ProjectData.pipeline_initialized pd)
    (ProjectData.description pd) (ProjectData.todos pd)
    (ProjectData.pipeline_edge_color pd) (ProjectData.reference_edge_color pd)
    (ProjectData.dock_layout pd)
    (adict_set module_type color (ProjectData.module_colors pd))
    (ProjectData.groups pd).

(** [GlobalEdgeColorChangeCommand._apply_colors] *)
Definition _apply_colors (pipeline reference : string) : Act unit :=
  _ ← on_project_data (set_project_edge_colors pipeline reference);
  _ ← on_dock (λ d, Some (dock_set_edge_colors pipeline reference d));
  _ ← on_scene (scene_set_edge_colors pipeline reference);
  on_palette (waypoint_item_set_color pipeline).

(** The three steps shared by [ModulePaletteColorChangeCommand.execute] and
    [undo]. *)
Definition recolor_scene (module_type color : string) (sc : Scene) : Scene :=
  let sc :=
    if String.eqb module_type "group"
    then with_groups sc (group_set_color color <$> _groups sc)
    else sc in
  with_nodes sc
    ((λ node, if is_pipeline_module_item node
                 && String.eqb (item_module_type node) module_type
              then node_set_color color node else node) <$> _nodes sc).

Definition apply_module_color (module_type color : string) : Act unit :=
  _ ← on_project_data (set_project_module_color module_type color);
  _ ← on_palette (set_color_for_type module_type color);
  on_scene (recolor_scene module_type color).

Section Commands.
Context `{UuidSource}.

(** [command.execute()]: the command as the call leaves it. *)
Definition execute (self : Command) : Act Command :=
  match self with
  | DescriptionChangeCommand old_value new_value =>
      _ ← on_dock (set_description new_value); mret self
  | TodoAddCommand todo_text todo_index =>
      _ ← on_dock (add_todo todo_text); mret self
  | TodoRemoveCommand todo_index todo_text is_done =>
      _ ← on_dock (remove_todo_at todo_index); mret self
  | TodoEditCommand todo_index old_text new_text =>
      _ ← on_dock (update_todo_text todo_index new_text); mret self
  | TodoToggleCommand todo_index new_state =>
      _ ← on_dock (set_todo_status todo_index new_state); mret self
  | TodoMoveCommand from_index to_index =>
      _ ← on_dock (move_todo from_index to_index); mret self
  | TagAddCommand tag_name tag_index =>
      λ w, match project_dock (context w) with
           | None => Ok self w
           | Some d =>
               match insert_tag (Z.of_nat (length (_tags d))) tag_name None d with
               | Some d' =>
                   Ok (TagAddCommand tag_name (Z.of_nat (length (_tags d')) - 1))
                      (with_context w (with_project_dock (context w) d'))
               | None => Raise w
               end
           end
  | TagRemoveCommand tag_name tag_color tag_index =>
      _ ← on_dock (remove_tag_by_name tag_name); mret self
  | TagRenameCommand old_name new_name =>
      _ ← on_dock (rename_tag_item old_name new_name); mret self
  | TagColorChangeCommand tag_name old_color new_color =>
      _ ← on_dock (set_tag_color tag_name new_color); mret self
  | TagMoveCommand from_index to_index =>
      _ ← on_dock (move_tag from_index to_index); mret self
  | NodePositionCommand node_id old_x old_y new_x new_y =>
      _ ← on_scene (update_node node_id (node_set_position new_x new_y)); mret self
  | AddNodeCommand node_data_dict =>
      b ← has_scene;
      _ ← (if b : bool then restore_node_from node_data_dict else mret ());
      mret self
  | RemoveNodeCommand node_data_dict connected_edges =>
      _ ← remove_node_or_waypoint node_data_dict; mret self
  | AddEdgeCommand edge_data_dict =>
      _ ← restore_edge_from edge_data_dict; mret self
  | RemoveEdgeCommand edge_data_dict =>
      _ ← remove_edge_of edge_data_dict; mret self
  | AddGroupCommand group_data_dict =>
      _ ← restore_group_from group_data_dict; mret self
  | RemoveGroupCommand group_data_dict =>
      _ ← remove_group_of group_data_dict; mret self
  | GroupMoveCommand group_id old_pos new_pos child_positions _first_execute =>
      if _first_execute
      then mret (GroupMoveCommand group_id old_pos new_pos child_positions false)
      else _ ← _move_to group_id old_pos child_positions new_pos; mret self
  | NodeGroupChangeCommand node_id old_group_id new_group_id =>
      _ ← _apply_grouping node_id old_group_id new_group_id; mret self
  | GlobalEdgeColorChangeCommand _ _ new_pipeline_color new_reference_color =>
      _ ← _apply_colors new_pipeline_color new_reference_color; mret self
  | ModulePaletteColorChangeCommand module_type old_color new_color =>
      _ ← apply_module_color module_type new_color; mret self
  end.

(** [command.undo()] *)
Definition undo (self : Command) : Act Command :=
  match self with
  | DescriptionChangeCommand old_value new_value =>
      _ ← on_dock (set_description old_value); mret self
  | TodoAddCommand todo_text todo_index =>
      _ ← on_dock (remove_todo_at todo_index); mret self
  | TodoRemoveCommand todo_index todo_text is_done =>
      _ ← on_dock (insert_todo todo_index todo_text is_done); mret self
  | TodoEditCommand todo_index old_text new_text =>
      _ ← on_dock (update_todo_text todo_index old_text); mret self
  | TodoToggleCommand todo_index new_state =>
      _ ← on_dock (set_todo_status todo_index (negb new_state)); mret self
  | TodoMoveCommand from_index to_index =>
      _ ← on_dock (move_todo to_index from_index); mret self
  | TagAddCommand tag_name tag_index =>
      _ ← on_dock (remove_tag_by_name tag_name); mret self
  | TagRemoveCommand tag_name tag_color tag_index =>
      _ ← on_dock (insert_tag tag_index tag_name tag_color); mret self
  | TagRenameCommand old_name new_name =>
      _ ← on_dock (rename_tag_item new_name old_name); mret self
  | TagColorChangeCommand tag_name old_color new_color =>
      _ ← on_dock (set_tag_color tag_name old_color); mret self
  | TagMoveCommand from_index to_index =>
      _ ← on_dock (move_tag to_index from_index); mret self
  | NodePositionCommand node_id old_x old_y new_x new_y =>
      _ ← on_scene (update_node node_id (node_set_position old_x old_y)); mret self
  | AddNodeCommand node_data_dict =>
      _ ← remove_node_or_waypoint node_data_dict; mret self
  | RemoveNodeCommand node_data_dict connected_edges =>
      b ← has_scene;
      _ ← (if b : bool then
             _ ← restore_node_from node_data_dict;
             foldl (λ acc edge_dict,
                      _ ← acc;
                      edge_data ← load (EdgeData.from_dict edge_dict);
                      on_scene (restore_edge edge_data))
               (mret ()) connected_edges
           else mret ());
      mret self
  | AddEdgeCommand edge_data_dict =>
      _ ← remove_edge_of edge_data_dict; mret self
  | RemoveEdgeCommand edge_data_dict =>
      _ ← restore_edge_from edge_data_dict; mret self
  | AddGroupCommand group_data_dict =>
      _ ← remove_group_of group_data_dict; mret self
  | RemoveGroupCommand group_data_dict =>
      _ ← restore_group_from group_data_dict; mret self
  | GroupMoveCommand group_id old_pos new_pos child_positions _first_execute =>
      _ ← _move_to group_id old_pos child_positions old_pos; mret self
  | NodeGroupChangeCommand node_id old_group_id new_group_id =>
      _ ← _apply_grouping node_id new_group_id old_group_id; mret self
  | GlobalEdgeColorChangeCommand old_pipeline_color old_reference_color _ _ =>
      _ ← _apply_colors old_pipeline_color old_reference_color; mret self
  | ModulePaletteColorChangeCommand module_type old_color new_color =>
      _ ← apply_module_color module_type old_color; mret self
  end.
End Commands.

(** *** Serialisation of the commands *)

Definition pair_to_json (p : Z * Z) : json := JList [JNum p.1; JNum p.2].

Definition opt_str_to_json (o : option string) : json :=
  match o with Some s => JStr s | None => JNull end.

Definition child_positions_to_json (cp : option (list (string * (Z * Z)))) : json :=
  match cp with
  | Some l => JDict ((λ kv, (kv.1, pair_to_json kv.2)) <$> l)
  | None => JNull
  end.

(** [command.to_dict()] *)
Definition to_dict (self : Command) : dict :=
  match self with
  | DescriptionChangeCommand old_value new_value =>
      [ ("type", JStr "DescriptionChange");
        ("old_value", JStr old_value); ("new_value", JStr new_value) ]
  | TodoAddCommand todo_text todo_index =>
      [ ("type", JStr "TodoAdd");
        ("todo_text", JStr todo_text); ("todo_index", JNum todo_index) ]
  | TodoRemoveCommand todo_index todo_text is_done =>
      [ ("type", JStr "TodoRemove"); ("todo_index", JNum todo_index);
        ("todo_text", JStr todo_text); ("is_done", JBool is_done) ]
  | TodoEditCommand todo_index old_text new_text =>
      [ ("type", JStr "TodoEdit"); ("todo_index", JNum todo_index);
        ("old_text", JStr old_text); ("new_text", JStr new_text) ]
  | TodoToggleCommand todo_index new_state =>
      [ ("type", JStr "TodoToggle");
        ("todo_index", JNum todo_index); ("new_state", JBool new_state) ]
  | TodoMoveCommand from_index to_index =>
      [ ("type", JStr "TodoMove");
        ("from_index", JNum from_index); ("to_index", JNum to_index) ]
  | TagAddCommand tag_name tag_index =>
      [ ("type", JStr "TagAdd");
        ("tag_name", JStr tag_name); ("tag_index", JNum tag_index) ]
  | TagRemoveCommand tag_name tag_color tag_index =>
      [ ("type", JStr "TagRemove"); ("tag_name", JStr tag_name);
        ("tag_color", opt_str_to_json tag_color); ("tag_index", JNum tag_index) ]
  | TagRenameCommand old_name new_name =>
      [ ("type", JStr "TagRename");
        ("old_name", JStr old_name); ("new_name", JStr new_name) ]
  | TagColorChangeCommand tag_name old_color new_color =>
      [ ("type", JStr "TagColorChange"); ("tag_name", JStr tag_name);
        ("old_color", opt_str_to_json old_color);
        ("new_color", opt_str_to_json new_color) ]
  | TagMoveCommand from_index to_index =>
      [ ("type", JStr "TagMove");
        ("from_index", JNum from_index); ("to_index", JNum to_index) ]
  | NodePositionCommand node_id old_x old_y new_x new_y =>
      [ ("type", JStr "NodePosition"); ("node_id", JStr node_id);
        ("old_x", JNum old_x); ("old_y", JNum old_y);
        ("new_x", JNum new_x); ("new_y", JNum new_y) ]
  | AddNodeCommand node_data_dict =>
      [ ("type", JStr "AddNode"); ("node_data_dict", JDict node_data_dict) ]
  | RemoveNodeCommand node_data_dict connected_edges =>
      [ ("type", JStr "RemoveNode"); ("node_data_dict", JDict node_data_dict);
        ("connected_edges", JList (JDict <$> connected_edges)) ]
  | AddEdgeCommand edge_data_dict =>
      [ ("type", JStr "AddEdge"); ("edge_data_dict", JDict edge_data_dict) ]
  | RemoveEdgeCommand edge_data_dict =>
      [ ("type", JStr "RemoveEdge"); ("edge_data_dict", JDict edge_data_dict) ]
  | AddGroupCommand group_data_dict =>
      [ ("type", JStr "AddGroup"); ("group_data_dict", JDict group_data_dict) ]
  | RemoveGroupCommand group_data_dict =>
      [ ("type", JStr "RemoveGroup"); ("group_data_dict", JDict group_data_dict) ]
  | GroupMoveCommand group_id old_pos new_pos child_positions _ =>
      [ ("type", JStr "GroupMove"); ("group_id", JStr group_id);
        ("old_pos", pair_to_json old_pos); ("new_pos", pair_to_json new_pos);
        ("child_positions", child_positions_to_json child_positions) ]
  | NodeGroupChangeCommand node_id old_group_id new_group_id =>
      [ ("type", JStr "NodeGroupChange"); ("node_id", JStr node_id);
        ("old_group_id", opt_str_to_json old_group_id);
        ("new_group_id", opt_str_to_json new_group_id) ]
  | GlobalEdgeColorChangeCommand opc orc npc nrc =>
      [ ("type", JStr "GlobalEdgeColorChange");
        ("old_pipeline_color", JStr opc); ("old_reference_color", JStr orc);
        ("new_pipeline_color", JStr npc); ("new_reference_color", JStr nrc) ]
  | ModulePaletteColorChangeCommand module_type old_color new_color =>
      [ ("type", JStr "ModulePaletteColorChange");
        ("module_type", JStr module_type);
        ("old_color", JStr old_color); ("new_color", JStr new_color) ]
  end.

(** Typed readers for [data[k]], which raises [KeyError] on a missing
    key. *)
Definition req_str (data : dict) (k : string) : option string :=
  j ← item data k; as_str j.
Definition req_num (data : dict) (k : string) : option Z :=
  j ← item data k; as_num j.
Definition req_bool (data : dict) (k : string) : option bool :=
  j ← item data k; match j with JBool b => Some b | _ => None end.
Definition req_dict (data : dict) (k : string) : option dict :=
  j ← item data k; as_dict j.

Definition as_opt_str (j : json) : option (option string) :=
  match j with
  | JNull => Some None
  | JStr s => Some (Some s)
  | _ => None
  end.

(** [tuple(j)] for a pair of numbers *)
Definition as_pair (j : json) : option (Z * Z) :=
  match j with
  | JList [JNum a; JNum b] => Some (a, b)
  | _ => None
  end.

(** [cls.from_dict(data, context)], class by class; [None] where it
    raises. *)
Definition DescriptionChangeCommand_from_dict (data : dict) (ctx : Context)
  : option Command :=
  a ← req_str data "old_value"; b ← req_str data "new_value";
  Some (DescriptionChangeCommand a b).

Definition TodoAddCommand_from_dict (data : dict) (ctx : Context) : option Command :=
  a ← req_str data "todo_text"; b ← req_num data "todo_index";
  Some (TodoAddCommand a b).

Definition TodoRemoveCommand_from_dict (data : dict) (ctx : Context) : option Command :=
  a ← req_num data "todo_index"; b ← req_str data "todo_text";
  c ← req_bool data "is_done";
  Some (TodoRemoveCommand a b c).

Definition TodoEditCommand_from_dict (data : dict) (ctx : Context) : option Command :=
  a ← req_num data "todo_index"; b ← req_str data "old_text";
  c ← req_str data "new_text";
  Some (TodoEditCommand a b c).

Definition TodoToggleCommand_from_dict (data : dict) (ctx : Context) : option Command :=
  a ← req_num data "todo_index"; b ← req_bool data "new_state";
  Some (TodoToggleCommand a b).

Definition TodoMoveCommand_from_dict (data : dict) (ctx : Context) : option Command :=
  a ← req_num data "from_index"; b ← req_num data "to_index";
  Some (TodoMoveCommand a b).

Definition TagAddCommand_from_dict (data : dict) (ctx : Context) : option Command :=
  a ← req_str data "tag_name"; b ← get_num data "tag_index" (-1);
  Some (TagAddCommand a b).

Definition TagRemoveCommand_from_dict (data : dict) (ctx : Context) : option Command :=
  a ← req_str data "tag_name";
  b ← item data "tag_color" ≫= as_opt_str;
  c ← req_num data "tag_index";
  Some (TagRemoveCommand a b c).

Definition TagRenameCommand_from_dict (data : dict) (ctx : Context) : option Command :=
  a ← req_str data "old_name"; b ← req_str data "new_name";
  Some (TagRenameCommand a b).

Definition TagColorChangeCommand_from_dict (data : dict) (ctx : Context)
  : option Command :=
  a ← req_str data "tag_name";
  b ← item data "old_color" ≫= as_opt_str;
  c ← item data "new_color" ≫= as_opt_str;
  Some (TagColorChangeCommand a b c).

Definition TagMoveCommand_from_dict (data : dict) (ctx : Context) : option Command :=
  a ← req_num data "from_index"; b ← req_num data "to_index";
  Some (TagMoveCommand a b).

Definition NodePositionCommand_from_dict (data : dict) (ctx : Context)
  : option Command :=
  i ← req_str data "node_id";
  a ← req_num data "old_x"; b ← req_num data "old_y";
  c ← req_num data "new_x"; d ← req_num data "new_y";
  Some (NodePositionCommand i a b c d).

Definition AddNodeCommand_from_dict (data : dict) (ctx : Context) : option Command :=
  a ← req_dict data "node_data_dict"; Some (AddNodeCommand a).

Definition RemoveNodeCommand_from_dict (data : dict) (ctx : Context) : option Command :=
  a ← req_dict data "node_data_dict";
  l ← item data "connected_edges";
  es ← match l with JList es => mapM as_dict es | _ => None end;
  Some (RemoveNodeCommand a es).

Definition AddEdgeCommand_from_dict (data : dict) (ctx : Context) : option Command :=
  a ← req_dict data "edge_data_dict"; Some (AddEdgeCommand a).

Definition RemoveEdgeCommand_from_dict (data : dict) (ctx : Context) : option Command :=
  a ← req_dict data "edge_data_dict"; Some (RemoveEdgeCommand a).

Definition AddGroupCommand_from_dict (data : dict) (ctx : Context) : option Command :=
  a ← req_dict data "group_data_dict"; Some (AddGroupCommand a).

Definition RemoveGroupCommand_from_dict (data : dict) (ctx : Context)
  : option Command :=
  a ← req_dict data "group_data_dict"; Some (RemoveGroupCommand a).

Definition child_positions_of_json (j : json)
  : option (option (list (string * (Z * Z)))) :=
  match j with
  | JNull => Some None
  | JDict d => Some <$> mapM (λ kv, p ← as_pair kv.2; Some (kv.1, p)) d
  | _ => None
  end.

Definition GroupMoveCommand_from_dict (data : dict) (ctx : Context) : option Command :=
  g ← req_str data "group_id";
  a ← item data "old_pos" ≫= as_pair;
  b ← item data "new_pos" ≫= as_pair;
  cp ← child_positions_of_json (default (JDict []) (dict_get "child_positions" data));
  match new_GroupMoveCommand ctx g a b cp with
  | GroupMoveCommand g a b cp _ => Some (GroupMoveCommand g a b cp false)
  | cmd => Some cmd
  end.

Definition NodeGroupChangeCommand_from_dict (data : dict) (ctx : Context)
  : option Command :=
  i ← req_str data "node_id";
  a ← as_opt_str (default JNull (dict_get "old_group_id" data));
  b ← as_opt_str (default JNull (dict_get "new_group_id" data));
  Some (NodeGroupChangeCommand i a b).

Definition GlobalEdgeColorChangeCommand_from_dict (data : dict) (ctx : Context)
  : option Command :=
  a ← req_str data "old_pipeline_color"; b ← req_str data "old_reference_color";
  c ← req_str data "new_pipeline_color"; d ← req_str data "new_reference_color";
  Some (GlobalEdgeColorChangeCommand a b c d).

Definition ModulePaletteColorChangeCommand_from_dict (data : dict) (ctx : Context)
  : option Command :=
  a ← req_str data "module_type";
  b ← req_str data "old_color"; c ← req_str data "new_color";
  Some (ModulePaletteColorChangeCommand a b c).

(** The registry [command_classes]. *)
Definition command_classes : list (string * (dict → Context → option Command)) :=
  [ ("DescriptionChange", DescriptionChangeCommand_from_dict);
    ("TodoAdd", TodoAddCommand_from_dict);
    ("TodoRemove", TodoRemoveCommand_from_dict);
    ("TodoEdit", TodoEditCommand_from_dict);
    ("TodoToggle", TodoToggleCommand_from_dict);
    ("TodoMove", TodoMoveCommand_from_dict);
    ("TagAdd", TagAddCommand_from_dict);
    ("TagRemove", TagRemoveCommand_from_dict);
    ("TagRename", TagRenameCommand_from_dict);
    ("TagColorChange", TagColorChangeCommand_from_dict);
    ("TagMove", TagMoveCommand_from_dict);
    ("NodePosition", NodePositionCommand_from_dict);
    ("AddNode", AddNodeCommand_from_dict);
    ("RemoveNode", RemoveNodeCommand_from_dict);
    ("AddEdge", AddEdgeCommand_from_dict);
    ("RemoveEdge", RemoveEdgeCommand_from_dict);
    ("AddGroup", AddGroupCommand_from_dict);
    ("RemoveGroup", RemoveGroupCommand_from_dict);
    ("GroupMove", GroupMoveCommand_from_dict);
    ("NodeGroupChange", NodeGroupChangeCommand_from_dict);
    ("GlobalEdgeColorChange", GlobalEdgeColorChangeCommand_from_dict);
    ("ModulePaletteColorChange", ModulePaletteColorChangeCommand_from_dict) ].

Fixpoint registry_get {V} (k : string) (d : list (string * V)) : option V :=
  match d with
  | [] => None
  | (k', v) :: d' => if String.eqb k k' then Some v else registry_get k d'
  end.

(** What [_deserialize_command] does with one entry: it returns a command,
    returns [None], or lets an exception escape. *)
Inductive deserialized :=
  | Loaded (c : Command)
  | Absent
  | Escaped.

(** [UndoManager._deserialize_command] *)
Definition _deserialize_command (ctx : Context) (data : json) : deserialized :=
  match data with
  | JDict d =>
      match dict_get "type" d with
      | Some (JList _) | Some (JDict _) => Escaped
      | Some (JStr cmd_type) =>
          match registry_get cmd_type command_classes with
          | Some cls =>
              match cls d ctx with
              | Some c => Loaded c
              | None => Absent
              end
          | None => Absent
          end
      | _ => Absent
      end
  | _ => Escaped
  end.

(** ** undo.py: the manager *)

Record UndoManager := {
  _undo_stack : list Command;
  _redo_stack : list Command;
  _is_undoing : bool }.

Definition MAX_HISTORY : nat := 100.
Definition HISTORY_FILENAME : string := "undo_history.json".

(** [UndoManager(context)] *)
Definition new_UndoManager : UndoManager :=
  {| _undo_stack := []; _redo_stack := []; _is_undoing := false |}.

(** A call to a method of the manager returns a value or lets an exception
    escape; either way it leaves a manager and a world. *)
Inductive outcome (A : Type) :=
  | Returned (a : A) (m : UndoManager) (w : World)
  | Thrown (m : UndoManager) (w : World).
Arguments Returned {A} a m w.
Arguments Thrown {A} m w.

Definition manager_of {A} (o : outcome A) : UndoManager :=
  match o with Returned _ m _ => m | Thrown m _ => m end.

Definition world_of {A} (o : outcome A) : World :=
  match o with Returned _ _ w => w | Thrown _ w => w end.

(** [project_path / HISTORY_FILENAME] *)
Definition history_path (project_path : string) : string :=
  project_path +:+ "/" +:+ HISTORY_FILENAME.

(** [save_to_file]; a failure to write is caught there and is not
    modelled. *)
Definition save_to_file (m : UndoManager) (project_path : string) (w : World) : World :=
  let data :=
    JDict [ ("undo_stack", JList ((λ cmd, JDict (to_dict cmd)) <$> _undo_stack m));
            ("redo_stack", JList ((λ cmd, JDict (to_dict cmd)) <$> _redo_stack m)) ] in
  {| context := context w; uuid_count := uuid_count w;
     history_files := <[history_path project_path := data]> (history_files w) |}.

(** [_save_history_if_possible]; an open manager without a path cannot
    be, since [is_project_open] tests the path. *)
Definition _save_history_if_possible (m : UndoManager) (w : World) : World :=
  match project_manager (context w) with
  | Some pm =>
      match ProjectManager.current_project_path pm with
      | Some project_path => save_to_file m project_path w
      | None => w
      end
  | None => w
  end.

(** [clear] *)
Definition clear (m : UndoManager) : UndoManager :=
  {| _undo_stack := []; _redo_stack := []; _is_undoing := _is_undoing m |}.

Definition can_undo (m : UndoManager) : bool := bool_decide (_undo_stack m ≠ []).
Definition can_redo (m : UndoManager) : bool := bool_decide (_redo_stack m ≠ []).

(** [l.pop(0)] after the length test of [UndoManager.execute] *)
Definition limit_history (stack : list Command) : list Command :=
  if bool_decide (MAX_HISTORY < length stack)%nat then drop 1 stack else stack.

(** The values a [for] loop draws from a JSON value: the elements of a
    list, the keys of a dict, the characters of a string; any other value
    is not iterable. *)
Fixpoint chars (s : string) : list json :=
  match s with
  | EmptyString => []
  | String a s' => JStr (String a EmptyString) :: chars s'
  end.

Definition iterate (j : json) : option (list json) :=
  match j with
  | JList l => Some l
  | JDict d => Some ((λ kv, JStr kv.1) <$> d)
  | JStr s => Some (chars s)
  | _ => None
  end.

(** One of the two loops of [load_from_file]: [None] when an exception
    escapes from [_deserialize_command]. *)
Fixpoint load_stack (ctx : Context) (entries : list json) : option (list Command) :=
  match entries with
  | [] => Some []
  | cmd_data :: entries' =>
      match _deserialize_command ctx cmd_data with
      | Escaped => None
      | Loaded cmd => (cmd ::.) <$> load_stack ctx entries'
      | Absent => load_stack ctx entries'
      end
  end.

(** The body of the [try] of [load_from_file]: [None] when it raises. *)
Definition load_stacks (ctx : Context) (data : json)
  : option (list Command * list Command) :=
  d ← as_dict data;
  us ← iterate (default (JList []) (dict_get "undo_stack" d));
  undo_stack ← load_stack ctx us;
  rs ← iterate (default (JList []) (dict_get "redo_stack" d));
  redo_stack ← load_stack ctx rs;
  Some (undo_stack, redo_stack).

(** [load_from_file] *)
Definition load_from_file (m : UndoManager) (project_path : string) (w : World)
  : UndoManager :=
  match history_files w !! history_path project_path with
  | None => clear m
  | Some data =>
      match load_stacks (context w) data with
      | Some (undo_stack, redo_stack) =>
          {| _undo_stack := undo_stack; _redo_stack := redo_stack;
             _is_undoing := _is_undoing m |}
      | None => clear m
      end
  end.

Definition set_is_undoing (b : bool) (m : UndoManager) : UndoManager :=
  {| _undo_stack := _undo_stack m; _redo_stack := _redo_stack m; _is_undoing := b |}.

(** The manager of [undo] at the moment [command.undo()] is called: the
    guard is set and the command is popped. *)
Definition undo_entered (m : UndoManager) : UndoManager :=
  {| _undo_stack := removelast (_undo_stack m); _redo_stack := _redo_stack m;
     _is_undoing := true |}.

(** The manager of [redo] at the moment [command.execute()] is called. *)
Definition redo_entered (m : UndoManager) : UndoManager :=
  {| _undo_stack := _undo_stack m; _redo_stack := removelast (_redo_stack m);
     _is_undoing := true |}.

Section Manager.
Context `{UuidSource}.

(** [UndoManager.execute] *)
Definition manager_execute (m : UndoManager) (command : Command) (w : World)
  : outcome unit :=
  if _is_undoing m then Returned () m w
  else
    match execute command w with
    | Raise w' => Thrown m w'
    | Ok command w' =>
        let m' :=
          {| _undo_stack := limit_history (_undo_stack m ++ [command]);
             _redo_stack := [];
             _is_undoing := _is_undoing m |} in
        Returned () m' (_save_history_if_possible m' w')
    end.

(** [UndoManager.undo] *)
Definition manager_undo (m : UndoManager) (w : World) : outcome bool :=
  match last (_undo_stack m) with
  | None => Returned false m w
  | Some command =>
      let m1 := undo_entered m in
      match undo command w with
      | Raise w' => Thrown (set_is_undoing false m1) w'
      | Ok command w' =>
          let m2 :=
            {| _undo_stack := _undo_stack m1;
               _redo_stack := _redo_stack m1 ++ [command];
               _is_undoing := false |} in
          Returned true m2 (_save_history_if_possible m2 w')
      end
  end.

(** [UndoManager.redo] *)
Definition manager_redo (m : UndoManager) (w : World) : outcome bool :=
  match last (_redo_stack m) with
  | None => Returned false m w
  | Some command =>
      let m1 := redo_entered m in
      match execute command w with
      | Raise w' => Thrown (set_is_undoing false m1) w'
      | Ok command w' =>
          let m2 :=
            {| _undo_stack := _undo_stack m1 ++ [command];
               _redo_stack := _redo_stack m1;
               _is_undoing := false |} in
          Returned true m2 (_save_history_if_possible m2 w')
      end
  end.
End Manager.

(** *** Sequences of calls to the manager *)

Inductive Operation :=
  | Execute (command : Command)
  | Undo
  | Redo
  | Clear
  | SaveToFile (project_path : string)
  | LoadFromFile (project_path : string).

Section Operations.
Context `{UuidSource}.

(** One call from the outside; an exception that escapes is caught by the
    caller and leaves the manager and the world as they were when it was
    raised. *)
Definition step (s : UndoManager * World) (o : Operation) : UndoManager * World :=
  let '(m, w) := s in
  match o with
  | Execute command =>
      let r := manager_execute m command w in (manager_of r, world_of r)
  | Undo => let r := manager_undo m w in (manager_of r, world_of r)
  | Redo => let r := manager_redo m w in (manager_of r, world_of r)
  | Clear => (clear m, w)
  | SaveToFile project_path => (m, save_to_file m project_path w)
  | LoadFromFile project_path => (load_from_file m project_path w, w)
  end.

Definition run (s : UndoManager * World) (ops : list Operation)
  : UndoManager * World :=
  foldl step s ops.

(** The commands of [commands] as their [execute] leaves them, when they
    are executed one after the other and none raises. *)
Fixpoint executed (s : UndoManager * World) (commands : list Command)
  : option (list Command) :=
  match commands with
  | [] => Some []
  | c :: commands' =>
      match execute c s.2 with
      | Ok c' _ => (c' ::.) <$> executed (step s (Execute c)) commands'
      | Raise _ => None
      end
  end.
End Operations.

(** The values that a loop of [load_from_file] draws from the history file
    [data] for the stack stored under [key], whatever they are; none when
    the file is not a dict or the value is not iterable. *)
Definition stack_entries (key : string) (data : json) : list json :=
  default [] (d ← as_dict data; iterate (default (JList []) (dict_get key d))).

(** The number of entries of a history file, the two stacks taken
    together. *)
Definition entry_count (data : json) : nat :=
  (length (stack_entries "undo_stack" data)
   + length (stack_entries "redo_stack" data))%nat.

(** The history files that the calls of [load_from_file] among [ops] read
    hold at most [MAX_HISTORY] entries each. *)
Definition loads_within_cap (ops : list Operation) (w : World) : Prop :=
  ∀ project_path data,
    LoadFromFile project_path ∈ ops →
    history_files w !! history_path project_path = Some data →
    (entry_count data ≤ MAX_HISTORY)%nat.

(** ** Sample data *)

(** A source of identifiers for the examples. *)
Definition sample_uuid : UuidSource := λ n, "uuid-" +:+ pretty n.

Definition empty_scene : Scene :=
  {| _nodes := ∅; _waypoints := ∅; _groups := ∅; _edges := ∅;
     scene_pipeline_color := "#607D8B"; scene_reference_color := "#4CAF50";
     _is_undo_operation := false |}.

Definition empty_dock : ProjectDock :=
  {| dock_description := ""; dock_todos := []; _tags := [];
     dock_pipeline_color := "#607D8B"; dock_reference_color := "#4CAF50" |}.

(** A window with a dock and a scene, and no project open. *)
Definition sample_context (d : ProjectDock) (sc : Scene) : Context :=
  {| project_dock := Some d; scene := Some sc;
     project_manager := None; module_palette := None |}.

Definition sample_world (d : ProjectDock) (sc : Scene) : World :=
  {| context := sample_context d sc; uuid_count := 0; history_files := ∅ |}.

(** 150 moves of one node. *)
Definition sample_moves : list Command :=
  (λ i, NodePositionCommand "n" 0 0 (Z.of_nat i) 0) <$> seq 0 150.

(** ** Notions used in the statements about group moves *)

(** The loop of [_move_to] over the snapshot, for the offset [(dx, dy)]. *)
Definition move_children (dx dy : Z) (children : list (string * (Z * Z))) (sc : Scene)
  : Scene :=
  foldl (λ sc '(node_id, (old_x, old_y)),
           update_node node_id (node_set_position (old_x + dx) (old_y + dy)) sc)
    sc children.

(** The last position recorded for a node in a snapshot. *)
Fixpoint last_binding (children : list (string * (Z * Z))) (node_id : string)
  : option (Z * Z) :=
  match children with
  | [] => None
  | (k, p) :: children' =>
      match last_binding children' node_id with
      | Some q => Some q
      | None => if String.eqb k node_id then Some p else None
      end
  end.

(** Where a replay with offset [(dx, dy)] puts an item. *)
Definition place (dx dy : Z) (children : list (string * (Z * Z))) (node_id : string)
    (n : NodeItem) : NodeItem :=
  match last_binding children node_id with
  | Some (old_x, old_y) => node_set_position (old_x + dx) (old_y + dy) n
  | None => n
  end.

(** The scene of a world, and the scene a command sees after [k] rounds of
    undo and redo. *)
Definition scene_of (w : World) : option Scene := scene (context w).

(** A node item whose data agrees with what is shown. *)
Definition node_in_sync (n : NodeItem) : Prop :=
  NodeData.position (node_data n) = item_pos n.

(** A group item shown at [p] whose data agrees with what is shown. *)
Definition group_at (p : Z * Z) (g : GroupItem) : Prop :=
  group_pos g = Position.mk p.1 p.2
  ∧ GroupData.position (group_data g) = Position.mk p.1 p.2.

(** The worlds seen after each call when a command is executed and undone
    [k] times in a row: after the first [execute], after the first [undo],
    after the second [execute], and so on.  The list stops at a call that
    raises. *)
Fixpoint cycles `{UuidSource} (k : nat) (c : Command) (w : World) : list World :=
  match k with
  | O => []
  | S k' =>
      match execute c w with
      | Ok c1 w1 =>
          w1 :: match undo c1 w1 with
                | Ok c2 w2 => w2 :: cycles k' c2 w2
                | Raise _ => []
                end
      | Raise _ => []
      end
  end.

(** The world in which the scene, when there is one, has been moved to
    [target] by the replay of a group move. *)
Definition moved_to (group_id : string) (old_pos : Z * Z)
    (cp : option (list (string * (Z * Z)))) (target : Z * Z) (w : World) : World :=
  on_scene_world (move_scene_to group_id old_pos cp target) w.

(** ** Group moves over binary64

    The coordinates of the scene are Python floats.  This module models
    [GroupMoveCommand] with the coordinates as binary64 numbers and the
    arithmetic of Python, for the statements that rounding decides.  Of a
    node item it keeps what a group move reads and writes, the position
    shown ([pos()]) and the position of the data; of a group item also the
    [node_ids] of its data.  The context is the scene, when it has one. *)
Module Binary64.
Import PrimFloat.
#[local] Set Warnings "-inexact-float".
#[local] Open Scope float_scope.

Record NodeItem := {
  node_pos : float * float;
  node_position : float * float }.

Record GroupItem := {
  group_pos : float * float;
  group_position : float * float;
  node_ids : list string }.

Record Scene := {
  _nodes : gmap string NodeItem;
  _waypoints : gmap string NodeItem;
  _groups : gmap string GroupItem }.

(** [scene._nodes.get(node_id) or scene._waypoints.get(node_id)] *)
Definition find_node (sc : Scene) (node_id : string) : option NodeItem :=
  match _nodes sc !! node_id with
  | Some n => Some n
  | None => _waypoints sc !! node_id
  end.

(** [node.setPos(x, y); node.node_data.position.x = x;
    node.node_data.position.y = y] on the item that [find_node] gives. *)
Definition set_node_position (node_id : string) (p : float * float) (sc : Scene)
  : Scene :=
  let n := {| node_pos := p; node_position := p |} in
  match _nodes sc !! node_id with
  | Some _ =>
      {| _nodes := <[node_id := n]> (_nodes sc); _waypoints := _waypoints sc;
         _groups := _groups sc |}
  | None =>
      match _waypoints sc !! node_id with
      | Some _ =>
          {| _nodes := _nodes sc; _waypoints := <[node_id := n]> (_waypoints sc);
             _groups := _groups sc |}
      | None => sc
      end
  end.

(** [GroupMoveCommand.__post_init__]: the snapshot of the children. *)
Definition snapshot_children (sc : Scene) (group_id : string)
    (old_pos new_pos : float * float) : list (string * (float * float)) :=
  match _groups sc !! group_id with
  | Some group =>
      let dx := new_pos.1 - old_pos.1 in
      let dy := new_pos.2 - old_pos.2 in
      foldl (λ child_positions node_id,
               match find_node sc node_id with
               | Some node =>
                   adict_set node_id ((node_pos node).1 - dx, (node_pos node).2 - dy)
                     child_positions
               | None => child_positions
               end)
        [] (node_ids group)
  | None => []
  end.

Record GroupMoveCommand := {
  group_id : string;
  old_pos : float * float;
  new_pos : float * float;
  child_positions : option (list (string * (float * float)));
  _first_execute : bool }.

(** The constructor, with [__post_init__]. *)
Definition new_GroupMoveCommand (scene : option Scene) (group_id : string)
    (old_pos new_pos : float * float)
    (child_positions : option (list (string * (float * float))))
  : GroupMoveCommand :=
  {| group_id := group_id; old_pos := old_pos; new_pos := new_pos;
     child_positions :=
       match child_positions, scene with
       | None, Some sc => Some (snapshot_children sc group_id old_pos new_pos)
       | _, _ => child_positions
       end;
     _first_execute := true |}.

(** [GroupMoveCommand._move_to] *)
Definition _move_to (c : GroupMoveCommand) (target_pos : float * float)
    (scene : option Scene) : option Scene :=
  sc ← scene;
  Some
    match _groups sc !! group_id c with
    | Some group =>
        let sc :=
          {| _nodes := _nodes sc; _waypoints := _waypoints sc;
             _groups :=
               <[group_id c := {| group_pos := target_pos;
                                  group_position := target_pos;
                                  node_ids := node_ids group |}]> (_groups sc) |} in
        let dx := target_pos.1 - (old_pos c).1 in
        let dy := target_pos.2 - (old_pos c).2 in
        foldl (λ sc '(node_id, (old_x, old_y)),
                 set_node_position node_id (old_x + dx, old_y + dy) sc)
          sc (default [] (child_positions c))
    | None => sc
    end.

(** [GroupMoveCommand.execute] and [GroupMoveCommand.undo]: the command and
    the scene they leave. *)
Definition execute (c : GroupMoveCommand) (scene : option Scene)
  : GroupMoveCommand * option Scene :=
  if _first_execute c
  then ({| group_id := group_id c; old_pos := old_pos c; new_pos := new_pos c;
           child_positions := child_positions c; _first_execute := false |},
        scene)
  else (c, _move_to c (new_pos c) scene).

Definition undo (c : GroupMoveCommand) (scene : option Scene)
  : GroupMoveCommand * option Scene :=
  (c, _move_to c (old_pos c) scene).

(** The scenes seen after each call when the command is executed and undone
    [k] times in a row. *)
Fixpoint cycles (k : nat) (c : GroupMoveCommand) (scene : option Scene)
  : list (option Scene) :=
  match k with
  | O => []
  | S k' =>
      let '(c1, s1) := execute c scene in
      let '(c2, s2) := undo c1 s1 in
      s1 :: s2 :: cycles k' c2 s2
  end.

(** The last position recorded for a node in a snapshot, and where a replay
    with offset [(dx, dy)] puts an item. *)
Fixpoint last_binding (children : list (string * (float * float))) (node_id : string)
  : option (float * float) :=
  match children with
  | [] => None
  | (k, p) :: children' =>
      match last_binding children' node_id with
      | Some q => Some q
      | None => if String.eqb k node_id then Some p else None
      end
  end.

Definition place (dx dy : float) (children : list (string * (float * float)))
    (node_id : string) (n : NodeItem) : NodeItem :=
  match last_binding children node_id with
  | Some (old_x, old_y) =>
      {| node_pos := (old_x + dx, old_y + dy);
         node_position := (old_x + dx, old_y + dy) |}
  | None => n
  end.

(** The loop of [_move_to] over the snapshot, for the offset [(dx, dy)]. *)
Definition move_children (dx dy : float) (children : list (string * (float * float)))
    (sc : Scene) : Scene :=
  foldl (λ sc '(node_id, (old_x, old_y)),
           set_node_position node_id (old_x + dx, old_y + dy) sc)
    sc children.

(** Where a node is shown. *)
Definition shown (scene : option Scene) (node_id : string) : option (float * float) :=
  sc ← scene; node_pos <$> find_node sc node_id.

(** A group dragged from [(0.1, 0)] to [(-0.7, 0)] together with its node,
    which the drag has taken from [(1.8, 0)] to [(1, 0)], and the command
    built after the drag. *)
Definition sample_old_pos : float * float := (0.1, 0).
Definition sample_new_pos : float * float := (-0.7, 0).

Definition sample_scene : Scene :=
  {| _nodes := {[ "n" := {| node_pos := (1, 0); node_position := (1, 0) |} ]};
     _waypoints := ∅;
     _groups := {[ "g" := {| group_pos := sample_new_pos;
                             group_position := sample_new_pos;
                             node_ids := ["n"] |} ]} |}.

Definition sample_move : GroupMoveCommand :=
  new_GroupMoveCommand (Some sample_scene) "g" sample_old_pos sample_new_pos None.

(** Where the node of the sample is shown: before the drag, after the drag,
    after an undo, and after a redo, one unit in the last place below
    [1]. *)
Definition before_drag : float * float := (1.8, 0).
Definition after_drag : float * float := (1, 0).
Definition after_undo : float * float := (1.7999999999999998, 0).
Definition after_redo : float * float := (0.9999999999999999, 0).
End Binary64.

(** An entry of a history file is well formed for the registry when it is a
    dict whose ["type"], if any, is not a list or a dict. *)
Definition scalar_kind (entry : json) : bool :=
  match entry with
  | JDict d =>
      match dict_get "type" d with
      | Some (JList _) | Some (JDict _) => false
      | _ => true
      end
  | _ => false
  end.

(** The command of an entry, when [_deserialize_command] returns one. *)
Definition loaded (ctx : Context) (entry : json) : option Command :=
  match _deserialize_command ctx entry with
  | Loaded c => Some c
  | _ => None
  end.

(** A history file with the given undo stack and an empty redo stack, in
    the project directory ["p"] of a sample world. *)
Definition sample_history (entries : list json) : World :=
  {| context := sample_context empty_dock empty_scene;
     uuid_count := 0;
     history_files :=
       {[ history_path "p" :=
            JDict [("undo_stack", JList entries); ("redo_stack", JList [])] ]} |}.

(** A history file of 150 entries, and one of two. *)
Definition sample_entry : json := JDict (to_dict (TodoAddCommand "a" 0)).

Definition long_history : World := sample_history (replicate 150 sample_entry).

Definition short_history : World := sample_history [sample_entry; sample_entry].

(** A history file of 100 undo entries and 100 redo entries. *)
Definition full_history : World :=
  {| context := sample_context empty_dock empty_scene;
     uuid_count := 0;
     history_files :=
       {[ history_path "p" :=
            JDict [("undo_stack", JList (replicate 100 sample_entry));
                   ("redo_stack", JList (replicate 100 sample_entry))] ]} |}.

(** ** The states a command was recorded against

    A command stores the values it found before the edit.  [recorded_in c w]
    says that the world [w] agrees with the values that [c] stores: it is the
    world in which a command like [c] is created, before (or, for a group
    move, without) its first [execute]. *)

Definition dock_is (w : World) (P : ProjectDock → Prop) : Prop :=
  ∀ d, project_dock (context w) = Some d → P d.

Definition scene_is (w : World) (P : Scene → Prop) : Prop :=
  ∀ sc, scene (context w) = Some sc → P sc.

Definition project_is (w : World) (P : option ProjectData.t → Prop) : Prop :=
  ∀ pm, project_manager (context w) = Some pm →
        ProjectManager.is_project_open pm = true →
        P (ProjectManager.project_data pm).

Definition palette_is (w : World) (P : ModulePalette → Prop) : Prop :=
  ∀ mp, module_palette (context w) = Some mp → P mp.

(** The first tag of a name. *)
Fixpoint first_named (name : string) (l : list (string * option string))
  : option (string * option string) :=
  match l with
  | [] => None
  | tg :: l' => if String.eqb tg.1 name then Some tg else first_named name l'
  end.

(** The node [i] is known to no edge and to no group of the scene. *)
Definition unreferenced (i : string) (sc : Scene) : Prop :=
  (∀ k e, _edges sc !! k = Some e → touches i e = false)
  ∧ (∀ k g, _groups sc !! k = Some g → i ∉ GroupData.node_ids (group_data g)).

(** The scene holds the item of [nd], in the map where [restore_node] puts
    it. *)
Definition holds_node (nd : NodeData.t) (sc : Scene) : Prop :=
  if String.eqb (NodeData.type nd) "waypoint"
  then _nodes sc !! NodeData.id nd = None
       ∧ _waypoints sc !! NodeData.id nd = Some (new_node_item nd)
  else _nodes sc !! NodeData.id nd = Some (new_node_item nd).

(** The edges of the scene that touch [i] are the edges of [eds], each
    under its own id. *)
Definition edges_of_node (i : string) (eds : list EdgeData.t) (sc : Scene) : Prop :=
  (∀ e, e ∈ eds → _edges sc !! EdgeData.id e = Some e)
  ∧ (∀ k e, _edges sc !! k = Some e → touches i e = true →
            e ∈ eds ∧ k = EdgeData.id e).

Definition recorded_in (c : Command) (w : World) : Prop :=
  match c with
  | DescriptionChangeCommand old_value _ =>
      dock_is w (λ d, dock_description d = old_value)
  | TodoAddCommand _ todo_index =>
      dock_is w (λ d, todo_index = Z.of_nat (length (dock_todos d)))
  | TodoRemoveCommand todo_index todo_text is_done =>
      dock_is w (λ d, dock_todos d !! Z.to_nat todo_index = Some (todo_text, is_done))
  | TodoEditCommand todo_index old_text _ =>
      dock_is w (λ d, fst <$> dock_todos d !! Z.to_nat todo_index = Some old_text)
  | TodoToggleCommand todo_index new_state =>
      dock_is w (λ d, snd <$> dock_todos d !! Z.to_nat todo_index = Some (negb new_state))
  | TodoMoveCommand _ _ => True
  | TagAddCommand tag_name _ =>
      dock_is w (λ d, first_named tag_name (_tags d) = None)
  | TagRemoveCommand tag_name tag_color tag_index =>
      dock_is w (λ d,
        (0 ≤ tag_index)%Z
        ∧ _tags d !! Z.to_nat tag_index = Some (tag_name, tag_color)
        ∧ first_named tag_name (take (Z.to_nat tag_index) (_tags d)) = None)
  | TagRenameCommand old_name new_name =>
      dock_is w (λ d, old_name = new_name ∨ first_named new_name (_tags d) = None)
  | TagColorChangeCommand tag_name old_color _ =>
      dock_is w (λ d, ∀ tg, first_named tag_name (_tags d) = Some tg → tg.2 = old_color)
  | TagMoveCommand _ _ => True
  | NodePositionCommand node_id old_x old_y _ _ =>
      scene_is w (λ sc, ∀ n, find_node sc node_id = Some n →
                             item_pos n = Position.mk old_x old_y ∧ node_in_sync n)
  | AddNodeCommand node_data_dict =>
      ∃ nd, node_data_dict = NodeData.to_dict nd
            ∧ scene_is w (λ sc,
                _nodes sc !! NodeData.id nd = None
                ∧ _waypoints sc !! NodeData.id nd = None
                ∧ unreferenced (NodeData.id nd) sc
                ∧ _is_undo_operation sc = false)
  | RemoveNodeCommand node_data_dict connected_edges =>
      ∃ nd eds,
        node_data_dict = NodeData.to_dict nd
        ∧ connected_edges = EdgeData.to_dict <$> eds
        ∧ scene_is w (λ sc,
            holds_node nd sc
            ∧ edges_of_node (NodeData.id nd) eds sc
            ∧ (∀ k g, _groups sc !! k = Some g →
                      NodeData.id nd ∉ GroupData.node_ids (group_data g))
            ∧ _is_undo_operation sc = false)
  | AddEdgeCommand edge_data_dict =>
      ∃ ed, edge_data_dict = EdgeData.to_dict ed
            ∧ scene_is w (λ sc, _edges sc !! EdgeData.id ed = None
                                ∧ _is_undo_operation sc = false)
  | RemoveEdgeCommand edge_data_dict =>
      ∃ ed, edge_data_dict = EdgeData.to_dict ed
            ∧ scene_is w (λ sc, _edges sc !! EdgeData.id ed = Some ed
                                ∧ _is_undo_operation sc = false)
  | AddGroupCommand group_data_dict =>
      ∃ gd, group_data_dict = GroupData.to_dict gd
            ∧ scene_is w (λ sc, _groups sc !! GroupData.id gd = None)
  | RemoveGroupCommand group_data_dict =>
      ∃ gd, group_data_dict = GroupData.to_dict gd
            ∧ scene_is w (λ sc, _groups sc !! GroupData.id gd = Some (new_group_item gd))
  | GroupMoveCommand group_id old_pos _ child_positions _first_execute =>
      _first_execute = false
      ∧ scene_is w (λ sc, ∀ g,
          _groups sc !! group_id = Some g →
          group_at old_pos g
          ∧ ∀ i p n, last_binding (default [] child_positions) i = Some p →
                     find_node sc i = Some n →
                     item_pos n = Position.mk p.1 p.2 ∧ node_in_sync n)
  | NodeGroupChangeCommand node_id old_group_id new_group_id =>
      scene_is w (λ sc,
        (∀ o, old_group_id = Some o → truthy old_group_id = true →
              new_group_id ≠ Some o
              ∧ ∃ g l, _groups sc !! o = Some g
                       ∧ GroupData.node_ids (group_data g) = (l ++ [node_id])
                       ∧ (node_id ∉ l)
                       ∧ ∀ n, find_node sc node_id = Some n →
                              group_color n = Some (GroupData.color (group_data g)))
        ∧ (truthy old_group_id = false →
           ∀ n, find_node sc node_id = Some n → group_color n = None)
        ∧ (∀ t g, new_group_id = Some t → truthy new_group_id = true →
                  _groups sc !! t = Some g →
                  node_id ∉ GroupData.node_ids (group_data g)))
  | GlobalEdgeColorChangeCommand old_pipeline_color old_reference_color _ _ =>
      project_is w (λ pd, ∃ d, pd = Some d
                               ∧ ProjectData.pipeline_edge_color d = old_pipeline_color
                               ∧ ProjectData.reference_edge_color d = old_reference_color)
      ∧ dock_is w (λ d, dock_pipeline_color d = old_pipeline_color
                        ∧ dock_reference_color d = old_reference_color)
      ∧ scene_is w (λ sc, scene_pipeline_color sc = old_pipeline_color
                          ∧ scene_reference_color sc = old_reference_color)
      ∧ palette_is w (λ mp, waypoint_item_color mp = old_pipeline_color)
  | ModulePaletteColorChangeCommand module_type old_color _ =>
      project_is w (λ pd, ∃ d, pd = Some d
                               ∧ registry_get module_type (ProjectData.module_colors d)
                                 = Some old_color)
      ∧ palette_is w (λ mp, palette_colors mp !! module_type = Some old_color)
      ∧ scene_is w (λ sc,
          (module_type = "group" →
           ∀ k g, _groups sc !! k = Some g → GroupData.color (group_data g) = old_color)
          ∧ (∀ k n, _nodes sc !! k = Some n →
                    is_pipeline_module_item n = true →
                    item_module_type n = module_type →
                    item_color n = Some old_color))
  end.

(** ** Notions used in the statements about scene commands *)

(** The world [w] with the scene [sc] and the identifier counter [n]. *)
Definition restored (w : World) (sc : Scene) (n : nat) : World :=
  {| context := with_scene (context w) sc; uuid_count := n;
     history_files := history_files w |}.

(** The scene after [remove_node_or_waypoint] for the node [i]. *)
Definition removal (i : string) (sc : Scene) : Scene :=
  with_is_undo_operation
    (let sc := with_is_undo_operation sc true in
     if bool_decide (is_Some (_nodes sc !! i)) then _remove_node_internal i sc
     else if bool_decide (is_Some (_waypoints sc !! i))
          then _remove_waypoint_internal i sc
          else sc)
    false.

(** What [_apply_grouping] does to the group a node leaves: the first
    occurrence of the node is removed from its [node_ids]. *)
Definition detach (node_id : string) (g : GroupItem) : GroupItem :=
  if contains node_id (GroupData.node_ids (group_data g))
  then group_set_node_ids (remove_first node_id (GroupData.node_ids (group_data g))) g
  else g.

(** What [_apply_grouping] does to the group a node joins: the node is
    appended to its [node_ids] unless it is there already. *)
Definition attach (node_id : string) (g : GroupItem) : GroupItem :=
  if contains node_id (GroupData.node_ids (group_data g))
  then g
  else group_set_node_ids (GroupData.node_ids (group_data g) ++ [node_id]) g.

(** [alter] at an optional key. *)
Definition alter_at {V} (f : V → V) (k : option string) (m : gmap string V)
  : gmap string V :=
  match k with Some k => alter f k m | None => m end.

(** The key of a group id that Python takes as true. *)
Definition effective (o : option string) : option string :=
  if truthy o then o else None.

(** The group colour [_apply_grouping] gives the node: the colour of the
    group it joins, or none when it joins no group. *)
Definition paint (node_id : string) (to_key : option string)
    (gs : gmap string GroupItem) (sc : Scene) : Scene :=
  match to_key with
  | Some g =>
      match gs !! g with
      | Some new_group =>
          update_node node_id
            (node_set_group_color (Some (GroupData.color (group_data new_group)))) sc
      | None => sc
      end
  | None => update_node node_id (node_set_group_color None) sc
  end.


(** ** Notions used in the statements about the history

    The world a call leaves, whether it returns or raises. *)
Definition result_world {A} (r : result A) : World :=
  match r with Ok _ w => w | Raise w => w end.

(** An action that does not touch the history files. *)
Definition keeps_files {A} (m : Act A) : Prop :=
  ∀ w, history_files (result_world (m w)) = history_files w.

(** What holds of the manager and of the world between two calls, when the
    calls [ops] are still to come. *)
Definition history_ok (ops : list Operation) (s : UndoManager * World) : Prop :=
  _is_undoing s.1 = false
  ∧ (length (_undo_stack s.1) + length (_redo_stack s.1) ≤ MAX_HISTORY)%nat
  ∧ loads_within_cap ops s.2.

(** ** More sample data *)

(** A dock with the given todo list, next to an empty scene. *)
Definition todo_world (todos : list (string * bool)) : World :=
  sample_world (with_todos empty_dock todos) empty_scene.

(** A dock with the given tags, next to an empty scene. *)
Definition tag_world (tags : list (string * option string)) : World :=
  sample_world (with_tags empty_dock tags) empty_scene.

(** A module at [(5, 5)] and a group at [(10, 20)] that contains it. *)
Definition sample_node : NodeData.t :=
  NodeData.mk "n" "pipeline_module" (Position.mk 5 5) [] NodeMetadata.default [].

Definition sample_group : GroupData.t :=
  GroupData.mk "g" "Group" (Position.mk 10 20) 300 200 "#9E9E9E" ["n"].

Definition sample_group_scene : Scene :=
  restore_group sample_group (restore_node sample_node empty_scene).

Definition sample_group_world : World :=
  sample_world empty_dock sample_group_scene.

(** An open project with one tag, nodes [A] and [B], an edge between them
    and an edge to a node that is not there. *)
Definition sample_project : ProjectData.t :=
  ProjectData.mk [JDict [("name", JStr "a"); ("color", JNull)]]
    [ NodeData.mk "A" "pipeline_module" Position.default [] NodeMetadata.default [];
      NodeData.mk "B" "pipeline_module" Position.default [] NodeMetadata.default [] ]
    [ EdgeData.mk "e1" "A" "B"; EdgeData.mk "e2" "A" "missing" ]
    false "" [] "#607D8B" "#4CAF50" [] ProjectData.default_module_colors [].

Definition sample_manager : ProjectManager.t :=
  ProjectManager.mk (Some "demo") (Some "projects/demo") (Some sample_project).

(** A second group, with no node in it, and an edge that is not in the
    scene. *)
Definition empty_group : GroupData.t :=
  GroupData.mk "h" "Empty" (Position.mk 0 0) 300 200 "#3F51B5" [].

Definition two_groups_world : World :=
  sample_world empty_dock (restore_group empty_group sample_group_scene).

Definition sample_edge : EdgeData.t := EdgeData.mk "e" "n" "m".

(** The node ids of a group of the scene of a world. *)
Definition members (w : World) (group_id : string) : option (list string) :=
  sc ← scene (context w);
  g ← _groups sc !! group_id;
  Some (GroupData.node_ids (group_data g)).

(** The sample group with a second node id after ["n"], and the node shown
    with the colour of the group. *)
Definition pair_group : GroupData.t :=
  GroupData.mk "g" "Group" (Position.mk 10 20) 300 200 "#9E9E9E" ["n"; "x"].

Definition pair_group_world : World :=
  sample_world empty_dock
    (update_node "n" (node_set_group_color (Some "#9E9E9E"))
       (restore_group pair_group (restore_node sample_node empty_scene))).

(** ** Notions used in the further properties *)

(** The command that [from_dict] builds from what [to_dict] wrote: the
    command itself; for a group move, the command with the flag of the first
    execute cleared and, when it was saved without a snapshot, with the
    snapshot that the constructor takes in the context of the load. *)
Definition reloaded (ctx : Context) (c : Command) : Command :=
  match c with
  | GroupMoveCommand group_id old_pos new_pos child_positions _ =>
      GroupMoveCommand group_id old_pos new_pos
        (__post_init__ ctx group_id old_pos new_pos child_positions) false
  | _ => c
  end.

(** The manager that holds the commands of [m] as they are read back. *)
Definition reloaded_stacks (ctx : Context) (m : UndoManager) (flag : bool)
  : UndoManager :=
  {| _undo_stack := reloaded ctx <$> _undo_stack m;
     _redo_stack := reloaded ctx <$> _redo_stack m;
     _is_undoing := flag |}.

(** The scene of the world, when there is one, is not marked as being in
    an undo operation. *)
Definition flag_cleared (w : World) : Prop :=
  ∀ sc, scene (context w) = Some sc → _is_undo_operation sc = false.

(** Every item of the scene is shown where its data says. *)
Definition scene_in_sync (sc : Scene) : Prop :=
  (∀ i n, _nodes sc !! i = Some n → node_in_sync n)
  ∧ (∀ i n, _waypoints sc !! i = Some n → node_in_sync n)
  ∧ (∀ i g, _groups sc !! i = Some g → GroupData.position (group_data g) = group_pos g).

(** The project with every tag that is not a record wrapped into one, as
    [to_dict] writes it. *)
Definition tags_as_records (e : ProjectData.t) : ProjectData.t :=
  ProjectData.mk
    ((λ tg, if is_dict tg then tg else ProjectData.tag_record tg)
       <$> ProjectData.global_tags e)
    (ProjectData.nodes e) (ProjectData.edges e) (ProjectData.pipeline_initialized e)
    (ProjectData.description e) (ProjectData.todos e)
    (ProjectData.pipeline_edge_color e) (ProjectData.reference_edge_color e)
    (ProjectData.dock_layout e) (ProjectData.module_colors e) (ProjectData.groups e).

(** The node refers to the markdown file [path]. *)
Definition refers_to_paper (path : string) (node : NodeData.t) : Prop :=
  NodeData.type node = "reference_paper"
  ∧ NodeMetadata.relative_path_to_md (NodeData.metadata node) = path
  ∧ path ≠ "".

(** A snippet of the node refers to the image [path]. *)
Definition refers_to_image (path : string) (node : NodeData.t) : Prop :=
  ∃ snippet, snippet ∈ NodeData.snippets node
             ∧ Snippet.type snippet = "image"
             ∧ Snippet.content snippet = path
             ∧ path ≠ "".

(** The entries that [cleanup_orphaned_assets] unlinks in a directory. *)
Definition orphaned (prefix : string) (refs : gset string) (f : AssetFile) : bool :=
  is_file f && negb (bool_decide (prefix +:+ file_name f ∈ refs)) && deletable f.

(** Two records that hold the same value, or both none, under each of the
    [keys]. *)
Definition same_on (keys : list string) (d d' : dict) : Prop :=
  ∀ k, k ∈ keys → dict_get k d = dict_get k d'.

(** [d] without the key [k]. *)
Definition dict_remove (k : string) (d : dict) : dict :=
  List.filter (λ kv, negb (String.eqb kv.1 k)) d.

(** The keys that the [from_dict] of the class of a command reads with
    [data[key]]. *)
Definition required_keys (c : Command) : list string :=
  match c with
  | DescriptionChangeCommand _ _ => ["old_value"; "new_value"]
  | TodoAddCommand _ _ => ["todo_text"; "todo_index"]
  | TodoRemoveCommand _ _ _ => ["todo_index"; "todo_text"; "is_done"]
  | TodoEditCommand _ _ _ => ["todo_index"; "old_text"; "new_text"]
  | TodoToggleCommand _ _ => ["todo_index"; "new_state"]
  | TodoMoveCommand _ _ => ["from_index"; "to_index"]
  | TagAddCommand _ _ => ["tag_name"]
  | TagRemoveCommand _ _ _ => ["tag_name"; "tag_color"; "tag_index"]
  | TagRenameCommand _ _ => ["old_name"; "new_name"]
  | TagColorChangeCommand _ _ _ => ["tag_name"; "old_color"; "new_color"]
  | TagMoveCommand _ _ => ["from_index"; "to_index"]
  | NodePositionCommand _ _ _ _ _ => ["node_id"; "old_x"; "old_y"; "new_x"; "new_y"]
  | AddNodeCommand _ => ["node_data_dict"]
  | RemoveNodeCommand _ _ => ["node_data_dict"; "connected_edges"]
  | AddEdgeCommand _ | RemoveEdgeCommand _ => ["edge_data_dict"]
  | AddGroupCommand _ | RemoveGroupCommand _ => ["group_data_dict"]
  | GroupMoveCommand _ _ _ _ _ => ["group_id"; "old_pos"; "new_pos"]
  | NodeGroupChangeCommand _ _ _ => ["node_id"]
  | GlobalEdgeColorChangeCommand _ _ _ _ =>
      ["old_pipeline_color"; "old_reference_color";
       "new_pipeline_color"; "new_reference_color"]
  | ModulePaletteColorChangeCommand _ _ _ => ["module_type"; "old_color"; "new_color"]
  end.

(** ** Sample data for the further properties *)

(** A window with a dock, the sample scene, the sample project open and a
    palette. *)
Definition open_world : World :=
  {| context :=
       {| project_dock := Some empty_dock; scene := Some sample_group_scene;
          project_manager := Some sample_manager;
          module_palette :=
            Some {| palette_colors := ∅; waypoint_item_color := "#607D8B" |} |};
     uuid_count := 0; history_files := ∅ |}.

(** A context with none of the four attributes. *)
Definition headless_world : World :=
  {| context :=
       {| project_dock := None; scene := None; project_manager := None;
          module_palette := None |};
     uuid_count := 0; history_files := ∅ |}.

(** A project with a reference paper and an image snippet, and asset
    directories that hold the two files, an orphan each and a
    subdirectory. *)
Definition assets_project : ProjectData.t :=
  ProjectData.mk []
    [ NodeData.mk "P" "reference_paper" Position.default []
        (NodeMetadata.mk "Paper" "2024" "" "assets/papers/paper.md" "" "")
        [ Snippet.mk "s" "image" "assets/images/figure.png" "" ] ]
    [] false "" [] "#607D8B" "#4CAF50" [] ProjectData.default_module_colors [].

Definition assets_manager : ProjectManager.t :=
  ProjectManager.mk (Some "demo") (Some "projects/demo") (Some assets_project).

Definition assets_store : AssetStore :=
  {| papers_dir :=
       Some [ {| file_name := "paper.md"; is_file := true; deletable := true |};
              {| file_name := "old.md"; is_file := true; deletable := true |};
              {| file_name := "drafts"; is_file := false; deletable := true |} ];
     images_dir :=
       Some [ {| file_name := "figure.png"; is_file := true; deletable := true |};
              {| file_name := "unused.png"; is_file := true; deletable := true |} ] |}.

(** * Properties *)

(** ** The loading monad *)

Lemma lift_Some_bind {A B} (a : A) (f : A → Load B) n :
  (lift (Some a) ≫= f) n = f a n.
Proof. reflexivity. Qed.

Lemma mapM_as_str (l : list string) : mapM as_str (JStr <$> l) = Some l.
Proof. induction l as [|s l IH]; [done|]. cbn. rewrite IH. done. Qed.

Lemma mapM_as_num (l : list Z) : mapM as_num (JNum <$> l) = Some l.
Proof. induction l as [|s l IH]; [done|]. cbn. rewrite IH. done. Qed.

Lemma mapM_as_dict (l : list dict) : mapM as_dict (JDict <$> l) = Some l.
Proof. induction l as [|s l IH]; [done|]. cbn. rewrite IH. done. Qed.

(** A comprehension over serialised records gives the records back when
    each record does; [cost] counts the identifiers a record draws. *)
Lemma for_each_round_trip {A} (f : json → Load A) (g : A → json) (cost : A → nat) :
  (∀ a n, f (g a) n = Some (a, (n + cost a)%nat)) →
  ∀ l n, for_each f (g <$> l) n = Some (l, (n + sum_list (cost <$> l))%nat).
Proof.
  intros Hf l. induction l as [|a l IH]; intros n; cbn.
  - unfold mret, Load_ret. do 2 f_equal. lia.
  - unfold mbind, Load_bind, mret, Load_ret. rewrite Hf, IH. do 2 f_equal. lia.
Qed.

(** ** Round trips of the entities *)

#[local] Arguments Position.to_dict : simpl never.
#[local] Arguments Position.from_dict : simpl never.
#[local] Arguments NodeMetadata.to_dict : simpl never.
#[local] Arguments NodeMetadata.from_dict : simpl never.
#[local] Arguments Snippet.to_dict : simpl never.
#[local] Arguments Snippet.from_dict : simpl never.
#[local] Arguments Snippet.from_json : simpl never.
#[local] Arguments NodeData.to_dict : simpl never.
#[local] Arguments NodeData.from_dict : simpl never.
#[local] Arguments NodeData.from_json : simpl never.
#[local] Arguments EdgeData.to_dict : simpl never.
#[local] Arguments EdgeData.from_dict : simpl never.
#[local] Arguments EdgeData.from_json : simpl never.
#[local] Arguments GroupData.to_dict : simpl never.
#[local] Arguments GroupData.from_dict : simpl never.
#[local] Arguments GroupData.from_json : simpl never.
#[local] Arguments for_each : simpl never.

Ltac load_step :=
  unfold mbind, Load_bind, mret, Load_ret, lift, generate_uuid; cbn.

Section RoundTrip.
Context `{UuidSource}.

Lemma Position_round_trip e : Position.from_dict (Position.to_dict e) = Some e.
Proof. by destruct e. Qed.

Lemma NodeMetadata_round_trip e :
  NodeMetadata.from_dict (NodeMetadata.to_dict e) = Some e.
Proof. by destruct e. Qed.

Lemma Snippet_round_trip e n :
  Snippet.from_json (JDict (Snippet.to_dict e)) n = Some (e, (n + 1)%nat).
Proof.
  destruct e. unfold Snippet.from_json, Snippet.from_dict, Snippet.to_dict.
  load_step. do 2 f_equal. lia.
Qed.

Lemma EdgeData_round_trip e n :
  EdgeData.from_json (JDict (EdgeData.to_dict e)) n = Some (e, (n + 1)%nat).
Proof.
  destruct e. unfold EdgeData.from_json, EdgeData.from_dict, EdgeData.to_dict.
  load_step. do 2 f_equal. lia.
Qed.

Lemma GroupData_round_trip e n :
  GroupData.from_json (JDict (GroupData.to_dict e)) n = Some (e, (n + 1)%nat).
Proof.
  destruct e as [i nm pos w h c ns].
  unfold GroupData.from_json, GroupData.from_dict, GroupData.to_dict.
  load_step. rewrite Position_round_trip, mapM_as_str; cbn.
  do 2 f_equal. lia.
Qed.

Lemma NodeData_round_trip e n :
  NodeData.from_json (JDict (NodeData.to_dict e)) n = Some (e, (n + node_cost e)%nat).
Proof.
  destruct e as [i ty pos tg meta sn].
  unfold NodeData.from_json, NodeData.from_dict, NodeData.to_dict, node_cost.
  load_step. rewrite Position_round_trip, mapM_as_str, NodeMetadata_round_trip; cbn.
  rewrite (for_each_round_trip Snippet.from_json _ (λ _, 1%nat) Snippet_round_trip).
  do 2 f_equal. clear. induction sn; cbn in *; lia.
Qed.
End RoundTrip.

(** ** Loading partial records *)

Section Partial.
Context `{UuidSource}.
Variable keep : list string → bool.

Lemma prune_JDict p d : prune keep p (JDict d) = JDict (prune_fields keep p d).
Proof. reflexivity. Qed.

Lemma dict_get_prune p k d :
  dict_get k (prune_fields keep p d)
  = if keep (p ++ [k]) then prune keep (p ++ [k]) <$> dict_get k d else None.
Proof.
  induction d as [|[k' v] d IH]; cbn.
  - by destruct (keep _).
  - destruct (String.eqb_spec k k') as [->|Hne].
    + destruct (keep (p ++ [k'])); cbn; [|exact IH].
      by rewrite String.eqb_refl.
    + destruct (keep (p ++ [k'])); cbn; [|exact IH].
      apply String.eqb_neq in Hne. by rewrite Hne.
Qed.

Lemma get_str_prune p d k dflt s :
  dict_get k d = Some (JStr s) →
  get_str (prune_fields keep p d) k dflt = Some (keep_or keep p k s dflt).
Proof.
  intros Hk. unfold get_str, keep_or. rewrite dict_get_prune, Hk.
  by destruct (keep _).
Qed.

Lemma get_num_prune p d k dflt z :
  dict_get k d = Some (JNum z) →
  get_num (prune_fields keep p d) k dflt = Some (keep_or keep p k z dflt).
Proof.
  intros Hk. unfold get_num, keep_or. rewrite dict_get_prune, Hk.
  by destruct (keep _).
Qed.

Lemma get_bool_prune p d k dflt b :
  dict_get k d = Some (JBool b) →
  get_bool (prune_fields keep p d) k dflt = Some (keep_or keep p k b dflt).
Proof.
  intros Hk. unfold get_bool, keep_or. rewrite dict_get_prune, Hk.
  by destruct (keep _).
Qed.

Lemma get_dict_prune p d k dflt d' :
  dict_get k d = Some (JDict d') →
  get_dict (prune_fields keep p d) k dflt
  = Some (keep_or keep p k (prune_fields keep (p ++ [k]) d') dflt).
Proof.
  intros Hk. unfold get_dict, keep_or. rewrite dict_get_prune, Hk.
  by destruct (keep _).
Qed.

Lemma get_list_prune p d k dflt l :
  dict_get k d = Some (JList l) →
  get_list (prune_fields keep p d) k dflt
  = Some (keep_or keep p k (prune keep (p ++ [k]) <$> l) dflt).
Proof.
  intros Hk. unfold get_list, keep_or. rewrite dict_get_prune, Hk.
  by destruct (keep _).
Qed.

Lemma prune_strs p (l : list string) : prune keep p <$> (JStr <$> l) = JStr <$> l.
Proof. induction l; cbn; congruence. Qed.

Lemma prune_nums p (l : list Z) : prune keep p <$> (JNum <$> l) = JNum <$> l.
Proof. induction l; cbn; congruence. Qed.

Lemma Position_partial p e :
  Position.from_dict (prune_fields keep p (Position.to_dict e))
  = Some (Position_defaulted keep p e).
Proof.
  unfold Position.from_dict, Position_defaulted.
  rewrite (get_num_prune _ _ "x" _ (Position.x e)) by reflexivity.
  by rewrite (get_num_prune _ _ "y" _ (Position.y e)) by reflexivity.
Qed.

Lemma NodeMetadata_partial p e :
  NodeMetadata.from_dict (prune_fields keep p (NodeMetadata.to_dict e))
  = Some (NodeMetadata_defaulted keep p e).
Proof.
  unfold NodeMetadata.from_dict, NodeMetadata_defaulted.
  rewrite (get_str_prune _ _ "title" _ (NodeMetadata.title e)) by reflexivity.
  rewrite (get_str_prune _ _ "year" _ (NodeMetadata.year e)) by reflexivity.
  rewrite (get_str_prune _ _ "conference" _ (NodeMetadata.conference e))
    by reflexivity.
  rewrite (get_str_prune _ _ "relative_path_to_md" _
             (NodeMetadata.relative_path_to_md e)) by reflexivity.
  rewrite (get_str_prune _ _ "module_name" _ (NodeMetadata.module_name e))
    by reflexivity.
  by rewrite (get_str_prune _ _ "module_type" _ (NodeMetadata.module_type e))
    by reflexivity.
Qed.

Lemma Snippet_partial p e n :
  Snippet.from_json (prune keep p (JDict (Snippet.to_dict e))) n
  = Some (Snippet_defaulted keep p n e).
Proof.
  rewrite prune_JDict.
  unfold Snippet.from_json, Snippet.from_dict, Snippet_defaulted.
  unfold mbind at 1, Load_bind at 1, lift at 1, as_dict.
  unfold mbind at 1, Load_bind at 1, generate_uuid.
  rewrite (get_str_prune _ _ "id" _ (Snippet.id e)) by reflexivity.
  rewrite (get_str_prune _ _ "type" _ (Snippet.type e)) by reflexivity.
  rewrite (get_str_prune _ _ "content" _ (Snippet.content e)) by reflexivity.
  by rewrite (get_str_prune _ _ "source_label" _ (Snippet.source_label e))
    by reflexivity.
Qed.

Lemma EdgeData_partial p e n :
  EdgeData.from_json (prune keep p (JDict (EdgeData.to_dict e))) n
  = Some (EdgeData_defaulted keep p n e).
Proof.
  rewrite prune_JDict.
  unfold EdgeData.from_json, EdgeData.from_dict, EdgeData_defaulted.
  unfold mbind at 1, Load_bind at 1, lift at 1, as_dict.
  unfold mbind at 1, Load_bind at 1, generate_uuid.
  rewrite (get_str_prune _ _ "id" _ (EdgeData.id e)) by reflexivity.
  rewrite (get_str_prune _ _ "source_id" _ (EdgeData.source_id e)) by reflexivity.
  by rewrite (get_str_prune _ _ "target_id" _ (EdgeData.target_id e))
    by reflexivity.
Qed.

(** A comprehension over pruned records threads the identifier count. *)
Lemma for_each_partial {A} (f : json → Load A) (g : A → dict)
    (spec : nat → A → A * nat) p :
  (∀ a n, f (prune keep p (JDict (g a))) n = Some (spec n a)) →
  ∀ l n, for_each f (prune keep p <$> ((λ a, JDict (g a)) <$> l)) n
         = Some (thread spec n l).
Proof.
  intros Hf l. induction l as [|a l IH]; intros n; [done|].
  cbn [fmap list_fmap thread]. unfold for_each; fold (@for_each json A).
  unfold mbind at 1, Load_bind at 1. rewrite Hf.
  destruct (spec n a) as [b n1].
  unfold mbind at 1, Load_bind at 1. rewrite IH.
  by destruct (thread spec n1 l).
Qed.

Lemma Position_keep_or p k e :
  Position.from_dict
    (keep_or keep p k (prune_fields keep (p ++ [k]) (Position.to_dict e)) [])
  = Some (keep_or keep p k (Position_defaulted keep (p ++ [k]) e) Position.default).
Proof. unfold keep_or. destruct (keep _); [apply Position_partial | done]. Qed.

Lemma NodeMetadata_keep_or p k e :
  NodeMetadata.from_dict
    (keep_or keep p k (prune_fields keep (p ++ [k]) (NodeMetadata.to_dict e)) [])
  = Some (keep_or keep p k (NodeMetadata_defaulted keep (p ++ [k]) e)
            NodeMetadata.default).
Proof. unfold keep_or. destruct (keep _); [apply NodeMetadata_partial | done]. Qed.

Lemma strs_keep_or p k (l : list string) :
  mapM as_str (keep_or keep p k (prune keep (p ++ [k]) <$> (JStr <$> l)) [])
  = Some (keep_or keep p k l []).
Proof.
  unfold keep_or. destruct (keep _); [|done].
  by rewrite prune_strs, mapM_as_str.
Qed.

Lemma nums_keep_or p k (l : list Z) :
  mapM as_num (keep_or keep p k (prune keep (p ++ [k]) <$> (JNum <$> l)) [])
  = Some (keep_or keep p k l []).
Proof.
  unfold keep_or. destruct (keep _); [|done].
  by rewrite prune_nums, mapM_as_num.
Qed.

Lemma for_each_keep_or {A} (f : json → Load A) (g : A → dict)
    (spec : nat → A → A * nat) p k l n :
  (∀ a n, f (prune keep (p ++ [k]) (JDict (g a))) n = Some (spec n a)) →
  for_each f (keep_or keep p k (prune keep (p ++ [k]) <$> ((λ a, JDict (g a)) <$> l)) []) n
  = Some (keep_or keep p k (thread spec n l) ([], n)).
Proof.
  intros Hf. unfold keep_or. destruct (keep _); [|done].
  by apply for_each_partial.
Qed.

Lemma GroupData_partial p e n :
  GroupData.from_json (prune keep p (JDict (GroupData.to_dict e))) n
  = Some (GroupData_defaulted keep p n e).
Proof.
  rewrite prune_JDict.
  unfold GroupData.from_json, GroupData.from_dict, GroupData_defaulted.
  unfold mbind at 1, Load_bind at 1, lift at 1, as_dict.
  unfold mbind at 1, Load_bind at 1, generate_uuid.
  rewrite (get_str_prune _ _ "id" _ (GroupData.id e)) by reflexivity.
  rewrite (get_str_prune _ _ "name" _ (GroupData.name e)) by reflexivity.
  rewrite (get_dict_prune _ _ "position" _ (Position.to_dict (GroupData.position e)))
    by reflexivity.
  rewrite (get_num_prune _ _ "width" _ (GroupData.width e)) by reflexivity.
  rewrite (get_num_prune _ _ "height" _ (GroupData.height e)) by reflexivity.
  rewrite (get_str_prune _ _ "color" _ (GroupData.color e)) by reflexivity.
  rewrite (get_list_prune _ _ "node_ids" _ (JStr <$> GroupData.node_ids e))
    by reflexivity.
  load_step. rewrite Position_keep_or; cbn. by rewrite strs_keep_or.
Qed.

Lemma NodeData_partial p e n :
  NodeData.from_json (prune keep p (JDict (NodeData.to_dict e))) n
  = Some (NodeData_defaulted keep p n e).
Proof.
  rewrite prune_JDict.
  unfold NodeData.from_json, NodeData.from_dict, NodeData_defaulted.
  unfold mbind at 1, Load_bind at 1, lift at 1, as_dict.
  unfold mbind at 1, Load_bind at 1, generate_uuid.
  rewrite (get_str_prune _ _ "id" _ (NodeData.id e)) by reflexivity.
  rewrite (get_str_prune _ _ "type" _ (NodeData.type e)) by reflexivity.
  rewrite (get_dict_prune _ _ "position" _ (Position.to_dict (NodeData.position e)))
    by reflexivity.
  rewrite (get_list_prune _ _ "tags" _ (JStr <$> NodeData.tags e)) by reflexivity.
  rewrite (get_dict_prune _ _ "metadata" _
             (NodeMetadata.to_dict (NodeData.metadata e))) by reflexivity.
  rewrite (get_list_prune _ _ "snippets" _
             ((λ s, JDict (Snippet.to_dict s)) <$> NodeData.snippets e))
    by reflexivity.
  load_step. rewrite Position_keep_or; cbn. rewrite strs_keep_or; cbn.
  rewrite NodeMetadata_keep_or; cbn.
  rewrite (for_each_keep_or Snippet.from_json Snippet.to_dict
             (Snippet_defaulted keep (p ++ ["snippets"])))
    by apply Snippet_partial.
  by destruct (keep_or _ _ _ _ _).
Qed.

Lemma dicts_keep_or p k (l : list dict) :
  mapM as_dict (keep_or keep p k (prune keep (p ++ [k]) <$> (JDict <$> l)) [])
  = Some (keep_or keep p k (prune_fields keep (p ++ [k]) <$> l) []).
Proof.
  unfold keep_or. destruct (keep _); [|done].
  induction l as [|d l IH]; [done|]. cbn in *. by rewrite IH.
Qed.

Lemma colors_prune q (m : list (string * string)) :
  ProjectData.colors_of_dict (prune_fields keep q (ProjectData.colors_to_dict m))
  = Some (List.filter (λ kv, keep (q ++ [kv.1])) m).
Proof.
  unfold ProjectData.colors_of_dict, ProjectData.colors_to_dict.
  induction m as [|[k v] m IH]; [done|]. cbn in *.
  destruct (keep (q ++ [k])); [|exact IH]. cbn. by rewrite IH.
Qed.

Lemma colors_round_trip (m : list (string * string)) :
  ProjectData.colors_of_dict (ProjectData.colors_to_dict m) = Some m.
Proof.
  unfold ProjectData.colors_of_dict, ProjectData.colors_to_dict.
  induction m as [|[k v] m IH]; [done|]. cbn in *. by rewrite IH.
Qed.

Lemma colors_keep_or p k (m : list (string * string)) :
  ProjectData.colors_of_dict
    (keep_or keep p k (prune_fields keep (p ++ [k]) (ProjectData.colors_to_dict m))
       (ProjectData.colors_to_dict ProjectData.default_module_colors))
  = Some (keep_or keep p k (List.filter (λ kv, keep ((p ++ [k]) ++ [kv.1])) m)
            ProjectData.default_module_colors).
Proof. unfold keep_or. destruct (keep _); [apply colors_prune | done]. Qed.

Lemma to_dict_tags_valid (l : list json) :
  Forall (λ tg, is_dict tg = true) l →
  (λ tg, if is_dict tg then tg else ProjectData.tag_record tg) <$> l = l.
Proof.
  induction 1 as [|tg l Htg _ IH]; [done|]. cbn. by rewrite Htg, IH.
Qed.

Lemma migrate_tags_dicts (l : list json) :
  Forall (λ tg, is_dict tg = true) l → ProjectData.migrate_tags l = l.
Proof.
  unfold ProjectData.migrate_tags.
  induction 1 as [|tg l Htg _ IH]; [done|]. cbn. rewrite IH.
  by destruct tg.
Qed.

Lemma prune_keeps_dicts p (l : list json) :
  Forall (λ tg, is_dict tg = true) l →
  Forall (λ tg, is_dict tg = true) (prune keep p <$> l).
Proof.
  induction 1 as [|tg l Htg _ IH]; constructor; [|done]. by destruct tg.
Qed.

Lemma tags_keep_or p k (l : list json) :
  Forall (λ tg, is_dict tg = true) l →
  ProjectData.migrate_tags (keep_or keep p k (prune keep (p ++ [k]) <$> l) [])
  = keep_or keep p k (prune keep (p ++ [k]) <$> l) [].
Proof.
  intros Hl. unfold keep_or. destruct (keep _); [|done].
  by apply migrate_tags_dicts, prune_keeps_dicts.
Qed.

Lemma ProjectData_partial p e n :
  Forall (λ tg, is_dict tg = true) (ProjectData.global_tags e) →
  ProjectData.from_dict (prune_fields keep p (ProjectData.to_dict e)) n
  = Some (ProjectData_defaulted keep p n e).
Proof.
  intros Htags.
  unfold ProjectData.from_dict, ProjectData_defaulted, ProjectData.to_dict.
  rewrite (to_dict_tags_valid _ Htags).
  rewrite (get_list_prune _ _ "global_tags" _ (ProjectData.global_tags e))
    by reflexivity.
  rewrite (get_list_prune _ _ "nodes" _
             ((λ a, JDict (NodeData.to_dict a)) <$> ProjectData.nodes e))
    by reflexivity.
  rewrite (get_list_prune _ _ "edges" _
             ((λ a, JDict (EdgeData.to_dict a)) <$> ProjectData.edges e))
    by reflexivity.
  rewrite (get_list_prune _ _ "groups" _
             ((λ a, JDict (GroupData.to_dict a)) <$> ProjectData.groups e))
    by reflexivity.
  rewrite (get_bool_prune _ _ "pipeline_initialized" _
             (ProjectData.pipeline_initialized e)) by reflexivity.
  rewrite (get_str_prune _ _ "description" _ (ProjectData.description e))
    by reflexivity.
  rewrite (get_list_prune _ _ "todos" _ (JDict <$> ProjectData.todos e))
    by reflexivity.
  rewrite (get_str_prune _ _ "pipeline_edge_color" _
             (ProjectData.pipeline_edge_color e)) by reflexivity.
  rewrite (get_str_prune _ _ "reference_edge_color" _
             (ProjectData.reference_edge_color e)) by reflexivity.
  rewrite (get_list_prune _ _ "dock_layout" _ (JNum <$> ProjectData.dock_layout e))
    by reflexivity.
  rewrite (get_dict_prune _ _ "module_colors" _
             (ProjectData.colors_to_dict (ProjectData.module_colors e)))
    by reflexivity.
  load_step.
  rewrite (for_each_keep_or NodeData.from_json NodeData.to_dict
             (NodeData_defaulted keep (p ++ ["nodes"])))
    by apply NodeData_partial.
  destruct (keep_or keep p "nodes" _ _) as [ns n1]; cbn.
  rewrite (for_each_keep_or EdgeData.from_json EdgeData.to_dict
             (EdgeData_defaulted keep (p ++ ["edges"])))
    by apply EdgeData_partial.
  destruct (keep_or keep p "edges" _ _) as [es n2]; cbn.
  rewrite (for_each_keep_or GroupData.from_json GroupData.to_dict
             (GroupData_defaulted keep (p ++ ["groups"])))
    by apply GroupData_partial.
  destruct (keep_or keep p "groups" _ _) as [gs n3]; cbn.
  rewrite dicts_keep_or; cbn. rewrite nums_keep_or; cbn.
  rewrite colors_keep_or; cbn. by rewrite (tags_keep_or _ _ _ Htags).
Qed.

Lemma ProjectData_round_trip e n :
  Forall (λ tg, is_dict tg = true) (ProjectData.global_tags e) →
  ProjectData.from_dict (ProjectData.to_dict e) n
  = Some (e, (n + sum_list (node_cost <$> ProjectData.nodes e)
                + length (ProjectData.edges e)
                + length (ProjectData.groups e))%nat).
Proof.
  intros Htags. destruct e as [tg ns es pin ds td pc rc dk mc gs]; cbn in *.
  unfold ProjectData.from_dict, ProjectData.to_dict; cbn.
  rewrite (to_dict_tags_valid _ Htags).
  load_step.
  rewrite (for_each_round_trip NodeData.from_json _ node_cost NodeData_round_trip).
  rewrite (for_each_round_trip EdgeData.from_json _ (λ _, 1%nat) EdgeData_round_trip).
  rewrite (for_each_round_trip GroupData.from_json _ (λ _, 1%nat) GroupData_round_trip).
  rewrite mapM_as_dict; cbn. rewrite mapM_as_num; cbn.
  rewrite colors_round_trip; cbn.
  rewrite (migrate_tags_dicts _ Htags).
  do 2 f_equal.
  assert (Hone : ∀ {A} (l : list A), sum_list ((λ _, 1%nat) <$> l) = length l)
    by (intros A l; induction l; cbn; lia).
  rewrite !Hone. lia.
Qed.
End Partial.

(** C7. For each of the seven entity types, deserialising the serialisation
    of a valid entity gives the entity back (a valid project is one whose
    global tags are records), and loading a record from which fields were
    deleted at any depth never fails: it gives, field by field, the field
    when its key is present and the documented default otherwise. *)
Theorem entity_round_trip_and_partial_load `{UuidSource} :
  ( (∀ e, Position.from_dict (Position.to_dict e) = Some e)
    ∧ (∀ e n, fst <$> Snippet.from_dict (Snippet.to_dict e) n = Some e)
    ∧ (∀ e, NodeMetadata.from_dict (NodeMetadata.to_dict e) = Some e)
    ∧ (∀ e n, fst <$> NodeData.from_dict (NodeData.to_dict e) n = Some e)
    ∧ (∀ e n, fst <$> EdgeData.from_dict (EdgeData.to_dict e) n = Some e)
    ∧ (∀ e n, fst <$> GroupData.from_dict (GroupData.to_dict e) n = Some e)
    ∧ (∀ e n, Forall (λ tg, is_dict tg = true) (ProjectData.global_tags e) →
              fst <$> ProjectData.from_dict (ProjectData.to_dict e) n = Some e) )
  ∧
  ( ∀ keep p,
      (∀ e, Position.from_dict (prune_fields keep p (Position.to_dict e))
            = Some (Position_defaulted keep p e))
    ∧ (∀ e n, Snippet.from_dict (prune_fields keep p (Snippet.to_dict e)) n
              = Some (Snippet_defaulted keep p n e))
    ∧ (∀ e, NodeMetadata.from_dict (prune_fields keep p (NodeMetadata.to_dict e))
            = Some (NodeMetadata_defaulted keep p e))
    ∧ (∀ e n, NodeData.from_dict (prune_fields keep p (NodeData.to_dict e)) n
              = Some (NodeData_defaulted keep p n e))
    ∧ (∀ e n, EdgeData.from_dict (prune_fields keep p (EdgeData.to_dict e)) n
              = Some (EdgeData_defaulted keep p n e))
    ∧ (∀ e n, GroupData.from_dict (prune_fields keep p (GroupData.to_dict e)) n
              = Some (GroupData_defaulted keep p n e))
    ∧ (∀ e n, Forall (λ tg, is_dict tg = true) (ProjectData.global_tags e) →
              ProjectData.from_dict (prune_fields keep p (ProjectData.to_dict e)) n
              = Some (ProjectData_defaulted keep p n e)) ).
Proof.
  split.
  - repeat split.
    + apply Position_round_trip.
    + intros e n. by rewrite (Snippet_round_trip e n : Snippet.from_dict _ _ = _).
    + apply NodeMetadata_round_trip.
    + intros e n. by rewrite (NodeData_round_trip e n : NodeData.from_dict _ _ = _).
    + intros e n. by rewrite (EdgeData_round_trip e n : EdgeData.from_dict _ _ = _).
    + intros e n. by rewrite (GroupData_round_trip e n : GroupData.from_dict _ _ = _).
    + intros e n Htags. by rewrite (ProjectData_round_trip e n Htags).
  - intros keep p. repeat split.
    + apply Position_partial.
    + intros e n. exact (Snippet_partial keep p e n).
    + apply NodeMetadata_partial.
    + intros e n. exact (NodeData_partial keep p e n).
    + intros e n. exact (EdgeData_partial keep p e n).
    + intros e n. exact (GroupData_partial keep p e n).
    + intros e n Htags. by apply ProjectData_partial.
Qed.

(** C8. Loading a document migrates every plain string [s] of
    [global_tags] to the record [{name: s, color: null}] and keeps every
    other entry as it is, in order; a legacy document whose tags are all
    strings loads, and so does the mixed example. *)
Theorem legacy_tag_migration `{UuidSource} :
  (∀ data raw e n n',
     dict_get "global_tags" data = Some (JList raw) →
     ProjectData.from_dict data n = Some (e, n') →
     ProjectData.global_tags e
     = map (λ tg, match tg with
                  | JStr s => JDict [("name", JStr s); ("color", JNull)]
                  | _ => tg
                  end) raw)
  ∧ (∀ (l : list string) n,
       ∃ e, ProjectData.from_dict [("global_tags", JList (JStr <$> l))] n = Some (e, n)
            ∧ ProjectData.global_tags e
              = map (λ s, JDict [("name", JStr s); ("color", JNull)]) l)
  ∧ (∀ n,
       ∃ e, ProjectData.from_dict
              [("global_tags",
                 JList [JStr "a"; JDict [("name", JStr "c"); ("color", JStr "#FF5722")];
                        JStr "b"])] n = Some (e, n)
            ∧ ProjectData.global_tags e
              = [ JDict [("name", JStr "a"); ("color", JNull)];
                  JDict [("name", JStr "c"); ("color", JStr "#FF5722")];
                  JDict [("name", JStr "b"); ("color", JNull)] ]).
Proof.
  repeat split.
  - intros data raw e n n' Hraw. unfold ProjectData.from_dict.
    assert (Hg : get_list data "global_tags" [] = Some raw)
      by (unfold get_list; by rewrite Hraw).
    rewrite Hg. unfold mbind at 1, Load_bind at 1, lift at 1.
    intros Hload.
    assert (Htags : ProjectData.global_tags e = ProjectData.migrate_tags raw).
    { revert Hload. generalize (ProjectData.migrate_tags raw). intros tags.
      unfold mbind, Load_bind, mret, Load_ret, lift.
      repeat (match goal with
              | |- context [match ?x with _ => _ end] => destruct x
              end; try discriminate).
      by intros [= <- _]. }
    rewrite Htags. unfold ProjectData.migrate_tags.
    apply list_fmap_ext. intros _ [] _; reflexivity.
  - intros l n. unfold ProjectData.from_dict. load_step.
    eexists. split; [reflexivity|].
    cbn. unfold ProjectData.migrate_tags. rewrite <- list_fmap_compose.
    reflexivity.
  - intros n. unfold ProjectData.from_dict. load_step.
    eexists. split; reflexivity.
Qed.

(** ** Edge validation *)

Lemma is_node_id_set (nodes : list NodeData.t) (i : string) :
  bool_decide (i ∈ (list_to_set (NodeData.id <$> nodes) : gset string))
  = is_node_id nodes i.
Proof.
  unfold is_node_id. induction nodes as [|n nodes IH]; cbn.
  - apply bool_decide_eq_false. set_solver.
  - rewrite <- IH. destruct (String.eqb_spec (NodeData.id n) i) as [->|Hne]; cbn.
    + apply bool_decide_eq_true, elem_of_union_l, elem_of_singleton. reflexivity.
    + apply bool_decide_ext. rewrite elem_of_union, elem_of_singleton.
      split; [intros [?|?]; [congruence|done] | by right].
Qed.

Lemma validate_edges_spec (nodes : list NodeData.t) (edges : list EdgeData.t) :
  ProjectManager.validate_edges (list_to_set (NodeData.id <$> nodes)) edges
  = (List.filter (λ e, negb (dangling nodes e)) edges,
     length (List.filter (dangling nodes) edges)).
Proof.
  induction edges as [|e edges IH]; [done|].
  cbn [ProjectManager.validate_edges List.filter]. rewrite IH, !is_node_id_set.
  replace (is_node_id nodes (EdgeData.source_id e)
           && is_node_id nodes (EdgeData.target_id e))
    with (negb (dangling nodes e))
    by (unfold dangling;
        by destruct (is_node_id nodes (EdgeData.source_id e)),
                    (is_node_id nodes (EdgeData.target_id e))).
  by destruct (dangling nodes e).
Qed.

Lemma filter_dangling_none (nodes : list NodeData.t) (edges : list EdgeData.t) :
  List.filter (dangling nodes) (List.filter (λ e, negb (dangling nodes e)) edges) = [].
Proof.
  induction edges as [|e edges IH]; [done|]. cbn.
  destruct (dangling nodes e) eqn:He; cbn; [done|]. by rewrite He.
Qed.

Lemma filter_valid_idem (nodes : list NodeData.t) (edges : list EdgeData.t) :
  List.filter (λ e, negb (dangling nodes e))
    (List.filter (λ e, negb (dangling nodes e)) edges)
  = List.filter (λ e, negb (dangling nodes e)) edges.
Proof.
  induction edges as [|e edges IH]; [done|]. cbn.
  destruct (dangling nodes e) eqn:He; cbn; [done|]. by rewrite He, IH.
Qed.

(** What one run of [validate_and_clean_data] does to an open project. *)
Lemma validate_and_clean_data_run pm store pd :
  ProjectManager.is_project_open pm = true →
  ProjectManager.project_data pm = Some pd →
  ∃ stats store',
    ProjectManager.validate_and_clean_data pm store
    = Some (stats,
            ProjectManager.mk
              (ProjectManager.current_project_name pm)
              (ProjectManager.current_project_path pm)
              (Some (ProjectData.set_edges pd
                       (List.filter (λ e, negb (dangling (ProjectData.nodes pd) e))
                          (ProjectData.edges pd)))),
            store')
    ∧ stat "edges_removed" stats
      = Some (length (List.filter (dangling (ProjectData.nodes pd)) (ProjectData.edges pd))).
Proof.
  intros Hopen Hpd. unfold ProjectManager.validate_and_clean_data.
  rewrite Hopen, Hpd. cbn [negb mbind option_bind].
  rewrite validate_edges_spec.
  destruct (ProjectManager.cleanup_orphaned_assets _ store) as [[np ni] store'].
  by eexists _, _.
Qed.

(** C9. On an open project, [validate_and_clean_data] keeps, in order,
    exactly the edges whose two endpoints are ids of current nodes, leaves
    the nodes alone and reports the number of edges it removed; a second run
    removes no further edge; on nodes [{A, B}] with edges
    [[(A, B), (A, "missing")]] it removes the second edge only and reports
    one removal. *)
Theorem validate_and_clean_data_edges :
  (∀ pm store pd,
     ProjectManager.is_project_open pm = true →
     ProjectManager.project_data pm = Some pd →
     ∃ stats pm' store' pd',
       ProjectManager.validate_and_clean_data pm store = Some (stats, pm', store')
       ∧ ProjectManager.project_data pm' = Some pd'
       ∧ ProjectData.nodes pd' = ProjectData.nodes pd
       ∧ ProjectData.edges pd'
         = List.filter (λ e, negb (dangling (ProjectData.nodes pd) e))
             (ProjectData.edges pd)
       ∧ stat "edges_removed" stats
         = Some (length (List.filter (dangling (ProjectData.nodes pd))
                           (ProjectData.edges pd)))
       ∧ ∃ stats2 store2,
           ProjectManager.validate_and_clean_data pm' store' = Some (stats2, pm', store2)
           ∧ stat "edges_removed" stats2 = Some 0%nat)
  ∧ (∀ store,
       let node i := NodeData.mk i "pipeline_module" Position.default []
                       NodeMetadata.default [] in
       let ab := EdgeData.mk "e1" "A" "B" in
       let am := EdgeData.mk "e2" "A" "missing" in
       let pd edges :=
         ProjectData.mk [] [node "A"; node "B"] edges false "" []
           "#607D8B" "#4CAF50" [] ProjectData.default_module_colors [] in
       let pm edges :=
         ProjectManager.mk (Some "demo") (Some "projects/demo") (Some (pd edges)) in
       ∃ stats store',
         ProjectManager.validate_and_clean_data (pm [ab; am]) store
         = Some (stats, pm [ab], store')
         ∧ stat "edges_removed" stats = Some 1%nat).
Proof.
  split.
  - intros pm store pd Hopen Hpd.
    destruct (validate_and_clean_data_run pm store pd Hopen Hpd)
      as (stats & store' & Hrun & Hs).
    eexists stats, _, store', _. split; [exact Hrun|].
    do 4 (split; [done|]).
    match type of Hrun with
    | _ = Some (_, ?pm', _) =>
        destruct (validate_and_clean_data_run pm' store' _ Hopen eq_refl)
          as (stats2 & store2 & Hrun2 & Hs2)
    end.
    exists stats2, store2. cbn in Hrun2, Hs2.
    rewrite filter_valid_idem in Hrun2. rewrite filter_dangling_none in Hs2.
    split; [exact Hrun2 | exact Hs2].
  - intros store node ab am pd pm.
    destruct (validate_and_clean_data_run (pm [ab; am]) store (pd [ab; am]) eq_refl eq_refl)
      as (stats & store' & Hrun & Hs).
    exists stats, store'. split; [exact Hrun | exact Hs].
Qed.

(** ** Commands leave the history files alone *)

Create HintDb keeps_files.

Lemma keeps_files_ret {A} (a : A) : keeps_files (mret a).
Proof. by intros w. Qed.

Lemma keeps_files_bind {A B} (m : Act A) (f : A → Act B) :
  keeps_files m → (∀ a, keeps_files (f a)) → keeps_files (m ≫= f).
Proof.
  intros Hm Hf w. unfold mbind, Act_bind. specialize (Hm w).
  destruct (m w) as [a w'|w']; cbn in *; [|done].
  by rewrite (Hf a w').
Qed.

Lemma keeps_files_if {A} (b : bool) (m1 m2 : Act A) :
  keeps_files m1 → keeps_files m2 → keeps_files (if b then m1 else m2).
Proof. by destruct b. Qed.

Lemma keeps_files_on_dock f : keeps_files (on_dock f).
Proof.
  intros w. unfold on_dock. destruct (project_dock _); [|done].
  by destruct (f _).
Qed.

Lemma keeps_files_on_scene f : keeps_files (on_scene f).
Proof. intros w. unfold on_scene. by destruct (scene _). Qed.

Lemma keeps_files_on_palette f : keeps_files (on_palette f).
Proof. intros w. unfold on_palette. by destruct (module_palette _). Qed.

Lemma keeps_files_on_project_data f : keeps_files (on_project_data f).
Proof.
  intros w. unfold on_project_data. destruct (project_manager _) as [pm|]; [|done].
  destruct (ProjectManager.is_project_open pm); [|done].
  by destruct (ProjectManager.project_data pm).
Qed.

Lemma keeps_files_load {A} (m : Load A) : keeps_files (load m).
Proof. intros w. unfold load. by destruct (m _) as [[a n]|]. Qed.

Lemma keeps_files_has_scene : keeps_files has_scene.
Proof. by intros w. Qed.

Lemma keeps_files_of_option {A} (o : option A) : keeps_files (of_option o).
Proof. intros w. by destruct o. Qed.

Lemma keeps_files_raise {A} : keeps_files (@raise_ A).
Proof. by intros w. Qed.

Lemma keeps_files_as_key j : keeps_files (as_key j).
Proof. intros w. by destruct j. Qed.

Lemma on_scene_world_files f w :
  history_files (on_scene_world f w) = history_files w.
Proof. unfold on_scene_world. by destruct (scene _). Qed.

Lemma keeps_files_try_finally {A} (m : Act A) f :
  keeps_files m → keeps_files (try_finally m (on_scene_world f)).
Proof.
  intros Hm w. unfold try_finally. specialize (Hm w).
  destruct (m w); cbn in *; by rewrite on_scene_world_files.
Qed.

Lemma keeps_files_foldl {A B} (f : Act A → B → Act A) (l : list B) (m : Act A) :
  (∀ acc b, keeps_files acc → keeps_files (f acc b)) →
  keeps_files m → keeps_files (foldl f m l).
Proof.
  intros Hf. revert m. induction l as [|b l IH]; intros m Hm; [done|].
  cbn. apply IH, Hf, Hm.
Qed.

#[local] Hint Resolve keeps_files_ret keeps_files_on_dock keeps_files_on_scene
  keeps_files_on_palette keeps_files_on_project_data keeps_files_load
  keeps_files_has_scene keeps_files_of_option keeps_files_raise keeps_files_as_key
  : keeps_files.

Ltac keeps_files :=
  repeat first
    [ progress intros
    | apply keeps_files_bind
    | apply keeps_files_try_finally
    | apply keeps_files_if
    | apply keeps_files_foldl
    | solve [auto with keeps_files]
    | match goal with
      | |- keeps_files (match ?x with _ => _ end) => destruct x
      end ].

Section CommandFiles.
Context `{UuidSource}.

Lemma keeps_files_execute c : keeps_files (execute c).
Proof.
  destruct c; cbn [execute];
    unfold remove_node_or_waypoint, restore_node_from, restore_edge_from,
      remove_edge_of, restore_group_from, remove_group_of, _move_to,
      _apply_grouping, _apply_colors, apply_module_color;
    try solve [keeps_files].
  intros w. destruct (project_dock (context w)) as [d|]; [|done].
  by destruct (insert_tag _ _ _ d).
Qed.

Lemma keeps_files_undo c : keeps_files (undo c).
Proof.
  destruct c; cbn [undo];
    unfold remove_node_or_waypoint, restore_node_from, restore_edge_from,
      remove_edge_of, restore_group_from, remove_group_of, _move_to,
      _apply_grouping, _apply_colors, apply_module_color;
    solve [keeps_files].
Qed.
End CommandFiles.

(** ** The bounds of the history *)

Lemma load_stack_length ctx entries stack :
  load_stack ctx entries = Some stack → (length stack ≤ length entries)%nat.
Proof.
  revert stack. induction entries as [|e entries IH]; intros stack; cbn.
  - intros [= <-]. done.
  - destruct (_deserialize_command ctx e); [|by intros ?%IH; lia|done].
    destruct (load_stack ctx entries) as [st|]; [|done].
    intros [= <-]. cbn. specialize (IH st eq_refl). lia.
Qed.

(** [load_from_file] appends at most one command for each entry it draws
    from the file. *)
Lemma load_stacks_length ctx data undo_stack redo_stack :
  load_stacks ctx data = Some (undo_stack, redo_stack) →
  (length undo_stack + length redo_stack ≤ entry_count data)%nat.
Proof.
  unfold load_stacks, entry_count, stack_entries.
  destruct (as_dict data) as [d|]; cbn; [|done].
  destruct (iterate (default (JList []) (dict_get "undo_stack" d))) as [us|];
    cbn; [|done].
  destruct (load_stack ctx us) as [u|] eqn:Hu; cbn; [|done].
  destruct (iterate (default (JList []) (dict_get "redo_stack" d))) as [rs|];
    cbn; [|done].
  destruct (load_stack ctx rs) as [r|] eqn:Hr; cbn; [|done].
  intros [= <- <-]. apply load_stack_length in Hu, Hr. lia.
Qed.

(** The file that [save_to_file] writes has one entry for each command of
    the two stacks. *)
Lemma saved_file_within_cap ops m project_path w :
  (length (_undo_stack m) + length (_redo_stack m) ≤ MAX_HISTORY)%nat →
  loads_within_cap ops w → loads_within_cap ops (save_to_file m project_path w).
Proof.
  intros Hm Hw path data Hin. cbn.
  destruct (decide (history_path project_path = history_path path)) as [<-|Hne].
  - rewrite lookup_insert_eq. intros [= <-].
    unfold entry_count, stack_entries. cbn. rewrite !length_fmap. exact Hm.
  - rewrite lookup_insert_ne by done. by apply Hw.
Qed.

Lemma autosave_within_cap ops m w :
  (length (_undo_stack m) + length (_redo_stack m) ≤ MAX_HISTORY)%nat →
  loads_within_cap ops w → loads_within_cap ops (_save_history_if_possible m w).
Proof.
  intros Hm Hw. unfold _save_history_if_possible.
  destruct (project_manager _) as [pm|]; [|done].
  destruct (ProjectManager.current_project_path pm); [|done].
  by apply saved_file_within_cap.
Qed.

Lemma loads_within_cap_same ops w w' :
  history_files w' = history_files w → loads_within_cap ops w → loads_within_cap ops w'.
Proof. intros Hf Hw path data. rewrite Hf. apply Hw. Qed.

Lemma loads_within_cap_tail o ops w :
  loads_within_cap (o :: ops) w → loads_within_cap ops w.
Proof. intros Hw path data Hin. apply Hw. by right. Qed.

Lemma limit_history_length stack :
  (length stack ≤ S MAX_HISTORY)%nat → (length (limit_history stack) ≤ MAX_HISTORY)%nat.
Proof.
  intros Hl. unfold limit_history. case_bool_decide; [|lia].
  rewrite length_drop. lia.
Qed.

Lemma last_removelast {A} (l : list A) (x : A) :
  last l = Some x → l = removelast l ++ [x].
Proof.
  intros Hl. destruct (decide (l = [])) as [->|Hne]; [done|].
  rewrite (app_removelast_last x Hne) at 1. f_equal. f_equal.
  revert Hl. clear Hne. induction l as [|a [|b l] IH]; cbn in *; [done| |].
  - by intros [= ->].
  - intros Hl. by apply IH.
Qed.

Lemma last_removelast_length {A} (l : list A) (x : A) :
  last l = Some x → length l = S (length (removelast l)).
Proof.
  intros Hl. rewrite (last_removelast l x Hl) at 1. rewrite length_app. cbn. lia.
Qed.

Lemma limit_history_drop (st : list Command) c rest :
  (length st ≤ MAX_HISTORY)%nat →
  drop (length (limit_history (st ++ [c]) ++ rest) - MAX_HISTORY)
    (limit_history (st ++ [c]) ++ rest)
  = drop (length (st ++ c :: rest) - MAX_HISTORY) (st ++ c :: rest).
Proof.
  intros Hlen. unfold limit_history.
  replace (st ++ c :: rest) with ((st ++ [c]) ++ rest)
    by (rewrite <- app_assoc; reflexivity).
  case_bool_decide as Hfull; [|done].
  rewrite length_app in Hfull. cbn in Hfull.
  rewrite <- (drop_app_le (st ++ [c]) rest 1) by (rewrite length_app; cbn; lia).
  rewrite drop_drop. f_equal. rewrite length_drop, !length_app. cbn. lia.
Qed.

Section Bounds.
Context `{UuidSource}.

Lemma step_history_ok o ops s : history_ok (o :: ops) s → history_ok ops (step s o).
Proof.
  destruct s as [m w]. intros (Hflag & Hlen & Hfiles). cbn in Hflag, Hlen, Hfiles.
  pose proof (loads_within_cap_tail _ _ _ Hfiles) as Hrest.
  destruct o as [c| | | |path|path]; cbn [step].
  - unfold manager_execute. rewrite Hflag.
    pose proof (keeps_files_execute c w) as Hk.
    destruct (execute c w) as [c' w'|w']; cbn in Hk |- *.
    + assert (length (limit_history (_undo_stack m ++ [c'])) + 0 ≤ MAX_HISTORY)%nat.
      { rewrite Nat.add_0_r. apply limit_history_length.
        rewrite length_app. cbn. lia. }
      split; [done|]. split; [done|]. cbn.
      apply autosave_within_cap; [done|]. by eapply loads_within_cap_same.
    + split; [done|]. split; [done|]. by eapply loads_within_cap_same.
  - unfold manager_undo.
    destruct (last (_undo_stack m)) as [c|] eqn:Hlast; [|done].
    apply last_removelast_length in Hlast.
    pose proof (keeps_files_undo c w) as Hk.
    destruct (undo c w) as [c' w'|w']; cbn in Hk |- *.
    + assert (length (removelast (_undo_stack m))
              + length (_redo_stack m ++ [c']) ≤ MAX_HISTORY)%nat
        by (rewrite length_app; cbn; lia).
      split; [done|]. split; [done|]. cbn.
      apply autosave_within_cap; [done|]. by eapply loads_within_cap_same.
    + split; [done|]. split; [cbn; lia|]. by eapply loads_within_cap_same.
  - unfold manager_redo.
    destruct (last (_redo_stack m)) as [c|] eqn:Hlast; [|done].
    apply last_removelast_length in Hlast.
    pose proof (keeps_files_execute c w) as Hk.
    destruct (execute c w) as [c' w'|w']; cbn in Hk |- *.
    + assert (length (_undo_stack m ++ [c'])
              + length (removelast (_redo_stack m)) ≤ MAX_HISTORY)%nat
        by (rewrite length_app; cbn; lia).
      split; [done|]. split; [done|]. cbn.
      apply autosave_within_cap; [done|]. by eapply loads_within_cap_same.
    + split; [done|]. split; [cbn; lia|]. by eapply loads_within_cap_same.
  - split; [done|]. split; [cbn; lia|done].
  - split; [done|]. split; [done|]. by apply saved_file_within_cap.
  - split; [|split; [|done]]; cbn; unfold load_from_file.
    + destruct (history_files w !! _); [|done].
      by destruct (load_stacks _ _) as [[??]|].
    + destruct (history_files w !! _) as [data|] eqn:Hdata; [|cbn; lia].
      destruct (load_stacks _ _) as [[us rs]|] eqn:Hload; [|cbn; lia].
      cbn. apply load_stacks_length in Hload.
      pose proof (Hfiles path data ltac:(by left) Hdata). lia.
Qed.

Lemma run_history_ok ops s : history_ok ops s → history_ok [] (run s ops).
Proof.
  revert s. induction ops as [|o ops IH]; intros s Hs; [done|].
  cbn. apply IH. by apply step_history_ok.
Qed.

(** The undo stack after a run of successful executions. *)
Lemma run_executes commands : ∀ m w commands',
  _is_undoing m = false →
  (length (_undo_stack m) ≤ MAX_HISTORY)%nat →
  executed (m, w) commands = Some commands' →
  _undo_stack (run (m, w) (Execute <$> commands)).1
  = drop (length (_undo_stack m ++ commands') - MAX_HISTORY)
      (_undo_stack m ++ commands').
Proof.
  induction commands as [|c commands IH]; intros m w commands' Hflag Hlen.
  - intros [= <-]. cbn. rewrite app_nil_r.
    replace (length (_undo_stack m) - MAX_HISTORY)%nat with 0%nat by lia. done.
  - cbn [executed fmap list_fmap run foldl].
    destruct (execute c (m, w).2) as [c' w'|] eqn:Hexec; [|done].
    destruct (executed _ commands) as [rest|] eqn:Hrest; [|done].
    intros [= <-]. cbn [step] in *. cbn [snd] in Hexec.
    unfold manager_execute in *. rewrite Hflag, Hexec in *. cbn in *.
    match goal with
    | |- context [foldl step ?s ?l] => change (foldl step s l) with (run s l)
    end.
    erewrite IH; [|done| |exact Hrest]; cbn.
    + by apply limit_history_drop.
    + apply limit_history_length. rewrite length_app. cbn. lia.
Qed.
End Bounds.

(** ** The manager *)

Lemma executed_moves `{UuidSource} (l : list nat) s :
  let moves := (λ i, NodePositionCommand "n" 0 0 (Z.of_nat i) 0) <$> l in
  executed s moves = Some moves.
Proof.
  cbn. revert s. induction l as [|i l IH]; intros s; [done|].
  cbn [fmap list_fmap executed execute].
  unfold mbind at 1, Act_bind at 1, on_scene.
  destruct (scene (context s.2)); cbn; by rewrite IH.
Qed.



(** The entries of the two stacks of a file count together: [redo] pushes
    on the undo stack without evicting, so that a file of 100 undo entries
    and 100 redo entries leaves 200 commands on the undo stack after 100
    calls of [redo]. *)
Lemma redo_exceeds_bound :
  length (_undo_stack
            (@run sample_uuid (new_UndoManager, full_history)
               [LoadFromFile "p"]).1) = 100%nat
  ∧ length (_redo_stack
              (@run sample_uuid (new_UndoManager, full_history)
                 [LoadFromFile "p"]).1) = 100%nat
  ∧ length (_undo_stack
              (@run sample_uuid (new_UndoManager, full_history)
                 (LoadFromFile "p" :: replicate 100 Redo)).1) = 200%nat.
Proof. split; [|split]; vm_compute; reflexivity. Qed.

(** C5. While the guard is set, [UndoManager.execute] returns at once: the
    manager and the world are unchanged, the command is not run.  The guard
    is set in the manager that [undo] and [redo] have when they call the
    command, so an [execute] issued from there does nothing; it is cleared
    in the manager they leave, whether they return or the command raises;
    and no sequence of calls from outside leaves it set. *)
Theorem reentrancy_guard `{UuidSource} :
  (∀ m c w, _is_undoing m = true → manager_execute m c w = Returned () m w)
  ∧ (∀ m c w,
       manager_execute (undo_entered m) c w = Returned () (undo_entered m) w
       ∧ manager_execute (redo_entered m) c w = Returned () (redo_entered m) w)
  ∧ (∀ m w c,
       last (_undo_stack m) = Some c →
       match undo c w with
       | Ok c' w' =>
           ∃ m', manager_undo m w = Returned true m' (_save_history_if_possible m' w')
                 ∧ _is_undoing m' = false
       | Raise w' =>
           ∃ m', manager_undo m w = Thrown m' w' ∧ _is_undoing m' = false
       end)
  ∧ (∀ m w c,
       last (_redo_stack m) = Some c →
       match execute c w with
       | Ok c' w' =>
           ∃ m', manager_redo m w = Returned true m' (_save_history_if_possible m' w')
                 ∧ _is_undoing m' = false
       | Raise w' =>
           ∃ m', manager_redo m w = Thrown m' w' ∧ _is_undoing m' = false
       end)
  ∧ (∀ ops s, _is_undoing s.1 = false → _is_undoing (run s ops).1 = false).
Proof.
  split; [|split; [|split; [|split]]].
  - intros m c w Hflag. unfold manager_execute. by rewrite Hflag.
  - intros m c w. by split.
  - intros m w c Hlast. unfold manager_undo. rewrite Hlast.
    destruct (undo c w); by eexists.
  - intros m w c Hlast. unfold manager_redo. rewrite Hlast.
    destruct (execute c w); by eexists.
  - intros ops. induction ops as [|o ops IH]; intros [m w] Hflag; [done|].
    cbn [run foldl]. apply IH. cbn in Hflag.
    destruct o; cbn [step fst].
    + unfold manager_execute. rewrite Hflag. by destruct (execute _ _).
    + unfold manager_undo. destruct (last _); [|done]. by destruct (undo _ _).
    + unfold manager_redo. destruct (last _); [|done]. by destruct (execute _ _).
    + done.
    + done.
    + unfold load_from_file. destruct (_ !! _); [|done].
      by destruct (load_stacks _ _) as [[??]|].
Qed.

(** C10. When the [undo] of the command that [UndoManager.undo] popped
    raises, the exception escapes from [UndoManager.undo], the guard is
    cleared, the undo stack has lost the command and the redo stack is as it
    was; [UndoManager.redo] does the same with a command whose [execute]
    raises. *)
Theorem raising_command_is_lost `{UuidSource} :
  (∀ m w c w',
     last (_undo_stack m) = Some c →
     undo c w = Raise w' →
     ∃ m', manager_undo m w = Thrown m' w'
           ∧ _is_undoing m' = false
           ∧ _undo_stack m = _undo_stack m' ++ [c]
           ∧ _redo_stack m' = _redo_stack m)
  ∧ (∀ m w c w',
       last (_redo_stack m) = Some c →
       execute c w = Raise w' →
       ∃ m', manager_redo m w = Thrown m' w'
             ∧ _is_undoing m' = false
             ∧ _redo_stack m = _redo_stack m' ++ [c]
             ∧ _undo_stack m' = _undo_stack m).
Proof.
  split.
  - intros m w c w' Hlast Hraise. unfold manager_undo. rewrite Hlast, Hraise.
    eexists. split; [reflexivity|]. cbn. repeat split.
    by apply last_removelast.
  - intros m w c w' Hlast Hraise. unfold manager_redo. rewrite Hlast, Hraise.
    eexists. split; [reflexivity|]. cbn. repeat split.
    by apply last_removelast.
Qed.

(** ** Group moves *)

Lemma node_set_position_twice a b c d n :
  node_set_position a b (node_set_position c d n) = node_set_position a b n.
Proof. reflexivity. Qed.

Lemma group_set_position_twice a b c d g :
  group_set_position a b (group_set_position c d g) = group_set_position a b g.
Proof. reflexivity. Qed.

(** [update_node] alters the first of the two maps that has the id. *)
Lemma update_node_alter node_id f sc :
  update_node node_id f sc
  = match _nodes sc !! node_id with
    | Some _ => with_nodes sc (alter f node_id (_nodes sc))
    | None => with_waypoints sc (alter f node_id (_waypoints sc))
    end.
Proof.
  unfold update_node. destruct (_nodes sc !! node_id) as [n|] eqn:Hn.
  - f_equal. apply map_eq. intros i. rewrite lookup_alter, lookup_insert.
    case_decide; subst; by rewrite ?Hn.
  - destruct (_waypoints sc !! node_id) as [n|] eqn:Hw.
    + f_equal. apply map_eq. intros i. rewrite lookup_alter, lookup_insert.
      case_decide; subst; by rewrite ?Hw.
    + destruct sc; unfold with_waypoints; cbn in *. f_equal. apply map_eq. intros i.
      rewrite lookup_alter. case_decide; subst; by rewrite ?Hw.
Qed.

Lemma update_node_nodes node_id f sc i :
  _nodes (update_node node_id f sc) !! i
  = (if decide (node_id = i) then f else id) <$> _nodes sc !! i.
Proof.
  rewrite update_node_alter. destruct (_nodes sc !! node_id) as [n|] eqn:Hn; cbn.
  - rewrite lookup_alter. case_decide; subst; [done|]. by destruct (_nodes sc !! i).
  - case_decide; subst; [by rewrite Hn|]. by destruct (_nodes sc !! i).
Qed.

Lemma update_node_waypoints node_id f sc i :
  _waypoints (update_node node_id f sc) !! i
  = (if decide (node_id = i)
     then (match _nodes sc !! i with Some _ => id | None => f end)
     else id) <$> _waypoints sc !! i.
Proof.
  rewrite update_node_alter. destruct (_nodes sc !! node_id) as [n|] eqn:Hn; cbn.
  - case_decide; subst; [rewrite Hn|]; by destruct (_waypoints sc !! i).
  - rewrite lookup_alter. case_decide; subst; [by rewrite Hn|].
    by destruct (_waypoints sc !! i).
Qed.

Lemma update_node_rest node_id f sc :
  _groups (update_node node_id f sc) = _groups sc
  ∧ _edges (update_node node_id f sc) = _edges sc
  ∧ scene_pipeline_color (update_node node_id f sc) = scene_pipeline_color sc
  ∧ scene_reference_color (update_node node_id f sc) = scene_reference_color sc
  ∧ _is_undo_operation (update_node node_id f sc) = _is_undo_operation sc.
Proof.
  unfold update_node. destruct (_nodes sc !! node_id); [done|].
  by destruct (_waypoints sc !! node_id).
Qed.

Lemma last_binding_cons k p children i :
  last_binding ((k, p) :: children) i
  = match last_binding children i with
    | Some q => Some q
    | None => if decide (k = i) then Some p else None
    end.
Proof.
  cbn. destruct (last_binding children i); [done|].
  destruct (String.eqb_spec k i); by case_decide.
Qed.

Lemma place_cons dx dy k ox oy children i n :
  place dx dy children i
    ((if decide (k = i) then node_set_position (ox + dx) (oy + dy) else id) n)
  = place dx dy ((k, (ox, oy)) :: children) i n.
Proof.
  unfold place. rewrite last_binding_cons.
  destruct (last_binding children i) as [[qx qy]|]; case_decide; done.
Qed.

Lemma move_children_cons dx dy k ox oy children sc :
  move_children dx dy ((k, (ox, oy)) :: children) sc
  = move_children dx dy children
      (update_node k (node_set_position (ox + dx) (oy + dy)) sc).
Proof. reflexivity. Qed.

Lemma move_children_nodes dx dy children : ∀ sc i,
  _nodes (move_children dx dy children sc) !! i
  = place dx dy children i <$> _nodes sc !! i.
Proof.
  induction children as [|[k [ox oy]] children IH]; intros sc i.
  - cbn. unfold place. cbn. by destruct (_nodes sc !! i).
  - rewrite move_children_cons, IH, update_node_nodes.
    destruct (_nodes sc !! i) as [n|]; [|done]. cbn. f_equal. apply place_cons.
Qed.

Lemma move_children_waypoints dx dy children : ∀ sc i,
  _waypoints (move_children dx dy children sc) !! i
  = (match _nodes sc !! i with
     | Some _ => id
     | None => place dx dy children i
     end) <$> _waypoints sc !! i.
Proof.
  induction children as [|[k [ox oy]] children IH]; intros sc i.
  - cbn. unfold place. cbn. destruct (_nodes sc !! i); by destruct (_waypoints sc !! i).
  - rewrite move_children_cons, IH, update_node_waypoints, update_node_nodes.
    destruct (_nodes sc !! i) as [n|]; cbn.
    + destruct (_waypoints sc !! i); [|done]. cbn. by case_decide.
    + destruct (_waypoints sc !! i) as [n|]; [|done]. cbn. f_equal. apply place_cons.
Qed.

Lemma move_children_rest dx dy children : ∀ sc,
  _groups (move_children dx dy children sc) = _groups sc
  ∧ _edges (move_children dx dy children sc) = _edges sc
  ∧ scene_pipeline_color (move_children dx dy children sc) = scene_pipeline_color sc
  ∧ scene_reference_color (move_children dx dy children sc) = scene_reference_color sc
  ∧ _is_undo_operation (move_children dx dy children sc) = _is_undo_operation sc.
Proof.
  induction children as [|[k [ox oy]] children IH]; intros sc; [done|].
  rewrite move_children_cons.
  destruct (IH (update_node k (node_set_position (ox + dx) (oy + dy)) sc))
    as (-> & -> & -> & -> & ->).
  apply update_node_rest.
Qed.

(** Two scenes with the same content are equal. *)
Lemma scene_eq (a b : Scene) :
  (∀ i, _nodes a !! i = _nodes b !! i) →
  (∀ i, _waypoints a !! i = _waypoints b !! i) →
  _groups a = _groups b →
  _edges a = _edges b →
  scene_pipeline_color a = scene_pipeline_color b →
  scene_reference_color a = scene_reference_color b →
  _is_undo_operation a = _is_undo_operation b →
  a = b.
Proof.
  destruct a, b; cbn. intros Hn%map_eq Hw%map_eq. congruence.
Qed.

Lemma place_twice dx dy dx' dy' children i n :
  place dx dy children i (place dx' dy' children i n) = place dx dy children i n.
Proof. unfold place. by destruct (last_binding children i) as [[ox oy]|]. Qed.

(** [_move_to] written with [move_children]. *)
Lemma move_scene_to_unfold group_id old_pos cp target sc :
  move_scene_to group_id old_pos cp target sc
  = match _groups sc !! group_id with
    | Some group =>
        move_children (target.1 - old_pos.1) (target.2 - old_pos.2) (default [] cp)
          (with_groups sc
             (<[group_id := group_set_position target.1 target.2 group]> (_groups sc)))
    | None => sc
    end.
Proof.
  unfold move_scene_to, update_group, move_children.
  by destruct (_groups sc !! group_id).
Qed.

(** A replay overwrites what an earlier replay wrote: moving to [t2] and
    then to [t1] is moving to [t1]. *)
Lemma move_scene_to_twice group_id old_pos cp t1 t2 sc :
  move_scene_to group_id old_pos cp t1 (move_scene_to group_id old_pos cp t2 sc)
  = move_scene_to group_id old_pos cp t1 sc.
Proof.
  rewrite (move_scene_to_unfold _ _ _ t2 sc).
  destruct (_groups sc !! group_id) as [g|] eqn:Hg; [|done].
  rewrite !move_scene_to_unfold, Hg.
  match goal with
  | |- context [move_children ?dx ?dy ?cs ?sc0] =>
      destruct (move_children_rest dx dy cs sc0) as (Hgr & He & Hp & Hr & Hu)
  end.
  rewrite Hgr. cbn [_groups with_groups]. rewrite lookup_insert_eq.
  apply scene_eq; repeat first
    [ rewrite move_children_nodes | rewrite move_children_waypoints
    | match goal with
      | |- context [_groups (move_children ?dx ?dy ?cs ?sc0)] =>
          rewrite (proj1 (move_children_rest dx dy cs sc0))
      | |- context [_edges (move_children ?dx ?dy ?cs ?sc0)] =>
          rewrite (proj1 (proj2 (move_children_rest dx dy cs sc0)))
      | |- context [scene_pipeline_color (move_children ?dx ?dy ?cs ?sc0)] =>
          rewrite (proj1 (proj2 (proj2 (move_children_rest dx dy cs sc0))))
      | |- context [scene_reference_color (move_children ?dx ?dy ?cs ?sc0)] =>
          rewrite (proj1 (proj2 (proj2 (proj2 (move_children_rest dx dy cs sc0)))))
      | |- context [_is_undo_operation (move_children ?dx ?dy ?cs ?sc0)] =>
          rewrite (proj2 (proj2 (proj2 (proj2 (move_children_rest dx dy cs sc0)))))
      end
    | progress cbn [_nodes _waypoints _groups _edges scene_pipeline_color
                    scene_reference_color _is_undo_operation with_groups]
    | progress intros ].
  - destruct (_nodes sc !! i); [|done]. cbn. by rewrite place_twice.
  - destruct (_nodes sc !! i); cbn.
    + by destruct (_waypoints sc !! i).
    + destruct (_waypoints sc !! i); [|done]. cbn. by rewrite place_twice.
  - by rewrite insert_insert_eq.
  - done.
  - done.
  - done.
  - done.
Qed.

Lemma find_node_move_children dx dy children sc i :
  find_node (move_children dx dy children sc) i
  = place dx dy children i <$> find_node sc i.
Proof.
  unfold find_node. rewrite move_children_nodes, move_children_waypoints.
  by destruct (_nodes sc !! i).
Qed.

(** [d[k] = v] keeps the keys apart, and binds [k] to [v] and every other
    key as before. *)
Lemma adict_set_keys {V} k (v : V) d :
  (adict_set k v d).*1 = if bool_decide (k ∈ d.*1) then d.*1 else d.*1 ++ [k].
Proof.
  induction d as [|[k' v'] d IH]; [done|]. cbn [adict_set].
  destruct (String.eqb_spec k k') as [<-|Hne]; cbn.
  - rewrite bool_decide_eq_true_2; [done|by left].
  - rewrite IH. case_bool_decide as Hin.
    + rewrite bool_decide_eq_true_2; [done|by right].
    + rewrite bool_decide_eq_false_2; [done|].
      intros [?|?]%elem_of_cons; done.
Qed.

Lemma adict_set_NoDup {V} k (v : V) d :
  NoDup d.*1 → NoDup (adict_set k v d).*1.
Proof.
  intros Hd. rewrite adict_set_keys. case_bool_decide as Hin; [done|].
  apply NoDup_app. split; [done|]. split; [|apply NoDup_singleton].
  intros x Hx ->%list_elem_of_singleton. done.
Qed.

Lemma elem_of_adict_set {V} k (v : V) d i p :
  NoDup d.*1 →
  (i, p) ∈ adict_set k v d ↔ (i = k ∧ p = v) ∨ (i ≠ k ∧ (i, p) ∈ d).
Proof.
  induction d as [|[k' v'] d IH]; cbn [adict_set fmap list_fmap fst].
  - intros _. rewrite list_elem_of_singleton. split.
    + intros [= -> ->]. by left.
    + intros [[-> ->]|[_ ?%elem_of_nil]]; done.
  - rewrite NoDup_cons. intros [Hk' Hd].
    destruct (String.eqb_spec k k') as [<-|Hne]; rewrite !elem_of_cons.
    + split.
      * intros [[= -> ->]|Hin]; [by left|]. right. split; [|by right].
        intros ->. apply Hk'. apply list_elem_of_fmap. by exists (k, p).
      * intros [[-> ->]|[Hne [[= -> ->]|Hin]]]; [by left|done|by right].
    + rewrite (IH Hd). split.
      * intros [[= -> ->]|[[-> ->]|[Hi Hin]]].
        -- right. split; [done|by left].
        -- by left.
        -- right. split; [done|by right].
      * intros [[-> ->]|[Hi [[= -> ->]|Hin]]].
        -- right. by left.
        -- by left.
        -- right. right. by split.
Qed.

(** The loop of [__post_init__]: after the ids [seen], the snapshot holds
    one position for each of them that the scene has, the position shown
    minus the offset of the drag. *)
Lemma snapshot_fold sc dx dy (todo : list string) : ∀ acc seen,
  NoDup acc.*1 →
  (∀ i p, (i, p) ∈ acc ↔
          i ∈ seen ∧ ∃ n, find_node sc i = Some n
                          ∧ p = (Position.x (item_pos n) - dx,
                                 Position.y (item_pos n) - dy)) →
  let r := foldl (λ child_positions node_id,
                    match find_node sc node_id with
                    | Some node =>
                        adict_set node_id
                          (Position.x (item_pos node) - dx,
                           Position.y (item_pos node) - dy)
                          child_positions
                    | None => child_positions
                    end) acc todo in
  NoDup r.*1
  ∧ ∀ i p, (i, p) ∈ r ↔
           i ∈ seen ++ todo ∧ ∃ n, find_node sc i = Some n
                                   ∧ p = (Position.x (item_pos n) - dx,
                                          Position.y (item_pos n) - dy).
Proof.
  induction todo as [|k todo IH]; intros acc seen Hnd Hacc.
  - cbn. by rewrite app_nil_r.
  - cbn [foldl]. cbn zeta.
    replace (seen ++ k :: todo) with ((seen ++ [k]) ++ todo)
      by (by rewrite <- app_assoc).
    apply IH.
    + destruct (find_node sc k); [by apply adict_set_NoDup|done].
    + intros i p. rewrite elem_of_app, list_elem_of_singleton.
      destruct (find_node sc k) as [n|] eqn:Hn.
      * rewrite (elem_of_adict_set _ _ _ _ _ Hnd), Hacc. split.
        -- intros [[-> ->]|[Hi [Hs Hp]]].
           ++ split; [by right|]. by exists n.
           ++ split; [by left|done].
        -- intros [[Hs| ->] (n' & Hn' & ->)].
           ++ destruct (decide (i = k)) as [->|Hi].
              ** left. rewrite Hn in Hn'. by injection Hn' as <-.
              ** right. split; [done|]. split; [done|]. by exists n'.
           ++ left. rewrite Hn in Hn'. by injection Hn' as <-.
      * rewrite Hacc. split.
        -- intros [Hs Hp]. split; [by left|done].
        -- intros [[Hs| ->] (n' & Hn' & ->)]; [|by rewrite Hn in Hn'].
           split; [done|]. by exists n'.
Qed.

(** What the snapshot holds: one position for each node id of the group
    that the scene has, the position shown minus the offset of the drag,
    and nothing else. *)
Lemma snapshot_children_spec sc group_id old_pos new_pos :
  NoDup (snapshot_children sc group_id old_pos new_pos).*1
  ∧ ∀ i p,
      (i, p) ∈ snapshot_children sc group_id old_pos new_pos ↔
      ∃ g n, _groups sc !! group_id = Some g
             ∧ i ∈ GroupData.node_ids (group_data g)
             ∧ find_node sc i = Some n
             ∧ p = (Position.x (item_pos n) - (new_pos.1 - old_pos.1),
                    Position.y (item_pos n) - (new_pos.2 - old_pos.2)).
Proof.
  unfold snapshot_children. destruct (_groups sc !! group_id) as [g|] eqn:Hg.
  - destruct (snapshot_fold sc (new_pos.1 - old_pos.1) (new_pos.2 - old_pos.2)
                (GroupData.node_ids (group_data g)) [] [])
      as [Hnd Hiff].
    { constructor. }
    { intros i p. split; [by intros ?%elem_of_nil|by intros [?%elem_of_nil _]]. }
    split; [exact Hnd|]. intros i p. rewrite Hiff. cbn [app]. split.
    + intros [Hi (n & Hn & ->)]. by exists g, n.
    + intros (g' & n & [= <-] & Hi & Hn & ->). split; [done|]. by exists n.
  - split; [constructor|]. intros i p. split; [by intros ?%elem_of_nil|].
    by intros (g & n & ? & _).
Qed.

Lemma group_set_position_at p g :
  group_at p g → group_set_position p.1 p.2 g = g.
Proof.
  unfold group_at. destruct g as [gp [i nm pos wd ht c ids]]; cbn.
  by intros [-> ->].
Qed.

Lemma moved_to_twice group_id old_pos cp t1 t2 w :
  moved_to group_id old_pos cp t1 (moved_to group_id old_pos cp t2 w)
  = moved_to group_id old_pos cp t1 w.
Proof.
  unfold moved_to, on_scene_world. destruct (scene (context w)) as [sc|] eqn:Hsc; cbn.
  - by rewrite move_scene_to_twice.
  - by rewrite Hsc.
Qed.

Section GroupMove.
Context `{UuidSource}.

Lemma GroupMoveCommand_execute group_id old_pos new_pos cp fe w :
  execute (GroupMoveCommand group_id old_pos new_pos cp fe) w
  = Ok (GroupMoveCommand group_id old_pos new_pos cp false)
      (if fe then w else moved_to group_id old_pos cp new_pos w).
Proof.
  destruct fe; [done|]. cbn. unfold moved_to, on_scene_world, _move_to, on_scene.
  unfold mbind, Act_bind. by destruct (scene (context w)).
Qed.

Lemma GroupMoveCommand_undo group_id old_pos new_pos cp fe w :
  undo (GroupMoveCommand group_id old_pos new_pos cp fe) w
  = Ok (GroupMoveCommand group_id old_pos new_pos cp fe)
      (moved_to group_id old_pos cp old_pos w).
Proof.
  cbn. unfold moved_to, on_scene_world, _move_to, on_scene.
  unfold mbind, Act_bind. by destruct (scene (context w)).
Qed.

(** Once the group is at its old position, every further round gives the
    same two worlds. *)
Lemma cycles_steady group_id old_pos new_pos cp w k :
  cycles k (GroupMoveCommand group_id old_pos new_pos cp false)
    (moved_to group_id old_pos cp old_pos w)
  = concat (replicate k [moved_to group_id old_pos cp new_pos w;
                         moved_to group_id old_pos cp old_pos w]).
Proof.
  induction k as [|k IH]; [done|].
  cbn [cycles]. rewrite GroupMoveCommand_execute, GroupMoveCommand_undo.
  rewrite !moved_to_twice, IH. done.
Qed.

Lemma cycles_GroupMoveCommand group_id old_pos new_pos cp fe w k :
  cycles (S k) (GroupMoveCommand group_id old_pos new_pos cp fe) w
  = (if fe then w else moved_to group_id old_pos cp new_pos w)
    :: moved_to group_id old_pos cp old_pos w
    :: concat (replicate k [moved_to group_id old_pos cp new_pos w;
                            moved_to group_id old_pos cp old_pos w]).
Proof.
  cbn [cycles]. rewrite GroupMoveCommand_execute, GroupMoveCommand_undo.
  assert (Hu : moved_to group_id old_pos cp old_pos
                 (if fe then w else moved_to group_id old_pos cp new_pos w)
               = moved_to group_id old_pos cp old_pos w)
    by (destruct fe; [done | apply moved_to_twice]).
  by rewrite Hu, cycles_steady.
Qed.

End GroupMove.

Lemma last_binding_NoDup children i p :
  NoDup children.*1 → (i, p) ∈ children → last_binding children i = Some p.
Proof.
  induction children as [|[k q] children IH]; cbn [fmap list_fmap fst].
  - by intros _ ?%elem_of_nil.
  - rewrite NoDup_cons, last_binding_cons, elem_of_cons.
    intros [Hk Hnd] [[= <- <-]|Hin].
    + destruct (last_binding children i) as [q'|] eqn:Hq; [|by case_decide].
      exfalso. apply Hk. clear -Hq. induction children as [|[k' v'] children IH];
        [done|]. rewrite last_binding_cons in Hq. cbn.
      destruct (last_binding children i); [right; by eapply IH|].
      case_decide; [subst; by left|done].
    + by rewrite (IH Hnd Hin).
Qed.

Lemma mapM_child_positions (cp : list (string * (Z * Z))) :
  mapM (λ kv : string * json, p ← as_pair kv.2; Some (kv.1, p))
    ((λ kv : string * (Z * Z), (kv.1, pair_to_json kv.2)) <$> cp)
  = Some cp.
Proof.
  induction cp as [|[k [a b]] cp IH]; [done|]. cbn in *. by rewrite IH.
Qed.

(** What a replay does to the scene when the group is there. *)
Lemma move_scene_to_spec group_id old_pos cp target sc g :
  _groups sc !! group_id = Some g →
  _groups (move_scene_to group_id old_pos cp target sc) !! group_id
  = Some (group_set_position target.1 target.2 g)
  ∧ ∀ i, find_node (move_scene_to group_id old_pos cp target sc) i
         = place (target.1 - old_pos.1) (target.2 - old_pos.2) (default [] cp) i
             <$> find_node sc i.
Proof.
  intros Hg. rewrite move_scene_to_unfold, Hg. split.
  - match goal with
    | |- context [move_children ?dx ?dy ?cs ?sc0] =>
        rewrite (proj1 (move_children_rest dx dy cs sc0))
    end.
    cbn. apply lookup_insert_eq.
  - intros i. by rewrite find_node_move_children.
Qed.

Lemma last_binding_elem children i p :
  last_binding children i = Some p → (i, p) ∈ children.
Proof.
  induction children as [|[k q] children IH]; [done|].
  rewrite last_binding_cons.
  destruct (last_binding children i) as [q'|].
  - intros [= <-]. right. by apply IH.
  - case_decide; [|done]. intros [= <-]. subst. by left.
Qed.

(** ** Group moves over binary64 *)

Section Binary64Facts.
Import PrimFloat Binary64.
#[local] Open Scope float_scope.

Lemma binary64_set_node_position_nodes node_id p sc i :
  _nodes (set_node_position node_id p sc) !! i
  = (if decide (node_id = i)
     then (λ _, {| node_pos := p; node_position := p |}) else id)
    <$> _nodes sc !! i.
Proof.
  unfold set_node_position. destruct (_nodes sc !! node_id) as [n|] eqn:Hn; cbn.
  - rewrite lookup_insert. case_decide; subst; [by rewrite Hn|].
    by destruct (_nodes sc !! i).
  - case_decide; subst.
    + rewrite Hn. by destruct (_waypoints sc !! i).
    + destruct (_waypoints sc !! node_id); cbn; by destruct (_nodes sc !! i).
Qed.

Lemma binary64_set_node_position_waypoints node_id p sc i :
  _waypoints (set_node_position node_id p sc) !! i
  = (if decide (node_id = i)
     then (match _nodes sc !! i with
           | Some _ => id
           | None => λ _, {| node_pos := p; node_position := p |}
           end)
     else id) <$> _waypoints sc !! i.
Proof.
  unfold set_node_position. destruct (_nodes sc !! node_id) as [n|] eqn:Hn; cbn.
  - case_decide; subst; [rewrite Hn|]; by destruct (_waypoints sc !! i).
  - destruct (_waypoints sc !! node_id) as [n|] eqn:Hw; cbn.
    + rewrite lookup_insert. case_decide; subst; [by rewrite Hn, Hw|].
      by destruct (_waypoints sc !! i).
    + case_decide; subst; [by rewrite Hn, Hw|]. by destruct (_waypoints sc !! i).
Qed.

Lemma binary64_set_node_position_groups node_id p sc :
  _groups (set_node_position node_id p sc) = _groups sc.
Proof.
  unfold set_node_position. destruct (_nodes sc !! node_id); [done|].
  by destruct (_waypoints sc !! node_id).
Qed.

Lemma binary64_last_binding_cons k p children i :
  last_binding ((k, p) :: children) i
  = match last_binding children i with
    | Some q => Some q
    | None => if decide (k = i) then Some p else None
    end.
Proof.
  cbn. destruct (last_binding children i); [done|].
  destruct (String.eqb_spec k i); by case_decide.
Qed.

Lemma binary64_place_cons dx dy k ox oy children i n :
  place dx dy children i
    ((if decide (k = i)
      then (λ _, {| node_pos := (ox + dx, oy + dy);
                    node_position := (ox + dx, oy + dy) |})
      else id) n)
  = place dx dy ((k, (ox, oy)) :: children) i n.
Proof.
  unfold place. rewrite binary64_last_binding_cons.
  destruct (last_binding children i) as [[qx qy]|]; [done|]. by case_decide.
Qed.

Lemma binary64_place_twice dx dy dx' dy' children i n :
  place dx dy children i (place dx' dy' children i n) = place dx dy children i n.
Proof. unfold place. by destruct (last_binding children i) as [[ox oy]|]. Qed.

Lemma binary64_move_children_nodes dx dy children : ∀ sc i,
  _nodes (move_children dx dy children sc) !! i
  = place dx dy children i <$> _nodes sc !! i.
Proof.
  induction children as [|[k [ox oy]] children IH]; intros sc i.
  - cbn. by destruct (_nodes sc !! i).
  - change (move_children dx dy ((k, (ox, oy)) :: children) sc)
      with (move_children dx dy children
              (set_node_position k (ox + dx, oy + dy) sc)).
    rewrite IH, binary64_set_node_position_nodes.
    destruct (_nodes sc !! i) as [n|]; [|done]. cbn. f_equal. apply binary64_place_cons.
Qed.

Lemma binary64_move_children_waypoints dx dy children : ∀ sc i,
  _waypoints (move_children dx dy children sc) !! i
  = (match _nodes sc !! i with
     | Some _ => id
     | None => place dx dy children i
     end) <$> _waypoints sc !! i.
Proof.
  induction children as [|[k [ox oy]] children IH]; intros sc i.
  - cbn. destruct (_nodes sc !! i); by destruct (_waypoints sc !! i).
  - change (move_children dx dy ((k, (ox, oy)) :: children) sc)
      with (move_children dx dy children
              (set_node_position k (ox + dx, oy + dy) sc)).
    rewrite IH, binary64_set_node_position_nodes, binary64_set_node_position_waypoints.
    destruct (_nodes sc !! i) as [n|] eqn:Hn; cbn.
    + destruct (_waypoints sc !! i); [|done]. cbn. by case_decide.
    + destruct (_waypoints sc !! i) as [n|]; [|done]. cbn. f_equal.
      apply binary64_place_cons.
Qed.

Lemma binary64_move_children_groups dx dy children : ∀ sc,
  _groups (move_children dx dy children sc) = _groups sc.
Proof.
  induction children as [|[k [ox oy]] children IH]; intros sc; [done|].
  change (move_children dx dy ((k, (ox, oy)) :: children) sc)
    with (move_children dx dy children
            (set_node_position k (ox + dx, oy + dy) sc)).
  by rewrite IH, binary64_set_node_position_groups.
Qed.

Lemma binary64_scene_eq (a b : Scene) :
  (∀ i, _nodes a !! i = _nodes b !! i) →
  (∀ i, _waypoints a !! i = _waypoints b !! i) →
  _groups a = _groups b → a = b.
Proof.
  destruct a, b; cbn. intros Hn Hw ->. f_equal; by apply map_eq.
Qed.

(** A replay overwrites what an earlier replay wrote. *)
Lemma binary64_move_to_twice c t1 t2 scene :
  _move_to c t1 (_move_to c t2 scene) = _move_to c t1 scene.
Proof.
  destruct scene as [sc|]; [|done]. cbn. f_equal.
  destruct (_groups sc !! group_id c) as [g|] eqn:Hg; [|by rewrite Hg].
  match goal with
  | |- context [foldl ?f ?sc0 ?cs] =>
      match f with
      | context [t2.1 - ?o] =>
          change (foldl f sc0 cs)
            with (move_children (t2.1 - o) (t2.2 - (old_pos c).2) cs sc0)
      end
  end.
  rewrite binary64_move_children_groups. cbn [_groups]. rewrite lookup_insert_eq.
  cbn [node_ids].
  repeat match goal with
  | |- context [foldl ?f ?sc0 ?cs] =>
      match f with
      | context [t1.1 - ?o] =>
          change (foldl f sc0 cs)
            with (move_children (t1.1 - o) (t1.2 - (old_pos c).2) cs sc0)
      end
  end.
  apply binary64_scene_eq; intros;
    rewrite ?binary64_move_children_nodes, ?binary64_move_children_waypoints, ?binary64_move_children_groups;
    cbn [_nodes _waypoints _groups];
    rewrite ?binary64_move_children_nodes, ?binary64_move_children_waypoints, ?binary64_move_children_groups;
    cbn [_nodes _waypoints _groups].
  - destruct (_nodes sc !! i); [|done]. cbn. by rewrite binary64_place_twice.
  - destruct (_nodes sc !! i); cbn.
    + by destruct (_waypoints sc !! i).
    + destruct (_waypoints sc !! i); [|done]. cbn. by rewrite binary64_place_twice.
  - by rewrite insert_insert_eq.
Qed.

Lemma binary64_cycles_steady c scene k :
  _first_execute c = false →
  cycles k c (_move_to c (old_pos c) scene)
  = concat (replicate k [_move_to c (new_pos c) scene;
                         _move_to c (old_pos c) scene]).
Proof.
  intros Hfe. induction k as [|k IH]; [done|].
  cbn [cycles]. unfold execute, undo. rewrite Hfe.
  rewrite !binary64_move_to_twice, IH. done.
Qed.

Lemma binary64_cycles_alternate c scene k :
  cycles (S k) c scene
  = (if _first_execute c then scene else _move_to c (new_pos c) scene)
    :: _move_to c (old_pos c) scene
    :: concat (replicate k [_move_to c (new_pos c) scene;
                            _move_to c (old_pos c) scene]).
Proof.
  cbn [cycles]. unfold execute, undo.
  destruct (_first_execute c) eqn:Hfe.
  - f_equal. f_equal.
    exact (binary64_cycles_steady
             {| group_id := group_id c; old_pos := old_pos c; new_pos := new_pos c;
                child_positions := child_positions c; _first_execute := false |}
             scene k eq_refl).
  - rewrite binary64_move_to_twice. f_equal. f_equal. by apply binary64_cycles_steady.
Qed.
End Binary64Facts.




(** ** Loading a history file *)

(** Entries that are dicts with a scalar kind never make the load fail:
    each is loaded or dropped on its own, in order. *)
Lemma load_stack_scalar_kinds ctx entries :
  forallb scalar_kind entries = true →
  load_stack ctx entries = Some (omap (loaded ctx) entries).
Proof.
  induction entries as [|e entries IH]; [done|]. cbn [forallb].
  intros [He Hrest]%andb_prop. cbn [load_stack omap list_omap]. unfold loaded at 1.
  rewrite (IH Hrest).
  unfold _deserialize_command, scalar_kind in *.
  destruct e as [| | | | |d]; try done.
  destruct (dict_get "type" d) as [[| | |ty| |]|]; try done.
  destruct (registry_get ty command_classes) as [cls|]; [|done].
  by destruct (cls d ctx).
Qed.

(** C6, at the failing input.  An entry whose kind is a list makes the
    registry lookup itself raise, outside the [try] of
    [_deserialize_command]; the handler of [load_from_file] then clears both
    stacks, and the well-formed command next to it is lost.  Without that
    entry, or with an unknown kind that is a string, the same command is
    loaded. *)
Theorem load_from_file_unhashable_kind :
  let good := JDict (to_dict (TodoAddCommand "a" 0)) in
  _deserialize_command (sample_context empty_dock empty_scene) good
  = Loaded (TodoAddCommand "a" 0)
  ∧ _deserialize_command (sample_context empty_dock empty_scene)
      (JDict [("type", JList [])]) = Escaped
  ∧ load_from_file new_UndoManager "p"
      (sample_history [good; JDict [("type", JList [])]])
    = new_UndoManager
  ∧ _undo_stack (load_from_file new_UndoManager "p" (sample_history [good]))
    = [TodoAddCommand "a" 0]
  ∧ _undo_stack (load_from_file new_UndoManager "p"
                   (sample_history [good; JDict [("type", JStr "FutureKind")]]))
    = [TodoAddCommand "a" 0].
Proof. repeat split; vm_compute; reflexivity. Qed.

(** ** Commands undo what they did

    Each command, executed in a world it was recorded against, is undone by
    its own [undo]. *)

Lemma index_ok_spec i n : index_ok i n = true ↔ (Z.to_nat i < n)%nat ∧ (0 <= i)%Z.
Proof. unfold index_ok. rewrite andb_true_iff, Z.leb_le, Z.ltb_lt. lia. Qed.

Lemma list_insert_remove {A} i (x : A) l l' :
  list_insert_at i x l = Some l' → list_remove_at i l' = Some l.
Proof.
  unfold list_insert_at, list_remove_at.
  destruct (_ && _)%bool eqn:Hi; [|done]. intros [= <-].
  apply andb_prop in Hi as [Hi1%Z.leb_le Hi2%Z.leb_le].
  assert (Hlen : length (take (Z.to_nat i) l) = Z.to_nat i)
    by (rewrite length_take; lia).
  replace (index_ok _ _) with true.
  - f_equal. rewrite <- Hlen at 1. by rewrite delete_middle, take_drop.
  - symmetry. apply index_ok_spec. rewrite length_app. cbn. rewrite Hlen, length_drop. lia.
Qed.

Lemma list_remove_insert {A} i (x : A) l l' :
  l !! Z.to_nat i = Some x →
  list_remove_at i l = Some l' → list_insert_at i x l' = Some l.
Proof.
  unfold list_insert_at, list_remove_at. intros Hx.
  destruct (index_ok _ _) eqn:Hi; [|done]. intros [= <-].
  apply index_ok_spec in Hi as [Hi Hi0].
  rewrite length_delete by eauto.
  replace (_ && _)%bool with true
    by (symmetry; apply andb_true_iff; rewrite !Z.leb_le; lia).
  f_equal. rewrite delete_take_drop.
  rewrite take_app_length' by (rewrite length_take; lia).
  rewrite drop_app_length' by (rewrite length_take; lia).
  by apply take_drop_middle.
Qed.

Lemma list_update_update {A} i (f g : A → A) l l' :
  list_update_at i f l = Some l' →
  (∀ x, l !! Z.to_nat i = Some x → g (f x) = x) →
  list_update_at i g l' = Some l.
Proof.
  unfold list_update_at. destruct (index_ok _ _) eqn:Hi; [|done]. intros [= <-] Hg.
  rewrite length_alter, Hi. f_equal.
  apply list_eq. intros j. destruct (decide (Z.to_nat i = j)) as [<-|Hne].
  - rewrite !list_lookup_alter_eq. destruct (l !! Z.to_nat i) as [x|] eqn:Hx; [|done].
    cbn. f_equal. by apply Hg.
  - by rewrite !list_lookup_alter_ne.
Qed.

Lemma list_move_move {A} a b (l l' : list A) :
  list_move a b l = Some l' → list_move b a l' = Some l.
Proof.
  unfold list_move. destruct (_ && _)%bool eqn:Hi; [|done].
  apply andb_prop in Hi as [Ha Hb].
  pose proof Ha as Ha'. pose proof Hb as Hb'.
  apply index_ok_spec in Ha' as [Ha' Ha0], Hb' as [Hb' Hb0].
  destruct (l !! Z.to_nat a) as [x|] eqn:Hx; [|done]. cbn.
  intros Hins. pose proof (list_insert_remove _ _ _ _ Hins) as Hrem.
  assert (Hlen : length l' = length l).
  { unfold list_insert_at in Hins. destruct (_ && _)%bool; [|done].
    injection Hins as <-. rewrite length_app. cbn.
    rewrite length_take, length_drop, length_delete by eauto. lia. }
  rewrite Hlen, Hb, Ha. cbn.
  assert (Hl' : l' !! Z.to_nat b = Some x).
  { unfold list_insert_at in Hins. destruct (_ && _)%bool; [|done].
    injection Hins as <-. apply list_lookup_middle.
    rewrite length_take, length_delete by eauto. lia. }
  rewrite Hl'. cbn.
  unfold list_remove_at in Hrem. rewrite Hlen, Hb in Hrem. injection Hrem as ->.
  apply (list_remove_insert a x l); [done|].
  unfold list_remove_at. by rewrite Ha.
Qed.

Lemma remove_first_named_app name c l :
  first_named name l = None → remove_first_named name (l ++ [(name, c)]) = l.
Proof.
  induction l as [|tg l IH]; cbn.
  - by rewrite String.eqb_refl.
  - destruct (String.eqb tg.1 name); [done|]. intros Hl. by rewrite IH.
Qed.

Lemma remove_first_named_delete name color n l :
  l !! n = Some (name, color) →
  first_named name (take n l) = None →
  remove_first_named name l = delete n l.
Proof.
  revert n. induction l as [|tg l IH]; intros [|n]; cbn; try done.
  - intros [= ->] _. cbn. by rewrite String.eqb_refl.
  - intros Hn. destruct (String.eqb tg.1 name); [done|]. intros Hl.
    by rewrite (IH n).
Qed.

Lemma rename_back old_name new_name l :
  old_name = new_name ∨ first_named new_name l = None →
  alter_first_named new_name (λ tg, (old_name, tg.2))
    (alter_first_named old_name (λ tg, (new_name, tg.2)) l) = l.
Proof.
  induction l as [|[k c] l IH]; [done|]. cbn.
  destruct (String.eqb_spec k old_name) as [->|Hne]; cbn.
  - by rewrite String.eqb_refl.
  - destruct (String.eqb_spec k new_name) as [->|Hne'].
    + by intros [->|?].
    + intros Hor. by rewrite IH.
Qed.

Lemma recolor_back name old_color new_color l :
  (∀ tg, first_named name l = Some tg → tg.2 = old_color) →
  alter_first_named name (λ tg, (tg.1, old_color))
    (alter_first_named name (λ tg, (tg.1, new_color)) l) = l.
Proof.
  induction l as [|[k c] l IH]; [done|]. cbn.
  destruct (String.eqb_spec k name) as [->|Hne]; cbn.
  - rewrite String.eqb_refl. intros Hc. by rewrite <- (Hc _ eq_refl).
  - apply String.eqb_neq in Hne. rewrite Hne. intros Hc. by rewrite IH.
Qed.

(** *** Worlds *)

Lemma with_dock_back w d d' :
  project_dock (context w) = Some d →
  with_context (with_context w (with_project_dock (context w) d'))
    (with_project_dock (context (with_context w (with_project_dock (context w) d'))) d)
  = w.
Proof. destruct w as [[dk sc pm mp] n f]; cbn. by intros ->. Qed.

Lemma with_scene_back w sc sc' :
  scene (context w) = Some sc →
  with_context (with_context w (with_scene (context w) sc'))
    (with_scene (context (with_context w (with_scene (context w) sc'))) sc)
  = w.
Proof. destruct w as [[dk s pm mp] n f]; cbn. by intros ->. Qed.

(** A dock method undone by another dock method. *)
Lemma on_dock_inverse f g w w1 :
  on_dock f w = Ok () w1 →
  (∀ d d', project_dock (context w) = Some d → f d = Some d' → g d' = Some d) →
  on_dock g w1 = Ok () w.
Proof.
  unfold on_dock. destruct (project_dock (context w)) as [d|] eqn:Hd.
  - destruct (f d) as [d'|] eqn:Hf; [|done]. intros [= <-] Hg. cbn.
    rewrite (Hg d d' eq_refl Hf). f_equal. by apply with_dock_back.
  - intros [= <-] _. by rewrite Hd.
Qed.

Lemma on_scene_inverse f g w w1 :
  on_scene f w = Ok () w1 →
  (∀ sc, scene (context w) = Some sc → g (f sc) = sc) →
  on_scene g w1 = Ok () w.
Proof.
  unfold on_scene. destruct (scene (context w)) as [sc|] eqn:Hsc.
  - intros [= <-] Hg. cbn. rewrite (Hg sc eq_refl). f_equal. by apply with_scene_back.
  - intros [= <-] _. by rewrite Hsc.
Qed.

Lemma bind_ret_Ok {A} (m : Act unit) (c c1 : A) w w1 :
  (m ≫= λ _, mret c) w = Ok c1 w1 → c1 = c ∧ m w = Ok () w1.
Proof.
  unfold mbind, Act_bind. destruct (m w) as [[] w'|]; [|done].
  by intros [= <- <-].
Qed.

Lemma bind_ret_run {A} (m : Act unit) (c : A) w w1 :
  m w = Ok () w1 → (m ≫= λ _, mret c) w = Ok c w1.
Proof. unfold mbind, Act_bind. by intros ->. Qed.

Section Dock.
Context `{UuidSource}.

Lemma dock_commands_inverse c w c1 w1 :
  match c with
  | DescriptionChangeCommand _ _ | TodoAddCommand _ _ | TodoRemoveCommand _ _ _
  | TodoEditCommand _ _ _ | TodoToggleCommand _ _ | TodoMoveCommand _ _
  | TagRemoveCommand _ _ _ | TagRenameCommand _ _ | TagColorChangeCommand _ _ _
  | TagMoveCommand _ _ => True
  | _ => False
  end →
  recorded_in c w →
  execute c w = Ok c1 w1 →
  undo c1 w1 = Ok c1 w.
Proof.
  destruct c; try done; intros _ Hrec [-> Hex]%bind_ret_Ok; cbn [undo];
    apply bind_ret_run; eapply on_dock_inverse; try exact Hex;
    intros d d' Hd; try (specialize (Hrec d Hd); cbn beta in Hrec).
  - intros [= <-]. unfold set_description. f_equal. destruct d; cbn in *. by subst.
  - intros [= <-]. unfold remove_todo_at. cbn.
    rewrite (list_insert_remove todo_index (todo_text, false) (dock_todos d));
      [by destruct d|].
    unfold list_insert_at. subst todo_index.
    replace (_ && _)%bool with true
      by (symmetry; apply andb_true_iff; rewrite !Z.leb_le; lia).
    by rewrite Nat2Z.id, firstn_all, drop_all.
  - unfold remove_todo_at, insert_todo.
    destruct (list_remove_at _ _) as [l'|] eqn:Hl; [|done]. intros [= <-]. cbn.
    rewrite (list_remove_insert _ _ _ _ Hrec Hl). by destruct d.
  - unfold update_todo_text.
    destruct (list_update_at _ _ _) as [l'|] eqn:Hl; [|done]. intros [= <-]. cbn.
    erewrite (list_update_update _ _ _ _ _ Hl); [by destruct d|].
    intros [t b] Hx. rewrite Hx in Hrec. cbn in *. congruence.
  - unfold set_todo_status.
    destruct (list_update_at _ _ _) as [l'|] eqn:Hl; [|done]. intros [= <-]. cbn.
    erewrite (list_update_update _ _ _ _ _ Hl); [by destruct d|].
    intros [t b] Hx. rewrite Hx in Hrec. cbn in *. congruence.
  - unfold move_todo.
    destruct (list_move _ _ _) as [l'|] eqn:Hl; [|done]. intros [= <-]. cbn.
    rewrite (list_move_move _ _ _ _ Hl). by destruct d.
  - intros [= <-]. unfold insert_tag. cbn.
    destruct Hrec as (Hi & Hn & Hfirst).
    rewrite (remove_first_named_delete _ _ _ _ Hn Hfirst).
    rewrite (list_remove_insert tag_index (tag_name, tag_color) (_tags d));
      [by destruct d|exact Hn|].
    unfold list_remove_at. replace (index_ok _ _) with true; [done|].
    symmetry. apply index_ok_spec. split; [|done]. by eapply lookup_lt_Some.
  - intros [= <-]. unfold rename_tag_item. cbn. rewrite rename_back by done.
    by destruct d.
  - intros [= <-]. unfold set_tag_color. cbn. rewrite recolor_back by done.
    by destruct d.
  - unfold move_tag.
    destruct (list_move _ _ _) as [l'|] eqn:Hl; [|done]. intros [= <-]. cbn.
    rewrite (list_move_move _ _ _ _ Hl). by destruct d.
Qed.
End Dock.

Lemma update_node_back node_id f g sc :
  (∀ n, find_node sc node_id = Some n → g (f n) = n) →
  update_node node_id g (update_node node_id f sc) = sc.
Proof.
  intros Hfg.
  destruct (update_node_rest node_id g (update_node node_id f sc))
    as (Hg1 & He1 & Hp1 & Hr1 & Hu1).
  destruct (update_node_rest node_id f sc) as (Hg2 & He2 & Hp2 & Hr2 & Hu2).
  apply scene_eq; try congruence.
  - intros i. rewrite !update_node_nodes.
    destruct (_nodes sc !! i) as [n|] eqn:Hn; [|done]. cbn. f_equal.
    case_decide; [subst|done]. apply Hfg. unfold find_node. by rewrite Hn.
  - intros i. rewrite !update_node_waypoints, update_node_nodes.
    destruct (_waypoints sc !! i) as [n|] eqn:Hw; [|done]. cbn. f_equal.
    case_decide; [subst|done].
    destruct (_nodes sc !! i) as [m|] eqn:Hn; [done|]. cbn.
    apply Hfg. unfold find_node. by rewrite Hn.
Qed.

Lemma node_set_position_back a b c d n :
  item_pos n = Position.mk a b → node_in_sync n →
  node_set_position a b (node_set_position c d n) = n.
Proof.
  unfold node_in_sync. destruct n as [ip [i ty pos tg md sn] col gc b0 mt]; cbn.
  by intros -> ->.
Qed.

(** In a scene where the group and the children of the snapshot are at the
    old position, the replay of the undo changes nothing. *)
Lemma move_scene_to_old_pos_fixpoint sc group_id old_pos cp :
  (∀ g, _groups sc !! group_id = Some g →
        group_at old_pos g
        ∧ ∀ i p n, last_binding (default [] cp) i = Some p →
                   find_node sc i = Some n →
                   item_pos n = Position.mk p.1 p.2 ∧ node_in_sync n) →
  move_scene_to group_id old_pos cp old_pos sc = sc.
Proof.
  intros Hsc. rewrite move_scene_to_unfold.
  destruct (_groups sc !! group_id) as [g|] eqn:Hg; [|done].
  destruct (Hsc g eq_refl) as [Hat Hsync].
  rewrite (group_set_position_at _ _ Hat), (insert_id _ _ _ Hg).
  replace (with_groups sc (_groups sc)) with sc by by destruct sc.
  assert (Hplace : ∀ i n, find_node sc i = Some n →
            place (old_pos.1 - old_pos.1) (old_pos.2 - old_pos.2) (default [] cp) i n = n).
  { intros i n Hn. unfold place.
    destruct (last_binding _ i) as [[ox oy]|] eqn:Hb; [|done].
    destruct (Hsync i (ox, oy) n Hb Hn) as [Hpos Hs]. cbn in Hpos.
    rewrite !Z.sub_diag, !Z.add_0_r.
    destruct n as [ip [j ty pos tg md sn] col gc b0 mt]; cbn in *.
    unfold node_in_sync in Hs. cbn in Hs. by subst. }
  match goal with
  | |- move_children ?dx ?dy ?cs sc = sc =>
      destruct (move_children_rest dx dy cs sc) as (Hgr & He & Hp & Hr & Hu)
  end.
  apply scene_eq; try done.
  - intros i. rewrite move_children_nodes.
    destruct (_nodes sc !! i) as [n|] eqn:Hn; [|done]. cbn. f_equal.
    apply Hplace. unfold find_node. by rewrite Hn.
  - intros i. rewrite move_children_waypoints.
    destruct (_nodes sc !! i) as [n|] eqn:Hn; cbn.
    + by destruct (_waypoints sc !! i).
    + destruct (_waypoints sc !! i) as [n|] eqn:Hw; [|done]. cbn. f_equal.
      apply Hplace. unfold find_node. by rewrite Hn.
Qed.

Section SceneCommands.
Context `{UuidSource}.

Lemma TagAddCommand_inverse tag_name tag_index w c1 w1 :
  recorded_in (TagAddCommand tag_name tag_index) w →
  execute (TagAddCommand tag_name tag_index) w = Ok c1 w1 →
  undo c1 w1 = Ok c1 w.
Proof.
  intros Hrec. cbn [execute]. destruct (project_dock (context w)) as [d|] eqn:Hd.
  - specialize (Hrec d Hd). cbn beta in Hrec.
    destruct (insert_tag _ _ _ d) as [d'|] eqn:Hins; [|done].
    intros [= <- <-]. cbn [undo]. apply bind_ret_run. unfold on_dock. cbn.
    unfold insert_tag, list_insert_at in Hins.
    destruct (_ && _)%bool; [|done]. injection Hins as <-. cbn.
    rewrite Nat2Z.id, firstn_all, drop_all, remove_first_named_app by done.
    f_equal. destruct w as [[dk sc pm mp] n f]; cbn in *. subst. by destruct d.
  - intros [= <- <-]. cbn [undo]. apply bind_ret_run. unfold on_dock. by rewrite Hd.
Qed.

Lemma NodePositionCommand_inverse node_id old_x old_y new_x new_y w c1 w1 :
  recorded_in (NodePositionCommand node_id old_x old_y new_x new_y) w →
  execute (NodePositionCommand node_id old_x old_y new_x new_y) w = Ok c1 w1 →
  undo c1 w1 = Ok c1 w.
Proof.
  intros Hrec [-> Hex]%bind_ret_Ok. cbn [undo]. apply bind_ret_run.
  eapply on_scene_inverse; [exact Hex|]. intros sc Hsc.
  apply update_node_back. intros n Hn.
  destruct (Hrec sc Hsc n Hn). by apply node_set_position_back.
Qed.

Lemma GroupMoveCommand_inverse group_id old_pos new_pos cp fe w c1 w1 :
  recorded_in (GroupMoveCommand group_id old_pos new_pos cp fe) w →
  execute (GroupMoveCommand group_id old_pos new_pos cp fe) w = Ok c1 w1 →
  undo c1 w1 = Ok c1 w.
Proof.
  intros [-> Hrec]. rewrite GroupMoveCommand_execute. intros [= <- <-].
  rewrite GroupMoveCommand_undo, moved_to_twice. f_equal.
  unfold moved_to, on_scene_world.
  destruct (scene (context w)) as [sc|] eqn:Hsc; [|done].
  rewrite move_scene_to_old_pos_fixpoint by by apply Hrec.
  destruct w as [[dk s pm mp] n f]; cbn in *. by subst.
Qed.
End SceneCommands.

#[local] Arguments load : simpl never.

Lemma item_EdgeData_id ed : item (EdgeData.to_dict ed) "id" = Some (JStr (EdgeData.id ed)).
Proof. reflexivity. Qed.
Lemma item_GroupData_id gd : item (GroupData.to_dict gd) "id" = Some (JStr (GroupData.id gd)).
Proof. reflexivity. Qed.
Lemma item_NodeData_id nd : item (NodeData.to_dict nd) "id" = Some (JStr (NodeData.id nd)).
Proof. reflexivity. Qed.

Ltac world_simpl :=
  rewrite ?item_EdgeData_id, ?item_GroupData_id, ?item_NodeData_id in *;
  unfold restore_edge_from, remove_edge_of, restore_group_from, remove_group_of,
    restore_node_from, remove_node_or_waypoint in *;
  unfold mbind, Act_bind, mret, Act_ret, has_scene in *;
  unfold on_scene, on_scene_world, on_dock, on_palette, on_project_data,
    with_context, with_scene, with_project_dock, with_project_manager,
    with_module_palette, with_is_undo_operation, with_edges, with_groups,
    with_nodes, with_waypoints, restore_edge, _remove_edge_internal,
    restore_group, remove_group, try_finally, of_option, as_key in *;
  cbn in *.

Section Scene.
Context `{UuidSource}.

Lemma load_EdgeData ed w :
  load (EdgeData.from_dict (EdgeData.to_dict ed)) w
  = Ok ed {| context := context w; uuid_count := (uuid_count w + 1)%nat;
             history_files := history_files w |}.
Proof.
  unfold load.
  by rewrite (EdgeData_round_trip ed (uuid_count w)
              : EdgeData.from_dict (EdgeData.to_dict ed) (uuid_count w) = _).
Qed.

Lemma AddEdgeCommand_inverse d w c1 w1 :
  recorded_in (AddEdgeCommand d) w →
  execute (AddEdgeCommand d) w = Ok c1 w1 →
  ∃ w2, undo c1 w1 = Ok c1 w2 ∧ context w2 = context w.
Proof.
  intros (ed & -> & Hrec) [-> Hex]%bind_ret_Ok. cbn [undo]. revert Hex.
  destruct w as [[dk [sc|] pm mp] n f]; world_simpl.
  - destruct (Hrec sc eq_refl) as [Hfresh Hflag].
    rewrite load_EdgeData. world_simpl. intros [= <-]. world_simpl.
    eexists. split; [reflexivity|]. cbn. do 2 f_equal.
    destruct sc; cbn in *. subst. f_equal.
    rewrite delete_insert_eq. by apply delete_id.
  - intros [= <-]. by eexists.
Qed.

Lemma load_GroupData gd w :
  load (GroupData.from_dict (GroupData.to_dict gd)) w
  = Ok gd {| context := context w; uuid_count := (uuid_count w + 1)%nat;
             history_files := history_files w |}.
Proof.
  unfold load.
  by rewrite (GroupData_round_trip gd (uuid_count w)
              : GroupData.from_dict (GroupData.to_dict gd) (uuid_count w) = _).
Qed.

Lemma load_NodeData nd w :
  load (NodeData.from_dict (NodeData.to_dict nd)) w
  = Ok nd {| context := context w; uuid_count := (uuid_count w + node_cost nd)%nat;
             history_files := history_files w |}.
Proof.
  unfold load.
  by rewrite (NodeData_round_trip nd (uuid_count w)
              : NodeData.from_dict (NodeData.to_dict nd) (uuid_count w) = _).
Qed.

Lemma RemoveEdgeCommand_inverse d w c1 w1 :
  recorded_in (RemoveEdgeCommand d) w →
  execute (RemoveEdgeCommand d) w = Ok c1 w1 →
  ∃ w2, undo c1 w1 = Ok c1 w2 ∧ context w2 = context w.
Proof.
  intros (ed & -> & Hrec) [-> Hex]%bind_ret_Ok. cbn [undo]. revert Hex.
  destruct w as [[dk [sc|] pm mp] n f]; world_simpl.
  - destruct (Hrec sc eq_refl) as [Hthere Hflag].
    intros [= <-]. world_simpl. rewrite load_EdgeData. world_simpl.
    eexists. split; [reflexivity|]. cbn. do 2 f_equal.
    destruct sc; cbn in *. subst. f_equal.
    rewrite insert_delete_eq. by apply insert_id.
  - intros [= <-]. by eexists.
Qed.

Lemma AddGroupCommand_inverse d w c1 w1 :
  recorded_in (AddGroupCommand d) w →
  execute (AddGroupCommand d) w = Ok c1 w1 →
  ∃ w2, undo c1 w1 = Ok c1 w2 ∧ context w2 = context w.
Proof.
  intros (gd & -> & Hrec) [-> Hex]%bind_ret_Ok. cbn [undo]. revert Hex.
  destruct w as [[dk [sc|] pm mp] n f]; world_simpl.
  - pose proof (Hrec sc eq_refl) as Hfresh. cbn beta in Hfresh.
    rewrite load_GroupData. world_simpl. intros [= <-]. world_simpl.
    eexists. split; [reflexivity|]. cbn. do 2 f_equal.
    destruct sc; cbn in *. f_equal.
    rewrite delete_insert_eq. by apply delete_id.
  - intros [= <-]. by eexists.
Qed.

Lemma RemoveGroupCommand_inverse d w c1 w1 :
  recorded_in (RemoveGroupCommand d) w →
  execute (RemoveGroupCommand d) w = Ok c1 w1 →
  ∃ w2, undo c1 w1 = Ok c1 w2 ∧ context w2 = context w.
Proof.
  intros (gd & -> & Hrec) [-> Hex]%bind_ret_Ok. cbn [undo]. revert Hex.
  destruct w as [[dk [sc|] pm mp] n f]; world_simpl.
  - pose proof (Hrec sc eq_refl) as Hthere. cbn beta in Hthere.
    intros [= <-]. world_simpl. rewrite load_GroupData. world_simpl.
    eexists. split; [reflexivity|]. cbn. do 2 f_equal.
    destruct sc; cbn in *. f_equal.
    rewrite insert_delete_eq. by apply insert_id.
  - intros [= <-]. by eexists.
Qed.

Lemma filter_not_in (i : string) (ids : list string) :
  i ∉ ids → List.filter (λ j, negb (String.eqb j i)) ids = ids.
Proof.
  induction ids as [|j ids IH]; [done|]. rewrite not_elem_of_cons. intros [Hne Hni].
  cbn. destruct (String.eqb_spec j i); [congruence|]. cbn. by rewrite IH.
Qed.

Lemma group_set_node_ids_same g :
  group_set_node_ids (GroupData.node_ids (group_data g)) g = g.
Proof. by destruct g as [gp []]. Qed.

Lemma forget_groups_unreferenced i (gs : gmap string GroupItem) :
  (∀ k g, gs !! k = Some g → i ∉ GroupData.node_ids (group_data g)) →
  (λ g, group_set_node_ids
          (List.filter (λ j, negb (String.eqb j i)) (GroupData.node_ids (group_data g)))
          g) <$> gs = gs.
Proof.
  intros Hgs. rewrite <- (map_fmap_id gs) at 2. apply map_fmap_ext.
  intros k g Hg. rewrite filter_not_in by by eapply Hgs.
  apply group_set_node_ids_same.
Qed.

Lemma forget_node_unreferenced i sc :
  unreferenced i sc → forget_node i sc = sc.
Proof.
  intros [He Hg]. unfold forget_node.
  rewrite forget_groups_unreferenced by (intros k g; cbn; apply Hg).
  rewrite map_filter_id by (intros k e; cbn; apply He).
  by destruct sc.
Qed.

Lemma AddNodeCommand_inverse d w c1 w1 :
  recorded_in (AddNodeCommand d) w →
  execute (AddNodeCommand d) w = Ok c1 w1 →
  ∃ w2, undo c1 w1 = Ok c1 w2 ∧ context w2 = context w.
Proof.
  intros (nd & -> & Hrec). cbn [execute undo].
  destruct w as [[dk [sc|] pm mp] n f]; world_simpl.
  - destruct (Hrec sc eq_refl) as (Hn & Hw & Hun & Hflag).
    rewrite load_NodeData. world_simpl. intros [= <- <-]. world_simpl.
    eexists. split; [reflexivity|]. cbn. do 2 f_equal.
    unfold restore_node.
    destruct (String.eqb (NodeData.type nd) "waypoint"); cbn.
    + rewrite (bool_decide_eq_false_2 (is_Some (_nodes sc !! NodeData.id nd)))
        by (rewrite Hn; by intros [? ?]).
      rewrite bool_decide_eq_true_2 by (rewrite lookup_insert_eq; by eexists).
      unfold _remove_waypoint_internal; cbn.
      rewrite delete_insert_eq, delete_id by done.
      match goal with
      | |- context [forget_node ?i ?s] =>
          replace s with (with_is_undo_operation sc true) by by destruct sc
      end.
      rewrite forget_node_unreferenced by (by destruct Hun).
      destruct sc; cbn in *. by subst.
    + rewrite bool_decide_eq_true_2 by (rewrite lookup_insert_eq; by eexists).
      unfold _remove_node_internal; cbn.
      rewrite delete_insert_eq, delete_id by done.
      match goal with
      | |- context [forget_node ?i ?s] =>
          replace s with (with_is_undo_operation sc true) by by destruct sc
      end.
      rewrite forget_node_unreferenced by (by destruct Hun).
      destruct sc; cbn in *. by subst.
  - intros [= <- <-]. by eexists.
Qed.

(** Restoring the recorded edges over the edges that do not touch the node
    gives the edges back. *)
Lemma restore_edges_back i eds (M : gmap string EdgeData.t) :
  (∀ e, e ∈ eds → M !! EdgeData.id e = Some e) →
  (∀ k e, M !! k = Some e → touches i e = true → e ∈ eds ∧ k = EdgeData.id e) →
  foldl (λ m e, <[EdgeData.id e := e]> m)
    (filter (λ kv, touches i kv.2 = false) M) eds = M.
Proof.
  intros Hin Hall.
  assert (Hinv : ∀ k, filter (λ kv, touches i kv.2 = false) M !! k = M !! k
                      ∨ (filter (λ kv, touches i kv.2 = false) M !! k = None
                         ∧ ∃ e, e ∈ eds ∧ EdgeData.id e = k)).
  { intros k. destruct (M !! k) as [e|] eqn:Hk.
    - destruct (touches i e) eqn:Ht.
      + right. split.
        * apply map_lookup_filter_None. right. intros e' Hk'. cbn.
          rewrite Hk in Hk'. injection Hk' as <-. by rewrite Ht.
        * destruct (Hall k e Hk Ht) as [He ->]. by exists e.
      + left. by apply map_lookup_filter_Some.
    - left. apply map_lookup_filter_None. by left. }
  revert Hinv. generalize (filter (λ kv, touches i kv.2 = false) M). intros m.
  revert m Hin. clear Hall. induction eds as [|e eds IH]; intros m Hin Hinv; cbn.
  - apply map_eq. intros k.
    destruct (Hinv k) as [Hk|[_ (e & He & _)]]; [done|by apply elem_of_nil in He].
  - apply IH.
    + intros e' He'. apply Hin. by right.
    + intros k. rewrite lookup_insert. case_decide as Hk.
      * left. subst k. symmetry. apply Hin. by left.
      * destruct (Hinv k) as [Hl|[Hnone (e' & He' & Hid)]]; [by left|].
        apply elem_of_cons in He' as [->|He']; [done|].
        right. split; [done|]. by exists e'.
Qed.

Lemma restore_edges_run eds : ∀ (acc : Act unit) w w0 sc0,
  acc w = Ok () w0 →
  scene (context w0) = Some sc0 →
  foldl (λ (acc : Act unit) edge_dict,
           _ ← acc;
           edge_data ← load (EdgeData.from_dict edge_dict);
           on_scene (restore_edge edge_data))
    acc (EdgeData.to_dict <$> eds) w
  = Ok () (restored w0
             (with_edges sc0 (foldl (λ m e, <[EdgeData.id e := e]> m) (_edges sc0) eds))
             (uuid_count w0 + length eds)).
Proof.
  induction eds as [|e eds IH]; intros acc w w0 sc0 Hacc Hsc.
  - cbn. rewrite Hacc. f_equal. destruct w0 as [[dk s pm mp] n f], sc0; cbn in *.
    subst. unfold restored, with_scene, with_edges; cbn. do 2 f_equal. lia.
  - cbn [fmap list_fmap foldl].
    rewrite (IH _ w (restored w0 (restore_edge e sc0) (uuid_count w0 + 1))
               (restore_edge e sc0)).
    + f_equal. unfold restored, with_scene, with_context, with_edges, restore_edge; cbn.
      f_equal. lia.
    + unfold mbind, Act_bind. rewrite Hacc, load_EdgeData. unfold on_scene. cbn.
      rewrite Hsc. reflexivity.
    + reflexivity.
Qed.

Lemma remove_node_or_waypoint_run nd w :
  remove_node_or_waypoint (NodeData.to_dict nd) w
  = Ok () (on_scene_world (removal (NodeData.id nd)) w).
Proof.
  destruct w as [[dk [sc|] pm mp] n f]; world_simpl; [|done].
  unfold removal. by destruct sc.
Qed.

Lemma restore_node_from_run nd w sc :
  scene (context w) = Some sc →
  restore_node_from (NodeData.to_dict nd) w
  = Ok () (restored w (restore_node nd sc) (uuid_count w + node_cost nd)).
Proof.
  intros Hsc. unfold restore_node_from, mbind, Act_bind. rewrite load_NodeData.
  unfold on_scene. cbn. by rewrite Hsc.
Qed.

Lemma removal_restore nd eds sc :
  holds_node nd sc →
  edges_of_node (NodeData.id nd) eds sc →
  (∀ k g, _groups sc !! k = Some g →
          NodeData.id nd ∉ GroupData.node_ids (group_data g)) →
  _is_undo_operation sc = false →
  let sc0 := restore_node nd (removal (NodeData.id nd) sc) in
  with_edges sc0 (foldl (λ m e, <[EdgeData.id e := e]> m) (_edges sc0) eds) = sc.
Proof.
  intros Hhold [Hin Hall] Hgroups Hflag. cbn zeta.
  unfold holds_node in Hhold. unfold removal, restore_node.
  destruct (String.eqb (NodeData.type nd) "waypoint").
  - destruct Hhold as [Hn Hw].
    rewrite (bool_decide_eq_false_2 (is_Some _)) by (cbn; rewrite Hn; by intros [? ?]).
    rewrite bool_decide_eq_true_2 by (cbn; rewrite Hw; by eexists).
    unfold _remove_waypoint_internal, forget_node; cbn.
    rewrite forget_groups_unreferenced by done.
    rewrite restore_edges_back by done.
    rewrite insert_delete_eq, insert_id by done.
    destruct sc; cbn in *. by subst.
  - rewrite bool_decide_eq_true_2 by (cbn; rewrite Hhold; by eexists).
    unfold _remove_node_internal, forget_node; cbn.
    rewrite forget_groups_unreferenced by done.
    rewrite restore_edges_back by done.
    rewrite insert_delete_eq, insert_id by done.
    destruct sc; cbn in *. by subst.
Qed.

Lemma RemoveNodeCommand_inverse d es w c1 w1 :
  recorded_in (RemoveNodeCommand d es) w →
  execute (RemoveNodeCommand d es) w = Ok c1 w1 →
  ∃ w2, undo c1 w1 = Ok c1 w2 ∧ context w2 = context w.
Proof.
  intros (nd & eds & -> & -> & Hrec) [-> Hex]%bind_ret_Ok. cbn [undo].
  rewrite remove_node_or_waypoint_run in Hex. injection Hex as <-.
  unfold on_scene_world.
  destruct (scene (context w)) as [sc|] eqn:Hsc.
  - destruct (Hrec sc Hsc) as (Hhold & Hedges & Hgroups & Hflag).
    set (w1 := with_context w (with_scene (context w) (removal (NodeData.id nd) sc))).
    set (sc0 := restore_node nd (removal (NodeData.id nd) sc)).
    set (w0 := restored w1 sc0 (uuid_count w1 + node_cost nd)).
    assert (Hnode : restore_node_from (NodeData.to_dict nd) w1 = Ok () w0)
      by by apply restore_node_from_run.
    unfold mbind at 1 2, Act_bind at 1 2, has_scene. cbn.
    unfold mbind at 1 2, Act_bind at 1 2. fold w1. rewrite Hnode.
    rewrite (restore_edges_run eds (mret ()) w0 w0 sc0) by done.
    eexists. split; [reflexivity|].
    pose proof (removal_restore nd eds sc Hhold Hedges Hgroups Hflag) as Hback.
    cbn zeta in Hback. fold sc0 in Hback.
    unfold restored, with_scene. cbn. rewrite Hback.
    clear -Hsc. destruct w as [[dk s pm mp] n f]; cbn in *. by subst.
  - unfold mbind at 1 2, Act_bind at 1 2, has_scene. rewrite Hsc. by eexists.
Qed.

Lemma GlobalEdgeColorChangeCommand_inverse a b c d w c1 w1 :
  recorded_in (GlobalEdgeColorChangeCommand a b c d) w →
  execute (GlobalEdgeColorChangeCommand a b c d) w = Ok c1 w1 →
  undo c1 w1 = Ok c1 w.
Proof.
  intros (Hp & Hd & Hs & Hm) [-> Hex]%bind_ret_Ok. cbn [undo]. apply bind_ret_run.
  revert Hex. unfold _apply_colors.
  unfold project_is, dock_is, scene_is, palette_is in *.
  destruct w as [[dk sc pm mp] n f]; cbn in *.
  assert (Hpm : ∀ w', on_project_data (set_project_edge_colors c d)
                        {| context := {| project_dock := dk; scene := sc;
                                         project_manager := pm; module_palette := mp |};
                           uuid_count := n; history_files := f |} = Ok () w' →
                      ∃ pm', w' = {| context := {| project_dock := dk; scene := sc;
                                         project_manager := pm'; module_palette := mp |};
                           uuid_count := n; history_files := f |}
                      ∧ ∀ dk' sc' mp',
                          on_project_data (set_project_edge_colors a b)
                            {| context := {| project_dock := dk'; scene := sc';
                                         project_manager := pm'; module_palette := mp' |};
                           uuid_count := n; history_files := f |}
                          = Ok () {| context := {| project_dock := dk'; scene := sc';
                                         project_manager := pm; module_palette := mp' |};
                           uuid_count := n; history_files := f |}).
  { intros w'. unfold on_project_data; cbn. destruct pm as [m|]; cbn.
    - destruct (ProjectManager.is_project_open m) eqn:Hopen.
      + destruct (Hp m eq_refl Hopen) as (pd & Hpd & <- & <-). rewrite Hpd.
        intros [= <-]. eexists. split; [reflexivity|]. intros dk' sc' mp'. cbn.
        unfold ProjectManager.is_project_open in *. cbn. rewrite Hopen. cbn.
        do 4 f_equal. destruct m, pd; cbn in *. by subst.
      + intros [= <-]. eexists. split; [reflexivity|]. intros dk' sc' mp'. cbn.
        by rewrite Hopen.
    - intros [= <-]. by eexists. }
  unfold mbind, Act_bind.
  destruct (on_project_data (set_project_edge_colors c d) _) as [[] w'|] eqn:Hw'; [|done].
  destruct (Hpm w' eq_refl) as (pm' & -> & Hback). clear Hpm Hw'.
  destruct dk as [dock|], sc as [s|], mp as [p|];
    unfold on_dock, on_scene, on_palette, with_context, with_project_dock,
      with_scene, with_module_palette; cbn;
    intros [= <-]; rewrite Hback; cbn; do 3 f_equal;
    try (destruct (Hd dock eq_refl) as [<- <-]; by destruct dock);
    try (destruct (Hs s eq_refl) as [<- <-]; by destruct s);
    try (rewrite <- (Hm p eq_refl); by destruct p).
Qed.

Lemma adict_set_back {V} k (v v' : V) l :
  registry_get k l = Some v → adict_set k v (adict_set k v' l) = l.
Proof.
  induction l as [|[k0 v0] l IH]; [done|]. cbn.
  destruct (String.eqb_spec k k0) as [<-|Hne]; cbn.
  - rewrite String.eqb_refl. by intros [= ->].
  - apply String.eqb_neq in Hne. rewrite Hne. intros Hl. by rewrite IH.
Qed.

Lemma recolor_scene_back module_type old_color new_color sc :
  (module_type = "group" →
   ∀ k g, _groups sc !! k = Some g → GroupData.color (group_data g) = old_color) →
  (∀ k n, _nodes sc !! k = Some n →
          is_pipeline_module_item n = true →
          item_module_type n = module_type →
          item_color n = Some old_color) →
  recolor_scene module_type old_color (recolor_scene module_type new_color sc) = sc.
Proof.
  intros Hg Hn. unfold recolor_scene.
  assert (Hnodes :
    (λ node, if is_pipeline_module_item node
                && String.eqb (item_module_type node) module_type
             then node_set_color old_color node else node)
    <$> ((λ node, if is_pipeline_module_item node
                     && String.eqb (item_module_type node) module_type
                  then node_set_color new_color node else node) <$> _nodes sc)
    = _nodes sc).
  { rewrite <- map_fmap_compose. rewrite <- (map_fmap_id (_nodes sc)) at 2.
    apply map_fmap_ext. intros k n Hk. cbn.
    pose proof (Hn k n Hk) as Hc.
    destruct n as [ip nd col gc pipe mt]; cbn in *.
    destruct pipe; cbn; [|done].
    destruct (String.eqb_spec mt module_type) as [->|Hne]; cbn.
    - rewrite String.eqb_refl. unfold node_set_color; cbn. by rewrite Hc.
    - apply String.eqb_neq in Hne. by rewrite Hne. }
  destruct (String.eqb_spec module_type "group") as [Hty|Hne]; cbn.
  - rewrite Hnodes. rewrite <- map_fmap_compose.
    replace ((group_set_color old_color ∘ group_set_color new_color) <$> _groups sc)
      with (_groups sc).
    + by destruct sc.
    + rewrite <- (map_fmap_id (_groups sc)) at 1. apply map_fmap_ext.
      intros k g Hk. cbn. pose proof (Hg Hty k g Hk) as Hc.
      destruct g as [gp []]; cbn in *. by subst.
  - rewrite Hnodes. by destruct sc.
Qed.

Lemma ModulePaletteColorChangeCommand_inverse a b c w c1 w1 :
  recorded_in (ModulePaletteColorChangeCommand a b c) w →
  execute (ModulePaletteColorChangeCommand a b c) w = Ok c1 w1 →
  undo c1 w1 = Ok c1 w.
Proof.
  intros (Hp & Hm & Hs) [-> Hex]%bind_ret_Ok. cbn [undo]. apply bind_ret_run.
  revert Hex. unfold apply_module_color.
  unfold project_is, scene_is, palette_is in *.
  destruct w as [[dk sc pm mp] n f]; cbn in *.
  assert (Hpm : ∀ w', on_project_data (set_project_module_color a c)
                        {| context := {| project_dock := dk; scene := sc;
                                         project_manager := pm; module_palette := mp |};
                           uuid_count := n; history_files := f |} = Ok () w' →
                      ∃ pm', w' = {| context := {| project_dock := dk; scene := sc;
                                         project_manager := pm'; module_palette := mp |};
                           uuid_count := n; history_files := f |}
                      ∧ ∀ dk' sc' mp',
                          on_project_data (set_project_module_color a b)
                            {| context := {| project_dock := dk'; scene := sc';
                                         project_manager := pm'; module_palette := mp' |};
                           uuid_count := n; history_files := f |}
                          = Ok () {| context := {| project_dock := dk'; scene := sc';
                                         project_manager := pm; module_palette := mp' |};
                           uuid_count := n; history_files := f |}).
  { intros w'. unfold on_project_data; cbn. destruct pm as [m|]; cbn.
    - destruct (ProjectManager.is_project_open m) eqn:Hopen.
      + destruct (Hp m eq_refl Hopen) as (pd & Hpd & Hcol). rewrite Hpd.
        intros [= <-]. eexists. split; [reflexivity|]. intros dk' sc' mp'. cbn.
        unfold ProjectManager.is_project_open in *. cbn. rewrite Hopen. cbn.
        do 4 f_equal. unfold set_project_module_color; cbn.
        rewrite adict_set_back by done. destruct m, pd; cbn in *. by subst.
      + intros [= <-]. eexists. split; [reflexivity|]. intros dk' sc' mp'. cbn.
        by rewrite Hopen.
    - intros [= <-]. by eexists. }
  unfold mbind, Act_bind.
  destruct (on_project_data (set_project_module_color a c) _) as [[] w'|] eqn:Hw'; [|done].
  destruct (Hpm w' eq_refl) as (pm' & -> & Hback). clear Hpm Hw'.
  destruct sc as [s|], mp as [p|];
    unfold on_scene, on_palette, with_context, with_scene, with_module_palette; cbn;
    intros [= <-]; rewrite Hback; cbn; do 3 f_equal;
    try (rewrite recolor_scene_back by (by apply (Hs s eq_refl)); done);
    try (unfold set_color_for_type; cbn;
         rewrite insert_insert_eq, insert_id by (by apply Hm); by destruct p).
Qed.

(** *** Group membership *)

Lemma update_group_alter k f sc :
  update_group k f sc = with_groups sc (alter f k (_groups sc)).
Proof.
  unfold update_group. destruct (_groups sc !! k) as [g|] eqn:Hg.
  - f_equal. apply map_eq. intros i. rewrite lookup_alter, lookup_insert.
    case_decide; subst; by rewrite ?Hg.
  - destruct sc; unfold with_groups; cbn in *. f_equal. apply map_eq. intros i.
    rewrite lookup_alter. case_decide; subst; by rewrite ?Hg.
Qed.

Lemma update_node_with_groups i f sc gs :
  update_node i f (with_groups sc gs) = with_groups (update_node i f sc) gs.
Proof.
  unfold update_node; cbn. destruct (_nodes sc !! i); [done|].
  by destruct (_waypoints sc !! i).
Qed.

Lemma apply_grouping_scene_unfold node_id from_group_id to_group_id sc :
  apply_grouping_scene node_id from_group_id to_group_id sc
  = let gs := alter_at (attach node_id) (effective to_group_id)
                (alter_at (detach node_id) (effective from_group_id) (_groups sc)) in
    with_groups (paint node_id (effective to_group_id) gs sc) gs.
Proof.
  unfold apply_grouping_scene, effective, paint. cbn zeta.
  destruct (if truthy from_group_id then from_group_id else None) as [o|],
           (if truthy to_group_id then to_group_id else None) as [t|];
    rewrite ?update_group_alter; cbn [alter_at _groups with_groups].
  - destruct (_ !! t); rewrite ?update_node_with_groups; by destruct sc.
  - rewrite ?update_node_with_groups.
    destruct (update_node_rest node_id (node_set_group_color None) sc) as (? & _).
    destruct sc; unfold update_node, with_groups; cbn in *.
    destruct (_ !! node_id); [done|]. by destruct (_ !! node_id).
  - destruct (_ !! t); rewrite ?update_node_with_groups; by destruct sc.
  - destruct sc; unfold update_node, with_groups; cbn in *.
    destruct (_ !! node_id); [done|]. by destruct (_ !! node_id).
Qed.

Lemma contains_spec x l : contains x l = true ↔ x ∈ l.
Proof.
  unfold contains. induction l as [|y l IH]; cbn.
  - split; [done|]. by intros ?%elem_of_nil.
  - by rewrite orb_true_iff, IH, elem_of_cons, String.eqb_eq.
Qed.

Lemma remove_first_app x l : x ∉ l → remove_first x (l ++ [x]) = l.
Proof.
  induction l as [|y l IH]; cbn.
  - by rewrite String.eqb_refl.
  - rewrite not_elem_of_cons. intros [Hne Hni].
    destruct (String.eqb_spec y x); [congruence|]. by rewrite IH.
Qed.

Lemma attach_detach node_id g l :
  GroupData.node_ids (group_data g) = l ++ [node_id] → node_id ∉ l →
  attach node_id (detach node_id g) = g.
Proof.
  intros Hids Hni. unfold detach. rewrite Hids.
  rewrite (proj2 (contains_spec node_id (l ++ [node_id])))
    by (rewrite elem_of_app, list_elem_of_singleton; by right).
  rewrite remove_first_app by done. unfold attach.
  destruct (contains node_id l) eqn:Hc; [by apply contains_spec in Hc|].
  destruct g as [gp []]; cbn in *. unfold contains in Hc. rewrite Hc.
  unfold group_set_node_ids; cbn. by subst.
Qed.

Lemma detach_attach node_id g :
  node_id ∉ GroupData.node_ids (group_data g) →
  detach node_id (attach node_id g) = g.
Proof.
  intros Hni. unfold attach.
  destruct (contains node_id _) eqn:Hc; [by apply contains_spec in Hc|].
  unfold detach.
  assert (Hin : contains node_id
                  (GroupData.node_ids
                     (group_data
                        (group_set_node_ids
                           (GroupData.node_ids (group_data g) ++ [node_id]) g)))
                = true).
  { apply contains_spec. cbn. rewrite elem_of_app, list_elem_of_singleton. by right. }
  rewrite Hin. cbn. rewrite remove_first_app by done. by destruct g as [gp []].
Qed.

Lemma attach_color node_id g :
  GroupData.color (group_data (attach node_id g)) = GroupData.color (group_data g).
Proof. unfold attach. by destruct (contains _ _). Qed.

Lemma groups_back node_id ko kn (gs : gmap string GroupItem) :
  (∀ o, ko = Some o →
        kn ≠ Some o
        ∧ ∃ g l, gs !! o = Some g
                 ∧ GroupData.node_ids (group_data g) = l ++ [node_id]
                 ∧ node_id ∉ l) →
  (∀ t g, kn = Some t → gs !! t = Some g →
          node_id ∉ GroupData.node_ids (group_data g)) →
  alter_at (attach node_id) ko
    (alter_at (detach node_id) kn
       (alter_at (attach node_id) kn (alter_at (detach node_id) ko gs))) = gs.
Proof.
  intros Ho Ht. apply map_eq. intros k.
  destruct ko as [o|], kn as [t|]; cbn [alter_at]; [| | |done].
  - destruct (Ho o eq_refl) as (Hne & g & l & Hg & Hids & Hni).
    assert (o ≠ t) by congruence.
    rewrite !lookup_alter.
    repeat case_decide; subst; try congruence.
    + rewrite Hg. cbn. f_equal. by eapply attach_detach.
    + destruct (gs !! k) as [gt|] eqn:Hk; [|done]. cbn. f_equal.
      apply detach_attach. by eapply Ht.
  - destruct (Ho o eq_refl) as (Hne & g & l & Hg & Hids & Hni).
    rewrite !lookup_alter. repeat case_decide; subst; try congruence.
    rewrite Hg. cbn. f_equal. by eapply attach_detach.
  - rewrite !lookup_alter. repeat case_decide; subst; try congruence.
    destruct (gs !! k) as [gt|] eqn:Hk; [|done]. cbn. f_equal.
    apply detach_attach. by eapply Ht.
Qed.

Lemma update_node_same node_id f sc :
  (∀ n, find_node sc node_id = Some n → f n = n) → update_node node_id f sc = sc.
Proof.
  intros Hf. unfold update_node, find_node in *.
  destruct (_nodes sc !! node_id) as [n|] eqn:Hn.
  - rewrite (Hf n eq_refl), insert_id by done. by destruct sc.
  - destruct (_waypoints sc !! node_id) as [n|] eqn:Hw; [|done].
    rewrite (Hf n eq_refl), insert_id by done. by destruct sc.
Qed.

Lemma paint_with_groups node_id k gs sc gs' :
  paint node_id k gs (with_groups sc gs') = with_groups (paint node_id k gs sc) gs'.
Proof.
  unfold paint. destruct k as [g|]; [destruct (gs !! g)|];
    by rewrite ?update_node_with_groups.
Qed.

Lemma node_set_group_color_back c c' n :
  group_color n = c → node_set_group_color c (node_set_group_color c' n) = n.
Proof. destruct n; cbn. by intros ->. Qed.

Lemma node_set_group_color_same c n :
  group_color n = c → node_set_group_color c n = n.
Proof. destruct n; cbn. by intros ->. Qed.

Lemma paint_back node_id ko kn gs1 sc :
  (∀ o, ko = Some o →
        ∃ g, _groups sc !! o = Some g
             ∧ ∀ n, find_node sc node_id = Some n →
                    group_color n = Some (GroupData.color (group_data g))) →
  (ko = None → ∀ n, find_node sc node_id = Some n → group_color n = None) →
  paint node_id ko (_groups sc) (paint node_id kn gs1 sc) = sc.
Proof.
  intros Ho Hn. unfold paint at 1.
  assert (Hcases : ∀ c, (∀ n, find_node sc node_id = Some n → group_color n = c) →
            update_node node_id (node_set_group_color c) (paint node_id kn gs1 sc) = sc).
  { intros c Hc. unfold paint. destruct kn as [t|]; [destruct (gs1 !! t)|].
    - apply update_node_back. intros n Hfind.
      by apply node_set_group_color_back, Hc.
    - apply update_node_same. intros n Hfind.
      by apply node_set_group_color_same, Hc.
    - apply update_node_back. intros n Hfind.
      by apply node_set_group_color_back, Hc. }
  destruct ko as [o|].
  - destruct (Ho o eq_refl) as (g & -> & Hc). by apply Hcases.
  - apply Hcases. by apply Hn.
Qed.

Lemma apply_grouping_scene_back node_id old_group_id new_group_id sc :
  (∀ o, old_group_id = Some o → truthy old_group_id = true →
        new_group_id ≠ Some o
        ∧ ∃ g l, _groups sc !! o = Some g
                 ∧ GroupData.node_ids (group_data g) = (l ++ [node_id])
                 ∧ (node_id ∉ l)
                 ∧ ∀ n, find_node sc node_id = Some n →
                        group_color n = Some (GroupData.color (group_data g))) →
  (truthy old_group_id = false →
   ∀ n, find_node sc node_id = Some n → group_color n = None) →
  (∀ t g, new_group_id = Some t → truthy new_group_id = true →
          _groups sc !! t = Some g →
          node_id ∉ GroupData.node_ids (group_data g)) →
  apply_grouping_scene node_id new_group_id old_group_id
    (apply_grouping_scene node_id old_group_id new_group_id sc) = sc.
Proof.
  intros Ho Hn Ht. rewrite !apply_grouping_scene_unfold. cbn zeta.
  cbn [_groups with_groups].
  assert (Hgs : alter_at (attach node_id) (effective old_group_id)
            (alter_at (detach node_id) (effective new_group_id)
               (alter_at (attach node_id) (effective new_group_id)
                  (alter_at (detach node_id) (effective old_group_id) (_groups sc))))
          = _groups sc).
  { apply groups_back.
    - intros o Heff. unfold effective in Heff.
      destruct (truthy old_group_id) eqn:Htr; [|done]. subst old_group_id.
      destruct (Ho o eq_refl eq_refl) as (Hne & g & l & Hg & Hids & Hni & _).
      split; [|by eauto]. unfold effective. destruct (truthy new_group_id); [done|].
      done.
    - intros t g Heff Hg. unfold effective in Heff.
      destruct (truthy new_group_id) eqn:Htr; [|done]. subst new_group_id.
      by eapply Ht. }
  rewrite Hgs, paint_with_groups.
  rewrite paint_back.
  - by destruct sc.
  - intros o Heff. unfold effective in Heff.
    destruct (truthy old_group_id) eqn:Htr; [|done]. subst old_group_id.
    destruct (Ho o eq_refl eq_refl) as (Hne & g & l & Hg & Hids & Hni & Hc).
    by exists g.
  - intros Heff. unfold effective in Heff.
    destruct (truthy old_group_id) eqn:Htr; [|by apply Hn].
    by destruct old_group_id.
Qed.

Lemma NodeGroupChangeCommand_inverse node_id o t w c1 w1 :
  recorded_in (NodeGroupChangeCommand node_id o t) w →
  execute (NodeGroupChangeCommand node_id o t) w = Ok c1 w1 →
  undo c1 w1 = Ok c1 w.
Proof.
  intros Hrec [-> Hex]%bind_ret_Ok. cbn [undo]. apply bind_ret_run.
  eapply on_scene_inverse; [exact Hex|]. intros sc Hsc.
  destruct (Hrec sc Hsc) as (Ho & Hn & Ht).
  by apply apply_grouping_scene_back.
Qed.
End Scene.

(** ** The inverse law *)

Section InverseLaw.
Context `{UuidSource}.


End InverseLaw.


(** The same for a tag whose name is there already: [execute] appends a
    second tag of that name, and [undo] removes the first one. *)
Lemma tag_add_not_inverse :
  @execute sample_uuid (TagAddCommand "a" (-1)) (tag_world [("a", Some "#FF5722")])
  = Ok (TagAddCommand "a" 1) (tag_world [("a", Some "#FF5722"); ("a", None)])
  ∧ @undo sample_uuid (TagAddCommand "a" 1)
      (tag_world [("a", Some "#FF5722"); ("a", None)])
    = Ok (TagAddCommand "a" 1) (tag_world [("a", None)])
  ∧ project_dock (context (tag_world [("a", None)]))
    ≠ project_dock (context (tag_world [("a", Some "#FF5722")])).
Proof. split; [reflexivity|split; [reflexivity|discriminate]]. Qed.

(** The same for a node that is not the last of its group: [execute] takes
    it out, and [undo] appends it. *)
Lemma node_group_change_not_inverse :
  members pair_group_world "g" = Some ["n"; "x"]
  ∧ ∃ w1 w2,
      @execute sample_uuid (NodeGroupChangeCommand "n" (Some "g") None)
        pair_group_world
      = Ok (NodeGroupChangeCommand "n" (Some "g") None) w1
      ∧ @undo sample_uuid (NodeGroupChangeCommand "n" (Some "g") None) w1
        = Ok (NodeGroupChangeCommand "n" (Some "g") None) w2
      ∧ members w1 "g" = Some ["x"]
      ∧ members w2 "g" = Some ["x"; "n"].
Proof.
  split; [reflexivity|]. eexists _, _.
  split; [reflexivity|]. split; [reflexivity|]. split; reflexivity.
Qed.

(** The same for the removal of a node that a group lists: [execute] takes
    it out of the group, and [undo] restores the node only. *)
Lemma remove_node_not_inverse :
  members sample_group_world "g" = Some ["n"]
  ∧ ∃ w1 w2,
      @execute sample_uuid (RemoveNodeCommand (NodeData.to_dict sample_node) [])
        sample_group_world
      = Ok (RemoveNodeCommand (NodeData.to_dict sample_node) []) w1
      ∧ @undo sample_uuid (RemoveNodeCommand (NodeData.to_dict sample_node) []) w1
        = Ok (RemoveNodeCommand (NodeData.to_dict sample_node) []) w2
      ∧ members w2 "g" = Some [].
Proof.
  split; [reflexivity|]. eexists _, _.
  split; [vm_compute; reflexivity|]. split; [vm_compute; reflexivity|]. vm_compute. reflexivity.
Qed.

(** ** The statements at sample inputs *)

Lemma loads_within_cap_short ops : loads_within_cap ops short_history.
Proof.
  intros path data _ Hf. cbn in Hf.
  apply lookup_singleton_Some in Hf as [_ <-]. vm_compute. lia.
Qed.

Lemma recorded_in_toggle :
  recorded_in (TodoToggleCommand 0 true) (todo_world [("t", false)]).
Proof. intros d [= <-]. reflexivity. Qed.

Lemma recorded_in_group_change :
  recorded_in (NodeGroupChangeCommand "n" None (Some "h")) two_groups_world.
Proof.
  intros sc [= <-]. split; [done|]. split.
  - intros _ n Hn. vm_compute in Hn. by injection Hn as <-.
  - intros t g [= <-] _ Hg. vm_compute in Hg. injection Hg as <-. cbn.
    apply not_elem_of_nil.
Qed.

Lemma recorded_in_add_edge :
  recorded_in (AddEdgeCommand (EdgeData.to_dict sample_edge)) sample_group_world.
Proof. exists sample_edge. split; [done|]. by intros sc [= <-]. Qed.





Lemma reentrancy_guard_witness :
  _is_undoing (undo_entered new_UndoManager) = true
  ∧ @manager_execute sample_uuid (undo_entered new_UndoManager)
      (TodoAddCommand "a" 0) (todo_world [])
    = Returned () (undo_entered new_UndoManager) (todo_world []).
Proof.
  split; [reflexivity|].
  exact (proj1 (@reentrancy_guard sample_uuid) (undo_entered new_UndoManager)
           (TodoAddCommand "a" 0) (todo_world []) eq_refl).
Defined.

Lemma entity_round_trip_and_partial_load_witness :
  Forall (λ tg, is_dict tg = true) (ProjectData.global_tags sample_project)
  ∧ fst <$> @ProjectData.from_dict sample_uuid (ProjectData.to_dict sample_project)
              0%nat
    = Some sample_project.
Proof.
  assert (Htags : Forall (λ tg, is_dict tg = true)
                    (ProjectData.global_tags sample_project))
    by (repeat constructor).
  split; [exact Htags|].
  destruct (proj1 (@entity_round_trip_and_partial_load sample_uuid))
    as (_ & _ & _ & _ & _ & _ & Hproject).
  exact (Hproject sample_project 0%nat Htags).
Defined.

Lemma legacy_tag_migration_witness :
  match @ProjectData.from_dict sample_uuid
          [("global_tags", JList [JStr "a"; JStr "b"])] 0%nat with
  | Some (e, _) =>
      ProjectData.global_tags e
      = [ JDict [("name", JStr "a"); ("color", JNull)];
          JDict [("name", JStr "b"); ("color", JNull)] ]
  | None => False
  end.
Proof.
  destruct (@ProjectData.from_dict sample_uuid
              [("global_tags", JList [JStr "a"; JStr "b"])] 0%nat)
    as [[e n']|] eqn:Hload.
  - exact (proj1 (@legacy_tag_migration sample_uuid)
             [("global_tags", JList [JStr "a"; JStr "b"])] [JStr "a"; JStr "b"]
             e 0%nat n' eq_refl Hload).
  - vm_compute in Hload. discriminate Hload.
Defined.

Lemma validate_and_clean_data_edges_witness :
  ProjectManager.is_project_open sample_manager = true
  ∧ ∃ stats pm' store',
      ProjectManager.validate_and_clean_data sample_manager
        {| papers_dir := None; images_dir := None |}
      = Some (stats, pm', store')
      ∧ stat "edges_removed" stats = Some 1%nat.
Proof.
  split; [reflexivity|].
  destruct (proj1 validate_and_clean_data_edges sample_manager
              {| papers_dir := None; images_dir := None |} sample_project
              eq_refl eq_refl)
    as (stats & pm' & store' & pd' & Hrun & _ & _ & _ & Hstat & _).
  exists stats, pm', store'. split; [exact Hrun|exact Hstat].
Defined.

Lemma raising_command_is_lost_witness :
  let m := {| _undo_stack := [TodoAddCommand "a" 0; AddNodeCommand []];
              _redo_stack := []; _is_undoing := false |} in
  match @undo sample_uuid (AddNodeCommand []) (todo_world []) with
  | Raise w' =>
      ∃ m', @manager_undo sample_uuid m (todo_world []) = Thrown m' w'
            ∧ _is_undoing m' = false
            ∧ _undo_stack m = _undo_stack m' ++ [AddNodeCommand []]
            ∧ _redo_stack m' = _redo_stack m
  | Ok _ _ => False
  end.
Proof.
  intros m.
  destruct (@undo sample_uuid (AddNodeCommand []) (todo_world []))
    as [c' w'|w'] eqn:Hundo.
  - vm_compute in Hundo. discriminate Hundo.
  - exact (proj1 (@raising_command_is_lost sample_uuid) m (todo_world [])
             (AddNodeCommand []) w' eq_refl Hundo).
Defined.

(** ** Persistence of the history *)

Lemma as_opt_str_to_json o : as_opt_str (opt_str_to_json o) = Some o.
Proof. by destruct o. Qed.

Lemma deserialize_to_dict ctx c :
  _deserialize_command ctx (JDict (to_dict c)) = Loaded (reloaded ctx c).
Proof.
  destruct c; try reflexivity.
  - unfold _deserialize_command. cbn. by rewrite as_opt_str_to_json.
  - unfold _deserialize_command. cbn. by rewrite !as_opt_str_to_json.
  - unfold _deserialize_command. cbn. by rewrite mapM_as_dict.
  - unfold _deserialize_command. cbn.
    destruct old_pos as [ox oy], new_pos as [nx ny]. cbn.
    destruct child_positions as [cp|]; cbn.
    + by rewrite mapM_child_positions.
    + done.
  - unfold _deserialize_command. cbn. by rewrite !as_opt_str_to_json.
Qed.

(** X1. What [to_dict] writes for a command, [_deserialize_command] reads
    back as the same command, for each of the 22 classes of the registry; a
    group move comes back with the flag of the first execute cleared, and
    with a fresh snapshot when it was saved without one. *)
Theorem command_registry_round_trip ctx c :
  _deserialize_command ctx (JDict (to_dict c)) = Loaded (reloaded ctx c)
  ∧ match c with
    | GroupMoveCommand group_id old_pos new_pos (Some children) _ =>
        reloaded ctx c
        = GroupMoveCommand group_id old_pos new_pos (Some children) false
    | GroupMoveCommand group_id old_pos new_pos None _ =>
        reloaded ctx c
        = GroupMoveCommand group_id old_pos new_pos
            ((λ sc, snapshot_children sc group_id old_pos new_pos) <$> scene ctx)
            false
    | _ => reloaded ctx c = c
    end.
Proof.
  split; [apply deserialize_to_dict|].
  destruct c; try reflexivity.
  destruct child_positions as [children|]; [reflexivity|].
  cbn. unfold __post_init__. by destruct (scene ctx).
Qed.

Lemma load_stack_saved ctx (l : list Command) :
  load_stack ctx ((λ cmd, JDict (to_dict cmd)) <$> l) = Some (reloaded ctx <$> l).
Proof.
  induction l as [|c l IH]; [done|].
  cbn [fmap list_fmap load_stack]. change (list_fmap _ _ ?f l) with (f <$> l).
  by rewrite deserialize_to_dict, IH.
Qed.

Lemma load_after_save m m' p w :
  load_from_file m' p (save_to_file m p w)
  = reloaded_stacks (context w) m (_is_undoing m').
Proof.
  unfold load_from_file, save_to_file. cbn [history_files context].
  rewrite lookup_insert_eq. unfold load_stacks. cbn.
  by rewrite !load_stack_saved.
Qed.

(** X2. Loading the history file that [save_to_file] has just written
    gives back both stacks, command by command and in order, whatever the
    manager that loads held before; its guard is left as it was.  Saving
    changes nothing but the history file of that project. *)
Theorem history_file_round_trip m m' project_path w :
  load_from_file m' project_path (save_to_file m project_path w)
  = {| _undo_stack := reloaded (context w) <$> _undo_stack m;
       _redo_stack := reloaded (context w) <$> _redo_stack m;
       _is_undoing := _is_undoing m' |}
  ∧ context (save_to_file m project_path w) = context w
  ∧ (∀ other,
       history_path other ≠ history_path project_path →
       history_files (save_to_file m project_path w) !! history_path other
       = history_files w !! history_path other).
Proof.
  split; [apply load_after_save|]. split; [reflexivity|].
  intros other Hother. unfold save_to_file. cbn [history_files].
  by rewrite lookup_insert_ne.
Qed.

Lemma context_save_history m w : context (_save_history_if_possible m w) = context w.
Proof.
  unfold _save_history_if_possible.
  destruct (project_manager (context w)) as [pm|]; [|done].
  by destruct (ProjectManager.current_project_path pm).
Qed.

Ltac each_key H :=
  repeat (apply elem_of_cons in H as [->|H]); [..|by apply elem_of_nil in H].

(** X18. A saved command from which ["type"] or a key that its class reads
    with [data[key]] has been deleted is dropped by [_deserialize_command]
    without an exception.  The keys read with [data.get] are optional: a tag
    addition without ["tag_index"] loads with index [-1], a group change
    without a group id loads with [None] there, and a group move without
    ["child_positions"] loads with an empty snapshot. *)
Theorem missing_field_drops_command ctx c :
  (∀ k, k ∈ "type" :: required_keys c →
        _deserialize_command ctx (JDict (dict_remove k (to_dict c))) = Absent)
  ∧ (∀ tag_name tag_index,
       _deserialize_command ctx
         (JDict (dict_remove "tag_index" (to_dict (TagAddCommand tag_name tag_index))))
       = Loaded (TagAddCommand tag_name (-1)))
  ∧ (∀ node_id old_group_id new_group_id,
       _deserialize_command ctx
         (JDict (dict_remove "old_group_id"
                   (to_dict (NodeGroupChangeCommand node_id old_group_id new_group_id))))
       = Loaded (NodeGroupChangeCommand node_id None new_group_id)
       ∧ _deserialize_command ctx
           (JDict (dict_remove "new_group_id"
                     (to_dict (NodeGroupChangeCommand node_id old_group_id
                                 new_group_id))))
         = Loaded (NodeGroupChangeCommand node_id old_group_id None))
  ∧ (∀ group_id old_pos new_pos child_positions _first_execute,
       _deserialize_command ctx
         (JDict (dict_remove "child_positions"
                   (to_dict (GroupMoveCommand group_id old_pos new_pos child_positions
                               _first_execute))))
       = Loaded (GroupMoveCommand group_id old_pos new_pos (Some []) false)).
Proof.
  split; [|split; [|split]].
  - intros k Hk. destruct c; cbn [required_keys] in Hk; each_key Hk;
      try reflexivity;
      unfold _deserialize_command; cbn;
      rewrite ?as_opt_str_to_json; cbn; reflexivity.
  - reflexivity.
  - intros node_id o n. unfold _deserialize_command. cbn.
    by rewrite !as_opt_str_to_json.
  - intros g [ox oy] [nx ny] cp fe. reflexivity.
Qed.

(** ** Undo and redo move commands between the stacks *)

Section UndoRedo.
Context `{UuidSource}.

(** X4. [undo] returns [False] and changes nothing exactly when
    [can_undo] is false, and so does [redo] with [can_redo].  An [undo] whose
    command returns takes the last command off the undo stack and puts it on
    the redo stack; the [redo] that follows takes it off the redo stack, runs
    it, and puts it back on the undo stack, so that both stacks have the
    length they had. *)
Theorem undo_redo_move_commands :
  (∀ m w, can_undo m = false → manager_undo m w = Returned false m w)
  ∧ (∀ m w, can_redo m = false → manager_redo m w = Returned false m w)
  ∧ (∀ m w m' w', can_undo m = true → manager_undo m w ≠ Returned false m' w')
  ∧ (∀ m w m' w', can_redo m = true → manager_redo m w ≠ Returned false m' w')
  ∧ (∀ m w st c c1 w1,
       _undo_stack m = st ++ [c] →
       undo c w = Ok c1 w1 →
       ∃ m' w',
         manager_undo m w = Returned true m' w'
         ∧ _undo_stack m' = st
         ∧ _redo_stack m' = _redo_stack m ++ [c1]
         ∧ context w' = context w1
         ∧ ∀ c2 w2,
             execute c1 w' = Ok c2 w2 →
             ∃ m'' w'',
               manager_redo m' w' = Returned true m'' w''
               ∧ _undo_stack m'' = st ++ [c2]
               ∧ _redo_stack m'' = _redo_stack m
               ∧ context w'' = context w2).
Proof.
  split; [|split; [|split; [|split]]].
  - intros m w Hcan. unfold can_undo in Hcan. apply bool_decide_eq_false in Hcan.
    unfold manager_undo. destruct (_undo_stack m) as [|c st] eqn:Hst; [done|].
    by destruct Hcan.
  - intros m w Hcan. unfold can_redo in Hcan. apply bool_decide_eq_false in Hcan.
    unfold manager_redo. destruct (_redo_stack m) as [|c st] eqn:Hst; [done|].
    by destruct Hcan.
  - intros m w m' w' Hcan. unfold can_undo in Hcan. apply bool_decide_eq_true in Hcan.
    unfold manager_undo. destruct (last (_undo_stack m)) as [c|] eqn:Hlast.
    + by destruct (undo c w).
    + by apply last_None in Hlast.
  - intros m w m' w' Hcan. unfold can_redo in Hcan. apply bool_decide_eq_true in Hcan.
    unfold manager_redo. destruct (last (_redo_stack m)) as [c|] eqn:Hlast.
    + by destruct (execute c w).
    + by apply last_None in Hlast.
  - intros m w st c c1 w1 Hst Hundo. unfold manager_undo.
    rewrite Hst, last_snoc, Hundo. eexists _, _. split; [reflexivity|]. cbn.
    rewrite Hst, removelast_last. split; [done|]. split; [done|].
    split; [apply context_save_history|].
    intros c2 w2 Hex. unfold manager_redo. cbn.
    rewrite last_snoc, Hex. eexists _, _. split; [reflexivity|]. cbn.
    rewrite removelast_last. split; [done|]. split; [done|].
    apply context_save_history.
Qed.
End UndoRedo.

(** ** Guards and flags of the commands *)

Lemma flag_cleared_finally {A} (body : Act A) w :
  flag_cleared
    (result_world
       (try_finally body (on_scene_world (λ sc, with_is_undo_operation sc false)) w)).
Proof.
  unfold try_finally.
  assert (Hclean : ∀ w', flag_cleared
            (on_scene_world (λ sc, with_is_undo_operation sc false) w')).
  { intros w' sc. unfold on_scene_world.
    destruct (scene (context w')) as [sc'|] eqn:Hsc; cbn; [|congruence].
    by intros [= <-]. }
  destruct (body w) as [a w'|w']; apply Hclean.
Qed.

Lemma on_scene_Ok f w : on_scene f w = Ok () (on_scene_world f w).
Proof. unfold on_scene, on_scene_world. by destruct (scene (context w)). Qed.

Lemma flag_cleared_remove_node d w :
  flag_cleared (result_world (remove_node_or_waypoint d w)).
Proof.
  unfold remove_node_or_waypoint. cbv [mbind Act_bind has_scene].
  destruct (scene (context w)) as [sc|] eqn:Hsc.
  - rewrite on_scene_Ok. apply flag_cleared_finally.
  - cbn. intros sc. congruence.
Qed.

Lemma flag_cleared_remove_edge d w :
  flag_cleared (result_world (remove_edge_of d w)).
Proof.
  unfold remove_edge_of. cbv [mbind Act_bind has_scene].
  destruct (scene (context w)) as [sc|] eqn:Hsc.
  - rewrite on_scene_Ok. apply flag_cleared_finally.
  - cbn. intros sc. congruence.
Qed.

Lemma result_world_bind_ret {A} (m : Act unit) (c : A) w :
  result_world ((_ ← m; mret c) w) = result_world (m w).
Proof. unfold mbind, Act_bind. by destruct (m w) as [[] w'|w']. Qed.

Section Flag.
Context `{UuidSource}.

(** X5. [AddNodeCommand.undo], [RemoveNodeCommand.execute],
    [AddEdgeCommand.undo] and [RemoveEdgeCommand.execute] leave the flag
    [_is_undo_operation] of the scene cleared on every exit, whatever it was
    before; on a dictionary without ["id"] they raise, and the scene is as it
    was but for the cleared flag. *)
Theorem undo_operation_flag_is_cleared :
  (∀ d es w,
     flag_cleared (result_world (undo (AddNodeCommand d) w))
     ∧ flag_cleared (result_world (execute (RemoveNodeCommand d es) w))
     ∧ flag_cleared (result_world (undo (AddEdgeCommand d) w))
     ∧ flag_cleared (result_world (execute (RemoveEdgeCommand d) w)))
  ∧ (∀ d es w sc,
       scene (context w) = Some sc →
       dict_get "id" d = None →
       let w' := with_context w
                   (with_scene (context w) (with_is_undo_operation sc false)) in
       undo (AddNodeCommand d) w = Raise w'
       ∧ execute (RemoveNodeCommand d es) w = Raise w'
       ∧ undo (AddEdgeCommand d) w = Raise w'
       ∧ execute (RemoveEdgeCommand d) w = Raise w').
Proof.
  split.
  - intros d es w. cbn [execute undo]. rewrite !result_world_bind_ret.
    auto using flag_cleared_remove_node, flag_cleared_remove_edge.
  - intros d es w sc Hsc Hid. cbn [execute undo].
    unfold remove_node_or_waypoint, remove_edge_of, mbind, Act_bind, has_scene,
      on_scene, try_finally, of_option, item, on_scene_world.
    rewrite Hid. destruct w as [[pd s pm mp] n files]. cbn in *. subst s. cbn.
    by destruct sc.
Qed.
End Flag.

Section Guards.
Context `{UuidSource}.

(** X8. The commands are guarded by [hasattr]: without a dock, the todo,
    tag and description commands return and change nothing; without a scene,
    the canvas commands return and change nothing (a group move still clears
    its flag); without any of the four attributes, so do the colour
    commands.  None of them raises there, even on a malformed dictionary. *)
Theorem commands_guarded_by_hasattr :
  (∀ c w,
     project_dock (context w) = None →
     match c with
     | DescriptionChangeCommand _ _ | TodoAddCommand _ _ | TodoRemoveCommand _ _ _
     | TodoEditCommand _ _ _ | TodoToggleCommand _ _ | TodoMoveCommand _ _
     | TagAddCommand _ _ | TagRemoveCommand _ _ _ | TagRenameCommand _ _
     | TagColorChangeCommand _ _ _ | TagMoveCommand _ _ =>
         execute c w = Ok c w ∧ undo c w = Ok c w
     | _ => True
     end)
  ∧ (∀ c w,
       scene (context w) = None →
       match c with
       | NodePositionCommand _ _ _ _ _ | AddNodeCommand _ | RemoveNodeCommand _ _
       | AddEdgeCommand _ | RemoveEdgeCommand _ | AddGroupCommand _
       | RemoveGroupCommand _ | NodeGroupChangeCommand _ _ _ =>
           execute c w = Ok c w ∧ undo c w = Ok c w
       | GroupMoveCommand group_id old_pos new_pos child_positions _ =>
           execute c w = Ok (GroupMoveCommand group_id old_pos new_pos
                               child_positions false) w
           ∧ undo c w = Ok c w
       | _ => True
       end)
  ∧ (∀ c w,
       project_dock (context w) = None →
       scene (context w) = None →
       project_manager (context w) = None →
       module_palette (context w) = None →
       match c with
       | GlobalEdgeColorChangeCommand _ _ _ _
       | ModulePaletteColorChangeCommand _ _ _ =>
           execute c w = Ok c w ∧ undo c w = Ok c w
       | _ => True
       end).
Proof.
  split; [|split].
  - intros c w Hd. destruct c; try exact I; cbn [execute undo];
      unfold mbind, Act_bind, on_dock;
      repeat (progress (cbn beta iota; rewrite ?Hd)); done.
  - intros c w Hs.
    destruct c; try exact I; cbn [execute undo];
      unfold remove_node_or_waypoint, restore_edge_from, remove_edge_of,
        restore_group_from, remove_group_of, _move_to, _apply_grouping,
        mbind, Act_bind, has_scene, on_scene;
      repeat (progress (cbn beta iota; rewrite ?Hs)); try done.
    match goal with |- context [if ?b then _ else _] => destruct b end;
      repeat (progress (cbn beta iota; rewrite ?Hs)); done.
  - intros c w Hd Hs Hp Hm. destruct c; try exact I; cbn [execute undo];
      unfold _apply_colors, apply_module_color, mbind, Act_bind, on_dock, on_scene,
        on_palette, on_project_data;
      repeat (progress (cbn beta iota; rewrite ?Hd, ?Hs, ?Hp, ?Hm)); done.
Qed.
End Guards.

Section Failures.
Context `{UuidSource}.

(** X19. When the [execute] of a command raises inside
    [UndoManager.execute], the exception escapes, the manager is as it was
    and no history file is written; no history file is written either when
    the command of [undo] or of [redo] raises, so that the file of the
    project still lists the command that the manager has lost. *)
Theorem failed_command_leaves_history_file :
  (∀ m c w w',
     _is_undoing m = false →
     execute c w = Raise w' →
     manager_execute m c w = Thrown m w'
     ∧ history_files w' = history_files w)
  ∧ (∀ m c w w',
       last (_undo_stack m) = Some c →
       undo c w = Raise w' →
       history_files (world_of (manager_undo m w)) = history_files w)
  ∧ (∀ m c w w',
       last (_redo_stack m) = Some c →
       execute c w = Raise w' →
       history_files (world_of (manager_redo m w)) = history_files w).
Proof.
  split; [|split].
  - intros m c w w' Hflag Hrun. unfold manager_execute. rewrite Hflag, Hrun.
    split; [done|]. pose proof (keeps_files_execute c w) as Hfiles.
    by rewrite Hrun in Hfiles.
  - intros m c w w' Hlast Hrun. unfold manager_undo. rewrite Hlast, Hrun. cbn.
    pose proof (keeps_files_undo c w) as Hfiles. by rewrite Hrun in Hfiles.
  - intros m c w w' Hlast Hrun. unfold manager_redo. rewrite Hlast, Hrun. cbn.
    pose proof (keeps_files_execute c w) as Hfiles. by rewrite Hrun in Hfiles.
Qed.
End Failures.

(** ** Group membership and positions *)

Lemma elem_of_remove_first i x l : i ≠ x → i ∈ remove_first x l ↔ i ∈ l.
Proof.
  intros Hne. induction l as [|y l IH]; [done|]. cbn.
  destruct (String.eqb_spec y x) as [->|Hy].
  - rewrite elem_of_cons. split; [by right|]. by intros [?|?].
  - by rewrite !elem_of_cons, IH.
Qed.

Lemma remove_first_sub i x l : i ∈ remove_first x l → i ∈ l.
Proof.
  induction l as [|y l IH]; [done|]. cbn.
  destruct (String.eqb_spec y x) as [->|Hy]; rewrite !elem_of_cons; [by right|].
  intros [?|?]; [by left|right; by apply IH].
Qed.

Lemma NoDup_remove_first x l :
  NoDup l → NoDup (remove_first x l) ∧ x ∉ remove_first x l.
Proof.
  induction 1 as [|y l Hy Hl IH]; cbn.
  - split; [constructor|]. by intros ?%elem_of_nil.
  - destruct (String.eqb_spec y x) as [->|Hne]; [done|].
    destruct IH as [IH1 IH2]. split.
    + constructor; [|done]. by intros ?%remove_first_sub.
    + rewrite not_elem_of_cons. split; [congruence|done].
Qed.

Lemma detach_ids node_id g :
  (NoDup (GroupData.node_ids (group_data g)) →
   NoDup (GroupData.node_ids (group_data (detach node_id g)))
   ∧ node_id ∉ GroupData.node_ids (group_data (detach node_id g)))
  ∧ (∀ i, i ≠ node_id →
          i ∈ GroupData.node_ids (group_data (detach node_id g))
          ↔ i ∈ GroupData.node_ids (group_data g)).
Proof.
  unfold detach. destruct (contains node_id _) eqn:Hc.
  - destruct g as [gp [i nm pos wd ht c ids]]; cbn in *. split.
    + apply NoDup_remove_first.
    + intros j Hj. by apply elem_of_remove_first.
  - split; [|done]. intros Hnd. split; [done|].
    intros Hin%contains_spec. congruence.
Qed.

Lemma attach_ids node_id g :
  (NoDup (GroupData.node_ids (group_data g)) →
   NoDup (GroupData.node_ids (group_data (attach node_id g))))
  ∧ node_id ∈ GroupData.node_ids (group_data (attach node_id g))
  ∧ (∀ i, i ≠ node_id →
          i ∈ GroupData.node_ids (group_data (attach node_id g))
          ↔ i ∈ GroupData.node_ids (group_data g)).
Proof.
  unfold attach. destruct (contains node_id _) eqn:Hc.
  - split; [done|]. split; [by apply contains_spec|done].
  - assert (Hni : node_id ∉ GroupData.node_ids (group_data g)).
    { intros Hin%contains_spec. congruence. }
    destruct g as [gp [i nm pos wd ht c ids]]; cbn in *. split; [|split].
    + intros Hnd. apply NoDup_app. split; [done|]. split.
      * intros x Hx ->%list_elem_of_singleton. done.
      * apply NoDup_singleton.
    + rewrite elem_of_app, list_elem_of_singleton. by right.
    + intros j Hj. rewrite elem_of_app, list_elem_of_singleton. split; [|by left].
      by intros [?|?].
Qed.

Lemma groups_apply_grouping node_id from_group_id to_group_id sc :
  _groups (apply_grouping_scene node_id from_group_id to_group_id sc)
  = alter_at (attach node_id) (effective to_group_id)
      (alter_at (detach node_id) (effective from_group_id) (_groups sc)).
Proof. by rewrite apply_grouping_scene_unfold. Qed.

Lemma lookup_alter_at {V} (f : V → V) ko (m : gmap string V) k :
  alter_at f ko m !! k = (if decide (ko = Some k) then f else id) <$> m !! k.
Proof.
  destruct ko as [o|]; cbn.
  - rewrite lookup_alter. case_decide as Ho; subst.
    + by rewrite decide_True.
    + rewrite decide_False by congruence. by destruct (m !! k).
  - rewrite decide_False by done. by destruct (m !! k).
Qed.

(** X6. [_apply_grouping] never makes a member list worse: in every group
    of the scene the members other than the node are the same as before, a
    list without duplicates stays without duplicates, the node is a member
    of the group it joins, it is no longer a member of the group it leaves
    (when that list had no duplicates), and a group that is neither is
    untouched. *)
Theorem apply_grouping_membership node_id from_group_id to_group_id sc k g :
  _groups sc !! k = Some g →
  ∃ g',
    _groups (apply_grouping_scene node_id from_group_id to_group_id sc) !! k = Some g'
    ∧ (NoDup (GroupData.node_ids (group_data g)) →
       NoDup (GroupData.node_ids (group_data g')))
    ∧ (∀ i, i ≠ node_id →
            i ∈ GroupData.node_ids (group_data g')
            ↔ i ∈ GroupData.node_ids (group_data g))
    ∧ (to_group_id = Some k → truthy to_group_id = true →
       node_id ∈ GroupData.node_ids (group_data g'))
    ∧ (from_group_id = Some k → truthy from_group_id = true →
       to_group_id ≠ Some k →
       NoDup (GroupData.node_ids (group_data g)) →
       node_id ∉ GroupData.node_ids (group_data g'))
    ∧ (from_group_id ≠ Some k → to_group_id ≠ Some k → g' = g).
Proof.
  intros Hg. rewrite groups_apply_grouping, !lookup_alter_at, Hg. cbn.
  eexists. split; [reflexivity|].
  destruct (detach_ids node_id g) as [Hd1 Hd2].
  unfold effective.
  destruct (decide ((if truthy from_group_id then from_group_id else None) = Some k))
    as [Hfrom|Hfrom],
    (decide ((if truthy to_group_id then to_group_id else None) = Some k))
    as [Hto|Hto]; cbn.
  - destruct (attach_ids node_id (detach node_id g)) as (Ha1 & Ha2 & Ha3).
    destruct (truthy from_group_id), (truthy to_group_id); try done. subst.
    split; [intros Hnd; by apply Ha1, Hd1|]. split.
    { intros i Hi. by rewrite Ha3, Hd2. }
    split; [done|]. split; [done|]. done.
  - destruct (truthy from_group_id) eqn:Hft; [|done]. subst.
    split; [intros Hnd; by apply Hd1|]. split; [done|].
    split.
    { intros -> Htt. rewrite Htt in Hto. done. }
    split; [intros _ _ _ Hnd; by apply Hd1|]. done.
  - destruct (attach_ids node_id g) as (Ha1 & Ha2 & Ha3).
    destruct (truthy to_group_id) eqn:Htt; [|done]. subst.
    split; [done|]. split; [done|]. split; [done|]. split; [|done].
    intros -> Hft. by rewrite Hft in Hfrom.
  - split; [done|]. split; [done|]. split.
    { intros -> Htt. by rewrite Htt in Hto. }
    split; [|done]. intros -> Hft. by rewrite Hft in Hfrom.
Qed.

Lemma node_set_position_sync x y n : node_in_sync (node_set_position x y n).
Proof. by destruct n as [ip [i ty pos tg md sn] col gc b mt]. Qed.

Lemma place_sync dx dy children i n :
  node_in_sync n → node_in_sync (place dx dy children i n).
Proof.
  unfold place. destruct (last_binding children i) as [[ox oy]|]; [|done].
  intros _. apply node_set_position_sync.
Qed.

Lemma update_node_sync node_id x y sc :
  scene_in_sync sc → scene_in_sync (update_node node_id (node_set_position x y) sc).
Proof.
  intros (Hn & Hw & Hg). split; [|split].
  - intros i n. rewrite update_node_nodes.
    destruct (_nodes sc !! i) as [n0|] eqn:Hi; [|done]. cbn. intros [= <-].
    case_decide; [apply node_set_position_sync|by eapply Hn].
  - intros i n. rewrite update_node_waypoints.
    destruct (_waypoints sc !! i) as [n0|] eqn:Hi; [|done]. cbn. intros [= <-].
    case_decide; [|by eapply Hw].
    destruct (_nodes sc !! i); [by eapply Hw|apply node_set_position_sync].
  - intros i g. rewrite (proj1 (update_node_rest _ _ _)). apply Hg.
Qed.

Lemma move_scene_to_sync group_id old_pos cp target sc :
  scene_in_sync sc → scene_in_sync (move_scene_to group_id old_pos cp target sc).
Proof.
  intros (Hn & Hw & Hg). rewrite move_scene_to_unfold.
  destruct (_groups sc !! group_id) as [g|] eqn:Hgr; [|done].
  split; [|split].
  - intros i n. rewrite move_children_nodes. cbn.
    destruct (_nodes sc !! i) as [n0|] eqn:Hi; [|done]. cbn. intros [= <-].
    apply place_sync. by eapply Hn.
  - intros i n. rewrite move_children_waypoints. cbn.
    destruct (_waypoints sc !! i) as [n0|] eqn:Hi; [|done]. cbn. intros [= <-].
    destruct (_nodes sc !! i); [by eapply Hw|]. apply place_sync. by eapply Hw.
  - intros i g'.
    match goal with
    | |- context [move_children ?dx ?dy ?cs ?sc0] =>
        rewrite (proj1 (move_children_rest dx dy cs sc0))
    end.
    cbn. rewrite lookup_insert. case_decide; [|apply Hg].
    intros [= <-]. by destruct g as [gp [? ? ? ? ? ? ?]].
Qed.

Lemma on_scene_run f w c' w' sc sc' (c : Command) :
  scene (context w) = Some sc →
  (_ ← on_scene f; mret c) w = Ok c' w' →
  scene (context w') = Some sc' →
  c' = c ∧ sc' = f sc.
Proof.
  intros Hsc. unfold mbind, Act_bind, on_scene. rewrite Hsc. cbn.
  intros [= <- <-]. cbn. by intros [= <-].
Qed.

Section Sync.
Context `{UuidSource}.

(** X7. [NodePositionCommand] and [GroupMoveCommand] write the position of
    an item and the position in its data together: in a scene where every
    item is shown where its data says, this still holds after [execute] and
    after [undo]. *)
Theorem moves_keep_positions_in_sync c w sc :
  match c with
  | NodePositionCommand _ _ _ _ _ | GroupMoveCommand _ _ _ _ _ => True
  | _ => False
  end →
  scene (context w) = Some sc →
  scene_in_sync sc →
  (∀ c' w' sc', execute c w = Ok c' w' → scene (context w') = Some sc' →
                scene_in_sync sc')
  ∧ (∀ c' w' sc', undo c w = Ok c' w' → scene (context w') = Some sc' →
                  scene_in_sync sc').
Proof.
  intros Hc Hsc Hsync. destruct c; try done; cbn [execute undo].
  - split; intros c' w' sc' Hrun Hsc';
      destruct (on_scene_run _ _ _ _ _ _ _ Hsc Hrun Hsc') as [_ ->];
      by apply update_node_sync.
  - unfold _move_to. split; intros c' w' sc' Hrun Hsc'.
    + destruct _first_execute.
      * injection Hrun as <- <-. rewrite Hsc in Hsc'. by injection Hsc' as <-.
      * destruct (on_scene_run _ _ _ _ _ _ _ Hsc Hrun Hsc') as [_ ->].
        by apply move_scene_to_sync.
    + destruct (on_scene_run _ _ _ _ _ _ _ Hsc Hrun Hsc') as [_ ->].
      by apply move_scene_to_sync.
Qed.
End Sync.

Section NodePosition.
Context `{UuidSource}.

End NodePosition.

(** ** Colours in the project data and in the scene *)

Lemma registry_get_adict_set {V} k (v : V) d k' :
  registry_get k' (adict_set k v d) = if decide (k' = k) then Some v else registry_get k' d.
Proof.
  induction d as [|[k0 v0] d IH]; cbn.
  - destruct (String.eqb_spec k' k); by case_decide.
  - destruct (String.eqb_spec k k0) as [<-|Hne]; cbn.
    + destruct (String.eqb_spec k' k); by case_decide.
    + rewrite IH. destruct (String.eqb_spec k' k0) as [->|?]; [|done].
      by rewrite decide_False by done.
Qed.

Lemma on_dock_total_pm g w :
  ∃ w', on_dock (λ d, Some (g d)) w = Ok () w'
        ∧ project_manager (context w') = project_manager (context w).
Proof.
  unfold on_dock. destruct (project_dock (context w)); by eexists.
Qed.

Lemma on_scene_pm f w :
  ∃ w', on_scene f w = Ok () w'
        ∧ project_manager (context w') = project_manager (context w).
Proof. unfold on_scene. destruct (scene (context w)); by eexists. Qed.

Lemma on_palette_pm f w :
  ∃ w', on_palette f w = Ok () w'
        ∧ project_manager (context w') = project_manager (context w).
Proof. unfold on_palette. destruct (module_palette (context w)); by eexists. Qed.

Lemma on_project_data_open f w pm pd :
  project_manager (context w) = Some pm →
  ProjectManager.is_project_open pm = true →
  ProjectManager.project_data pm = Some pd →
  ∃ w', on_project_data f w = Ok () w'
        ∧ project_manager (context w')
          = Some (ProjectManager.mk (ProjectManager.current_project_name pm)
                    (ProjectManager.current_project_path pm) (Some (f pd))).
Proof.
  intros Hpm Hopen Hpd. unfold on_project_data. rewrite Hpm, Hopen, Hpd. by eexists.
Qed.

Lemma on_project_data_closed f w pm :
  project_manager (context w) = Some pm →
  ProjectManager.is_project_open pm = false →
  on_project_data f w = Ok () w.
Proof. intros Hpm Hclosed. unfold on_project_data. by rewrite Hpm, Hclosed. Qed.

Lemma _apply_colors_pm pipeline reference w w1 :
  on_project_data (set_project_edge_colors pipeline reference) w = Ok () w1 →
  ∃ w', _apply_colors pipeline reference w = Ok () w'
        ∧ project_manager (context w') = project_manager (context w1).
Proof.
  intros Hpd. unfold _apply_colors, mbind, Act_bind. rewrite Hpd.
  destruct (on_dock_total_pm (dock_set_edge_colors pipeline reference) w1)
    as (w2 & -> & <-).
  destruct (on_scene_pm (scene_set_edge_colors pipeline reference) w2) as (w3 & -> & <-).
  destruct (on_palette_pm (waypoint_item_set_color pipeline) w3) as (w4 & -> & <-).
  by exists w4.
Qed.

Lemma apply_module_color_pm module_type color w w1 :
  on_project_data (set_project_module_color module_type color) w = Ok () w1 →
  ∃ w', apply_module_color module_type color w = Ok () w'
        ∧ project_manager (context w') = project_manager (context w1).
Proof.
  intros Hpd. unfold apply_module_color, mbind, Act_bind. rewrite Hpd.
  destruct (on_palette_pm (set_color_for_type module_type color) w1) as (w2 & -> & <-).
  destruct (on_scene_pm (recolor_scene module_type color) w2) as (w3 & -> & <-).
  by exists w3.
Qed.

Section Colors.
Context `{UuidSource}.

(** X16. With a project open, [GlobalEdgeColorChangeCommand.execute]
    writes the two new edge colours into the project data, and
    [ModulePaletteColorChangeCommand.execute] binds the module type to the
    new colour in [module_colors], adding the type when it is new and
    leaving the other types as they are; neither touches nodes or edges, and
    neither raises.  With a manager whose project is closed, [execute] and
    [undo] leave the manager alone. *)
Theorem color_commands_write_project_data :
  (∀ opc orc npc nrc w pm pd,
     project_manager (context w) = Some pm →
     ProjectManager.is_project_open pm = true →
     ProjectManager.project_data pm = Some pd →
     ∃ w' pm' pd',
       execute (GlobalEdgeColorChangeCommand opc orc npc nrc) w
       = Ok (GlobalEdgeColorChangeCommand opc orc npc nrc) w'
       ∧ project_manager (context w') = Some pm'
       ∧ ProjectManager.project_data pm' = Some pd'
       ∧ ProjectData.pipeline_edge_color pd' = npc
       ∧ ProjectData.reference_edge_color pd' = nrc
       ∧ ProjectData.module_colors pd' = ProjectData.module_colors pd
       ∧ ProjectData.nodes pd' = ProjectData.nodes pd
       ∧ ProjectData.edges pd' = ProjectData.edges pd)
  ∧ (∀ module_type old_color new_color w pm pd,
       project_manager (context w) = Some pm →
       ProjectManager.is_project_open pm = true →
       ProjectManager.project_data pm = Some pd →
       ∃ w' pm' pd',
         execute (ModulePaletteColorChangeCommand module_type old_color new_color) w
         = Ok (ModulePaletteColorChangeCommand module_type old_color new_color) w'
         ∧ project_manager (context w') = Some pm'
         ∧ ProjectManager.project_data pm' = Some pd'
         ∧ (∀ k, registry_get k (ProjectData.module_colors pd')
                 = if decide (k = module_type) then Some new_color
                   else registry_get k (ProjectData.module_colors pd))
         ∧ ProjectData.pipeline_edge_color pd' = ProjectData.pipeline_edge_color pd
         ∧ ProjectData.reference_edge_color pd' = ProjectData.reference_edge_color pd
         ∧ ProjectData.nodes pd' = ProjectData.nodes pd
         ∧ ProjectData.edges pd' = ProjectData.edges pd)
  ∧ (∀ c w pm,
       match c with
       | GlobalEdgeColorChangeCommand _ _ _ _
       | ModulePaletteColorChangeCommand _ _ _ => True
       | _ => False
       end →
       project_manager (context w) = Some pm →
       ProjectManager.is_project_open pm = false →
       ∃ w1 w2,
         execute c w = Ok c w1 ∧ project_manager (context w1) = Some pm
         ∧ undo c w = Ok c w2 ∧ project_manager (context w2) = Some pm).
Proof.
  split; [|split].
  - intros opc orc npc nrc w pm pd Hpm Hopen Hpd. cbn [execute].
    destruct (on_project_data_open (set_project_edge_colors npc nrc) w pm pd
                Hpm Hopen Hpd) as (w1 & Hrun & Hpm1).
    destruct (_apply_colors_pm npc nrc w w1 Hrun) as (w' & Hrun' & Hpm').
    eexists w', _, _. unfold mbind, Act_bind. rewrite Hrun'.
    split; [done|]. rewrite Hpm', Hpm1. by repeat split.
  - intros module_type old_color new_color w pm pd Hpm Hopen Hpd. cbn [execute].
    destruct (on_project_data_open (set_project_module_color module_type new_color)
                w pm pd Hpm Hopen Hpd) as (w1 & Hrun & Hpm1).
    destruct (apply_module_color_pm module_type new_color w w1 Hrun)
      as (w' & Hrun' & Hpm').
    eexists w', _, _. unfold mbind, Act_bind. rewrite Hrun'.
    split; [done|]. rewrite Hpm', Hpm1. split; [done|]. split; [done|].
    split; [|by repeat split].
    intros k. cbn. apply registry_get_adict_set.
  - intros c w pm Hc Hpm Hclosed. destruct c; try done; cbn [execute undo];
      unfold mbind, Act_bind.
    + destruct (_apply_colors_pm new_pipeline_color new_reference_color w w
                  (on_project_data_closed _ w pm Hpm Hclosed)) as (w1 & Hr1 & Hp1).
      destruct (_apply_colors_pm old_pipeline_color old_reference_color w w
                  (on_project_data_closed _ w pm Hpm Hclosed)) as (w2 & Hr2 & Hp2).
      exists w1, w2. rewrite Hr1, Hr2, Hp1, Hp2. done.
    + destruct (apply_module_color_pm module_type new_color w w
                  (on_project_data_closed _ w pm Hpm Hclosed)) as (w1 & Hr1 & Hp1).
      destruct (apply_module_color_pm module_type old_color w w
                  (on_project_data_closed _ w pm Hpm Hclosed)) as (w2 & Hr2 & Hp2).
      exists w1, w2. rewrite Hr1, Hr2, Hp1, Hp2. done.
Qed.
End Colors.

(** X20. The scene step of [ModulePaletteColorChangeCommand] recolours
    among the nodes only the pipeline modules of the given type: every other
    node is left as it is, no node is added or removed, the waypoints and
    the edges are untouched, and the groups are touched only for the type
    ["group"], none being added or removed. *)
Theorem recolor_scene_leaves_others module_type color sc :
  (∀ i n, _nodes sc !! i = Some n →
          is_pipeline_module_item n && String.eqb (item_module_type n) module_type
          = false →
          _nodes (recolor_scene module_type color sc) !! i = Some n)
  ∧ (∀ i, _nodes (recolor_scene module_type color sc) !! i = None
          ↔ _nodes sc !! i = None)
  ∧ _waypoints (recolor_scene module_type color sc) = _waypoints sc
  ∧ _edges (recolor_scene module_type color sc) = _edges sc
  ∧ (module_type ≠ "group" → _groups (recolor_scene module_type color sc) = _groups sc)
  ∧ (∀ i, _groups (recolor_scene module_type color sc) !! i = None
          ↔ _groups sc !! i = None).
Proof.
  unfold recolor_scene.
  destruct (String.eqb_spec module_type "group") as [Hgr|Hgr]; cbn;
    (split; [|split; [|split; [|split; [|split]]]]); try done.
  - intros i n Hn Hother. by rewrite lookup_fmap, Hn; cbn; rewrite Hother.
  - intros i. rewrite lookup_fmap. by destruct (_nodes sc !! i).
  - intros i. rewrite lookup_fmap. by destruct (_groups sc !! i).
  - intros i n Hn Hother. by rewrite lookup_fmap, Hn; cbn; rewrite Hother.
  - intros i. rewrite lookup_fmap. by destruct (_nodes sc !! i).
Qed.

(** ** Queries and repair of a project *)

(** X9. [get_node_by_id] returns the first node of the project with the
    given id, and [None] exactly when no node has it. *)
Theorem get_node_by_id_first_match pd node_id :
  match ProjectData.get_node_by_id pd node_id with
  | Some n =>
      NodeData.id n = node_id
      ∧ ∃ before after,
          ProjectData.nodes pd = before ++ n :: after
          ∧ ∀ m, m ∈ before → NodeData.id m ≠ node_id
  | None => ∀ m, m ∈ ProjectData.nodes pd → NodeData.id m ≠ node_id
  end.
Proof.
  unfold ProjectData.get_node_by_id.
  induction (ProjectData.nodes pd) as [|n nodes IH]; cbn.
  - by intros m ?%elem_of_nil.
  - destruct (String.eqb_spec (NodeData.id n) node_id) as [Heq|Hne].
    + split; [done|]. exists [], nodes. split; [done|]. by intros m ?%elem_of_nil.
    + destruct (find _ nodes) as [n'|].
      * destruct IH as (Hid & before & after & -> & Hbefore). split; [done|].
        exists (n :: before), after. split; [done|].
        intros m [->|Hm]%elem_of_cons; [done|by apply Hbefore].
      * intros m [->|Hm]%elem_of_cons; [done|by apply IH].
Qed.

Lemma is_node_id_get_node_by_id pd i :
  is_node_id (ProjectData.nodes pd) i = true →
  ∃ n, ProjectData.get_node_by_id pd i = Some n ∧ NodeData.id n = i.
Proof.
  unfold is_node_id, ProjectData.get_node_by_id.
  induction (ProjectData.nodes pd) as [|n nodes IH]; cbn; [done|].
  destruct (String.eqb_spec (NodeData.id n) i) as [Heq|Hne]; cbn; [by exists n|done].
Qed.

Lemma get_node_by_id_None pd i :
  ProjectData.get_node_by_id pd i = None → is_node_id (ProjectData.nodes pd) i = false.
Proof.
  unfold is_node_id, ProjectData.get_node_by_id.
  induction (ProjectData.nodes pd) as [|n nodes IH]; cbn; [done|].
  by destruct (String.eqb (NodeData.id n) i).
Qed.

Lemma no_edges_for_missing nodes edges i :
  is_node_id nodes i = false →
  List.filter (λ e, String.eqb (EdgeData.source_id e) i
                    || String.eqb (EdgeData.target_id e) i)
    (List.filter (λ e, negb (dangling nodes e)) edges) = [].
Proof.
  intros Hnone. induction edges as [|e edges IH]; [done|]. cbn.
  destruct (dangling nodes e) eqn:He; cbn; [done|]. rewrite IH.
  unfold dangling in He.
  destruct (String.eqb_spec (EdgeData.source_id e) i) as [Hs|?].
  { by rewrite Hs, Hnone in He. }
  destruct (String.eqb_spec (EdgeData.target_id e) i) as [Ht|?]; [|done].
  rewrite Ht, Hnone in He. cbn in He. by rewrite orb_true_r in He.
Qed.

(** X10. After [validate_and_clean_data] on an open project, both
    endpoints of every edge are found by [get_node_by_id], and
    [get_edges_for_node] is empty for every id that [get_node_by_id] does not
    find. *)
Theorem repaired_edges_resolve pm store stats pm' store' pd' :
  ProjectManager.is_project_open pm = true →
  ProjectManager.validate_and_clean_data pm store = Some (stats, pm', store') →
  ProjectManager.project_data pm' = Some pd' →
  (∀ e, e ∈ ProjectData.edges pd' →
        ∃ s t,
          ProjectData.get_node_by_id pd' (EdgeData.source_id e) = Some s
          ∧ NodeData.id s = EdgeData.source_id e
          ∧ ProjectData.get_node_by_id pd' (EdgeData.target_id e) = Some t
          ∧ NodeData.id t = EdgeData.target_id e)
  ∧ (∀ i, ProjectData.get_node_by_id pd' i = None →
          ProjectData.get_edges_for_node pd' i = []).
Proof.
  intros Hopen Hrun Hpd'.
  destruct (ProjectManager.project_data pm) as [pd|] eqn:Hpd.
  2: { unfold ProjectManager.validate_and_clean_data in Hrun.
       by rewrite Hopen, Hpd in Hrun. }
  destruct (validate_and_clean_data_run pm store pd Hopen Hpd)
    as (stats0 & store0 & Hrun0 & _).
  rewrite Hrun0 in Hrun. injection Hrun as <- <- <-. cbn in Hpd'.
  injection Hpd' as <-.
  assert (Hvalid : ∀ e,
            e ∈ List.filter (λ e, negb (dangling (ProjectData.nodes pd) e))
                  (ProjectData.edges pd) →
            is_node_id (ProjectData.nodes pd) (EdgeData.source_id e) = true
            ∧ is_node_id (ProjectData.nodes pd) (EdgeData.target_id e) = true).
  { intros e [_ He]%list_elem_of_In%filter_In. unfold dangling in He.
    by destruct (is_node_id _ (EdgeData.source_id e)),
                (is_node_id _ (EdgeData.target_id e)). }
  split.
  - intros e He. cbn in He. destruct (Hvalid e He) as [Hs Ht].
    destruct (is_node_id_get_node_by_id
                (ProjectData.set_edges pd
                   (List.filter (λ e, negb (dangling (ProjectData.nodes pd) e))
                      (ProjectData.edges pd))) _ Hs) as (s & Hgs & His).
    destruct (is_node_id_get_node_by_id
                (ProjectData.set_edges pd
                   (List.filter (λ e, negb (dangling (ProjectData.nodes pd) e))
                      (ProjectData.edges pd))) _ Ht) as (t & Hgt & Hit).
    by exists s, t.
  - intros i Hnone%get_node_by_id_None. cbn in Hnone.
    unfold ProjectData.get_edges_for_node. cbn. by apply no_edges_for_missing.
Qed.

Lemma tags_as_records_dicts (l : list json) :
  Forall (λ tg, is_dict tg = true)
    ((λ tg, if is_dict tg then tg else ProjectData.tag_record tg) <$> l).
Proof.
  induction l as [|tg l IH]; constructor; [|done].
  by destruct (is_dict tg) eqn:Htg.
Qed.

Lemma to_dict_tags_as_records e :
  ProjectData.to_dict (tags_as_records e) = ProjectData.to_dict e.
Proof.
  unfold ProjectData.to_dict, tags_as_records. cbn. do 3 f_equal.
  apply to_dict_tags_valid, tags_as_records_dicts.
Qed.

Section SaveLoadSave.
Context `{UuidSource}.

(** X11. For every project, also one that still holds legacy tags:
    loading what [to_dict] wrote succeeds and gives the project with its tags
    as records, and saving that project writes the same document again. *)
Theorem project_save_load_save e n :
  fst <$> ProjectData.from_dict (ProjectData.to_dict e) n = Some (tags_as_records e)
  ∧ ProjectData.to_dict (tags_as_records e) = ProjectData.to_dict e.
Proof.
  split; [|apply to_dict_tags_as_records].
  rewrite <- to_dict_tags_as_records, ProjectData_round_trip; [done|].
  apply tags_as_records_dicts.
Qed.
End SaveLoadSave.

Ltac known_key :=
  repeat first [apply list_elem_of_here | apply list_elem_of_further].

Ltac same_keys H :=
  unfold get_str, get_num, get_bool, get_dict, get_list;
  repeat match goal with
         | |- context [dict_get ?k ?d] => rewrite (H k) by known_key
         end.

Lemma dict_get_unknown k v d k' : k' ≠ k → dict_get k' ((k, v) :: d) = dict_get k' d.
Proof. intros Hne. cbn. by destruct (String.eqb_spec k' k). Qed.

Section KnownKeys.
Context `{UuidSource}.

(** X15. Each [from_dict] of [models.py] reads only the keys of its own
    fields: two records that agree on them load alike, whatever else they
    hold and in whatever order; in particular a project document with an
    unknown key loads as it does without it. *)
Theorem from_dict_reads_known_keys :
  (∀ d d', same_on ["x"; "y"] d d' → Position.from_dict d = Position.from_dict d')
  ∧ (∀ d d', same_on ["id"; "type"; "content"; "source_label"] d d' →
             Snippet.from_dict d = Snippet.from_dict d')
  ∧ (∀ d d', same_on ["title"; "year"; "conference"; "relative_path_to_md";
                      "module_name"; "module_type"] d d' →
             NodeMetadata.from_dict d = NodeMetadata.from_dict d')
  ∧ (∀ d d', same_on ["id"; "type"; "position"; "tags"; "metadata"; "snippets"] d d' →
             NodeData.from_dict d = NodeData.from_dict d')
  ∧ (∀ d d', same_on ["id"; "source_id"; "target_id"] d d' →
             EdgeData.from_dict d = EdgeData.from_dict d')
  ∧ (∀ d d', same_on ["id"; "name"; "position"; "width"; "height"; "color";
                      "node_ids"] d d' →
             GroupData.from_dict d = GroupData.from_dict d')
  ∧ (∀ d d', same_on ["global_tags"; "nodes"; "edges"; "groups";
                      "pipeline_initialized"; "description"; "todos";
                      "pipeline_edge_color"; "reference_edge_color"; "dock_layout";
                      "module_colors"] d d' →
             ProjectData.from_dict d = ProjectData.from_dict d')
  ∧ (∀ k v d,
       k ∉ ["global_tags"; "nodes"; "edges"; "groups"; "pipeline_initialized";
            "description"; "todos"; "pipeline_edge_color"; "reference_edge_color";
            "dock_layout"; "module_colors"] →
       ProjectData.from_dict ((k, v) :: d) = ProjectData.from_dict d).
Proof.
  assert (Hproject : ∀ d d',
            same_on ["global_tags"; "nodes"; "edges"; "groups";
                     "pipeline_initialized"; "description"; "todos";
                     "pipeline_edge_color"; "reference_edge_color"; "dock_layout";
                     "module_colors"] d d' →
            ProjectData.from_dict d = ProjectData.from_dict d').
  { intros d d' Hsame. unfold ProjectData.from_dict. by same_keys Hsame. }
  repeat split; try exact Hproject.
  - intros d d' Hsame. unfold Position.from_dict. by same_keys Hsame.
  - intros d d' Hsame. unfold Snippet.from_dict. by same_keys Hsame.
  - intros d d' Hsame. unfold NodeMetadata.from_dict. by same_keys Hsame.
  - intros d d' Hsame. unfold NodeData.from_dict. by same_keys Hsame.
  - intros d d' Hsame. unfold EdgeData.from_dict. by same_keys Hsame.
  - intros d d' Hsame. unfold GroupData.from_dict. by same_keys Hsame.
  - intros k v d Hk. apply Hproject. intros k' Hk'. apply dict_get_unknown.
    intros ->. done.
Qed.
End KnownKeys.

(** ** Project names and assets *)

Lemma all_chars_filter p s : all_chars p (filter_chars p s) = true.
Proof.
  induction s as [|c s IH]; [done|]. cbn.
  destruct (p c) eqn:Hc; [|done]. cbn. by rewrite Hc.
Qed.

Lemma filter_chars_all p s : all_chars p s = true → filter_chars p s = s.
Proof.
  induction s as [|c s IH]; [done|]. cbn.
  intros [Hc Hs]%andb_prop. by rewrite Hc, IH.
Qed.

Lemma replace_char_valid s :
  all_chars (λ c, char_in c valid_chars) s = true → replace_char " " "_" s = s.
Proof.
  induction s as [|c s IH]; [done|]. cbn [all_chars replace_char].
  intros [Hc Hs]%andb_prop. rewrite (IH Hs).
  destruct (Ascii.eqb_spec c " ") as [->|Hne]; [|done].
  by vm_compute in Hc.
Qed.

(** X12. [sanitize_project_name] never returns the empty name, returns
    only letters, digits, [_] and [-], maps a name to itself when it is not
    empty and made of such characters, and is therefore idempotent. *)
Theorem sanitize_project_name_valid name :
  sanitize_project_name name ≠ ""
  ∧ all_chars (λ c, char_in c valid_chars) (sanitize_project_name name) = true
  ∧ sanitize_project_name (sanitize_project_name name) = sanitize_project_name name
  ∧ (name ≠ "" → all_chars (λ c, char_in c valid_chars) name = true →
     sanitize_project_name name = name).
Proof.
  assert (Hfix : ∀ s, s ≠ "" → all_chars (λ c, char_in c valid_chars) s = true →
                      sanitize_project_name s = s).
  { intros s Hne Hs. unfold sanitize_project_name.
    rewrite (replace_char_valid s Hs), (filter_chars_all _ s Hs).
    by destruct s. }
  assert (Hne : sanitize_project_name name ≠ "").
  { unfold sanitize_project_name. by destruct (filter_chars _ _). }
  assert (Hall : all_chars (λ c, char_in c valid_chars) (sanitize_project_name name)
                 = true).
  { unfold sanitize_project_name.
    destruct (filter_chars _ _) as [|c s] eqn:Hf.
    - by vm_compute.
    - rewrite <- Hf. apply all_chars_filter. }
  split; [done|]. split; [done|]. split; [by apply Hfix|]. apply Hfix.
Qed.

Lemma image_refs_snippets (snippets : list Snippet.t) : ∀ (acc : gset string) path,
  path ∈ foldl (λ image_paths snippet,
                  if String.eqb (Snippet.type snippet) "image"
                     && negb (String.eqb (Snippet.content snippet) "")
                  then {[ Snippet.content snippet ]} ∪ image_paths
                  else image_paths) acc snippets
  ↔ path ∈ acc
    ∨ ∃ snippet, snippet ∈ snippets ∧ Snippet.type snippet = "image"
                 ∧ Snippet.content snippet = path ∧ path ≠ "".
Proof.
  induction snippets as [|sn snippets IH]; intros acc path; cbn.
  - split; [by left|]. intros [?|(sn & ?%elem_of_nil & _)]; done.
  - rewrite IH. clear IH.
    destruct (String.eqb_spec (Snippet.type sn) "image") as [Hty|Hty];
      destruct (String.eqb_spec (Snippet.content sn) "") as [Hc|Hc]; cbn.
    + split.
      * intros [?|(s & Hs & ?)]; [by left|]. right. exists s. by rewrite elem_of_cons; auto.
      * intros [?|(s & [->|Hs]%elem_of_cons & Hst & Hsc & Hne)]; [by left| |].
        { congruence. }
        right. by exists s.
    + rewrite elem_of_union, elem_of_singleton. split.
      * intros [[->|?]|(s & Hs & ?)]; [|by left|].
        { right. exists sn. rewrite elem_of_cons. auto. }
        right. exists s. rewrite elem_of_cons. auto.
      * intros [?|(s & [->|Hs]%elem_of_cons & Hst & Hsc & Hne)]; [by left; right| |].
        { left. by left. }
        right. by exists s.
    + split.
      * intros [?|(s & Hs & ?)]; [by left|]. right. exists s. by rewrite elem_of_cons; auto.
      * intros [?|(s & [->|Hs]%elem_of_cons & Hst & Hsc & Hne)]; [by left| |].
        { congruence. }
        right. by exists s.
    + split.
      * intros [?|(s & Hs & ?)]; [by left|]. right. exists s. by rewrite elem_of_cons; auto.
      * intros [?|(s & [->|Hs]%elem_of_cons & Hst & Hsc & Hne)]; [by left| |].
        { congruence. }
        right. by exists s.
Qed.

Lemma get_referenced_assets_spec pm pd :
  ProjectManager.project_data pm = Some pd →
  (∀ path, path ∈ (ProjectManager.get_referenced_assets pm).1
           ↔ ∃ node, node ∈ ProjectData.nodes pd ∧ refers_to_paper path node)
  ∧ (∀ path, path ∈ (ProjectManager.get_referenced_assets pm).2
             ↔ ∃ node, node ∈ ProjectData.nodes pd ∧ refers_to_image path node).
Proof.
  intros Hpd. unfold ProjectManager.get_referenced_assets. rewrite Hpd.
  match goal with
  | |- context [foldl ?F _ _] =>
      assert (Hfold : ∀ nodes acc,
                (∀ path, path ∈ (foldl F acc nodes).1
                         ↔ path ∈ acc.1
                           ∨ ∃ node, node ∈ nodes ∧ refers_to_paper path node)
                ∧ (∀ path, path ∈ (foldl F acc nodes).2
                           ↔ path ∈ acc.2
                             ∨ ∃ node, node ∈ nodes ∧ refers_to_image path node))
  end.
  { induction nodes as [|node nodes IH]; intros [P I].
    - cbn. split; intros path; (split; [by left|]);
        intros [?|(n & ?%elem_of_nil & _)]; done.
    - cbn [foldl]. destruct (IH
        ((if String.eqb (NodeData.type node) "reference_paper"
             && negb (String.eqb (NodeMetadata.relative_path_to_md
                                    (NodeData.metadata node)) "")
          then {[ NodeMetadata.relative_path_to_md (NodeData.metadata node) ]} ∪ P
          else P),
         foldl (λ image_paths snippet,
                  if String.eqb (Snippet.type snippet) "image"
                     && negb (String.eqb (Snippet.content snippet) "")
                  then {[ Snippet.content snippet ]} ∪ image_paths
                  else image_paths) I (NodeData.snippets node))) as [IHp IHi].
      clear IH. split; intros path.
      + rewrite IHp. cbn [fst]. clear IHp IHi. unfold refers_to_paper.
        destruct (String.eqb_spec (NodeData.type node) "reference_paper") as [Hty|Hty];
          destruct (String.eqb_spec (NodeMetadata.relative_path_to_md
                                       (NodeData.metadata node)) "") as [Hmd|Hmd];
          cbn; rewrite ?elem_of_union, ?elem_of_singleton; split.
        all: try (intros [?|(n & Hn & ?)];
                  [by left|right; exists n; rewrite elem_of_cons; by auto]).
        all: try (intros [?|(n & [->|Hn]%elem_of_cons & Hnt & Hnm & Hne)];
                  [by left|congruence|right; by exists n]).
        * intros [[->|?]|(n & Hn & ?)]; [|by left|].
          { right. exists node. rewrite elem_of_cons. auto. }
          right. exists n. rewrite elem_of_cons. auto.
        * intros [?|(n & [->|Hn]%elem_of_cons & Hnt & Hnm & Hne)];
            [left; by right|left; by left|right; by exists n].
      + rewrite IHi. cbn [snd]. rewrite image_refs_snippets. clear IHp IHi.
        unfold refers_to_image. split.
        * intros [[?|Hs]|(n & Hn & ?)]; [by left| |].
          { right. exists node. rewrite elem_of_cons. auto. }
          right. exists n. rewrite elem_of_cons. auto.
        * intros [?|(n & [->|Hn]%elem_of_cons & Hs)];
            [left; by left|left; by right|right; by exists n]. }
  destruct (Hfold (ProjectData.nodes pd) (∅, ∅)) as [Hp Hi].
  split; intros path.
  - rewrite Hp. cbn. split; [intros [?%not_elem_of_empty|?]; done|by right].
  - rewrite Hi. cbn. split; [intros [?%not_elem_of_empty|?]; done|by right].
Qed.

Lemma clean_dir_spec prefix refs files :
  ProjectManager.clean_dir prefix refs files
  = (List.filter (λ f, negb (orphaned prefix refs f)) files,
     length (List.filter (orphaned prefix refs) files)).
Proof.
  induction files as [|f files IH]; [done|].
  cbn [ProjectManager.clean_dir List.filter]. rewrite IH.
  fold (orphaned prefix refs f). by destruct (orphaned prefix refs f).
Qed.

Lemma clean_dir_again prefix refs files :
  List.filter (orphaned prefix refs)
    (List.filter (λ f, negb (orphaned prefix refs f)) files) = []
  ∧ List.filter (λ f, negb (orphaned prefix refs f))
      (List.filter (λ f, negb (orphaned prefix refs f)) files)
    = List.filter (λ f, negb (orphaned prefix refs f)) files.
Proof.
  induction files as [|f files [IH1 IH2]]; [done|]. cbn.
  destruct (orphaned prefix refs f) eqn:Hf; cbn; [done|]. by rewrite Hf, IH1, IH2.
Qed.

(** X13. On an open project, [cleanup_orphaned_assets] removes from
    [assets/papers] exactly the regular files that no reference paper of
    the project points to and that [unlink] can remove, and from
    [assets/images] those that no image snippet points to; directories,
    referenced files and files that cannot be removed stay, in order; the
    two counts are the numbers of files removed; a second run removes
    nothing. *)
Theorem cleanup_orphaned_assets_effect pm pd store :
  ProjectManager.is_project_open pm = true →
  ProjectManager.project_data pm = Some pd →
  ∃ paper_refs image_refs : gset string,
    (∀ path, path ∈ paper_refs
             ↔ ∃ node, node ∈ ProjectData.nodes pd ∧ refers_to_paper path node)
    ∧ (∀ path, path ∈ image_refs
               ↔ ∃ node, node ∈ ProjectData.nodes pd ∧ refers_to_image path node)
    ∧ let store' :=
        {| papers_dir :=
             List.filter (λ f, negb (orphaned "assets/papers/" paper_refs f))
               <$> papers_dir store;
           images_dir :=
             List.filter (λ f, negb (orphaned "assets/images/" image_refs f))
               <$> images_dir store |} in
      ProjectManager.cleanup_orphaned_assets pm store
      = ((length (List.filter (orphaned "assets/papers/" paper_refs)
                    (default [] (papers_dir store))),
          length (List.filter (orphaned "assets/images/" image_refs)
                    (default [] (images_dir store)))),
         store')
      ∧ ProjectManager.cleanup_orphaned_assets pm store' = ((0%nat, 0%nat), store').
Proof.
  intros Hopen Hpd.
  destruct (get_referenced_assets_spec pm pd Hpd) as [Hp Hi].
  exists (ProjectManager.get_referenced_assets pm).1,
         (ProjectManager.get_referenced_assets pm).2.
  split; [exact Hp|]. split; [exact Hi|]. cbn zeta.
  unfold ProjectManager.cleanup_orphaned_assets. rewrite Hopen. cbn [negb].
  destruct (ProjectManager.get_referenced_assets pm) as [paper_refs image_refs].
  cbn [fst snd papers_dir images_dir].
  split.
  - destruct (papers_dir store) as [ps|], (images_dir store) as [im|]; cbn;
      by rewrite ?clean_dir_spec.
  - destruct (papers_dir store) as [ps|], (images_dir store) as [im|]; cbn;
      rewrite ?clean_dir_spec;
      rewrite ?(proj1 (clean_dir_again _ _ _)), ?(proj2 (clean_dir_again _ _ _));
      done.
Qed.

Lemma get_referenced_assets_edges name path pd edges :
  ProjectManager.get_referenced_assets
    (ProjectManager.mk name path (Some (ProjectData.set_edges pd edges)))
  = ProjectManager.get_referenced_assets (ProjectManager.mk name path (Some pd)).
Proof. reflexivity. Qed.

(** X14. On a manager with no project open, and so after
    [close_project], [cleanup_orphaned_assets] and [validate_and_clean_data]
    remove nothing and report nothing, although no asset is referenced then.
    On an open project [validate_and_clean_data] leaves the asset
    directories as [cleanup_orphaned_assets] alone would, and
    ["assets_removed"] is the sum of its two counts: which edges are removed
    has no effect on which assets are.  On an open manager without data it
    raises. *)
Theorem validate_and_clean_data_assets :
  (∀ pm store,
     ProjectManager.is_project_open pm = false →
     ProjectManager.cleanup_orphaned_assets pm store = ((0%nat, 0%nat), store)
     ∧ ProjectManager.validate_and_clean_data pm store = Some ([], pm, store))
  ∧ (∀ pm store,
       ProjectManager.cleanup_orphaned_assets (ProjectManager.close_project pm) store
       = ((0%nat, 0%nat), store))
  ∧ (∀ pm store pd,
       ProjectManager.is_project_open pm = true →
       ProjectManager.project_data pm = Some pd →
       ∃ stats pm' papers images,
         ProjectManager.validate_and_clean_data pm store
         = Some (stats, pm', (ProjectManager.cleanup_orphaned_assets pm store).2)
         ∧ ProjectManager.cleanup_orphaned_assets pm store
           = ((papers, images), (ProjectManager.cleanup_orphaned_assets pm store).2)
         ∧ stat "assets_removed" stats = Some (papers + images)%nat)
  ∧ (∀ pm store,
       ProjectManager.is_project_open pm = true →
       ProjectManager.project_data pm = None →
       ProjectManager.validate_and_clean_data pm store = None).
Proof.
  split; [|split; [|split]].
  - intros pm store Hclosed.
    unfold ProjectManager.validate_and_clean_data, ProjectManager.cleanup_orphaned_assets.
    by rewrite Hclosed.
  - done.
  - intros pm store pd Hopen Hpd.
    unfold ProjectManager.validate_and_clean_data. rewrite Hopen, Hpd.
    cbn [negb mbind option_bind].
    destruct (ProjectManager.validate_edges _ _) as [valid_edges removed].
    assert (Hsame : ProjectManager.cleanup_orphaned_assets
              (ProjectManager.mk (ProjectManager.current_project_name pm)
                 (ProjectManager.current_project_path pm)
                 (Some (ProjectData.set_edges pd valid_edges))) store
            = ProjectManager.cleanup_orphaned_assets pm store).
    { destruct pm as [name path data]. cbn in Hpd. subst data.
      unfold ProjectManager.cleanup_orphaned_assets.
      by rewrite get_referenced_assets_edges. }
    rewrite Hsame.
    destruct (ProjectManager.cleanup_orphaned_assets pm store) as [[np ni] store'].
    eexists _, _, np, ni. cbn. done.
  - intros pm store Hopen Hpd.
    unfold ProjectManager.validate_and_clean_data. by rewrite Hopen, Hpd.
Qed.

(** ** The further properties at sample inputs *)

Lemma undo_redo_move_commands_witness :
  can_undo new_UndoManager = false
  ∧ @manager_undo sample_uuid new_UndoManager (todo_world [])
    = Returned false new_UndoManager (todo_world []).
Proof.
  split; [reflexivity|].
  exact (proj1 (@undo_redo_move_commands sample_uuid) new_UndoManager (todo_world [])
           eq_refl).
Defined.

Lemma undo_operation_flag_is_cleared_witness :
  @undo sample_uuid (AddNodeCommand []) sample_group_world
  = Raise (with_context sample_group_world
             (with_scene (context sample_group_world)
                (with_is_undo_operation sample_group_scene false))).
Proof.
  exact (proj1 (proj2 (@undo_operation_flag_is_cleared sample_uuid) [] []
                  sample_group_world sample_group_scene eq_refl eq_refl)).
Defined.

Lemma apply_grouping_membership_witness :
  ∃ g',
    _groups (apply_grouping_scene "n" None (Some "h")
               (restore_group empty_group sample_group_scene)) !! "h" = Some g'
    ∧ "n" ∈ GroupData.node_ids (group_data g').
Proof.
  destruct (apply_grouping_membership "n" None (Some "h")
              (restore_group empty_group sample_group_scene) "h"
              (new_group_item empty_group) eq_refl)
    as (g' & Hg' & _ & _ & Hin & _).
  exists g'. split; [exact Hg'|]. exact (Hin eq_refl eq_refl).
Defined.

Lemma sample_group_scene_sync : scene_in_sync sample_group_scene.
Proof.
  split; [|split].
  - intros i n. unfold sample_group_scene, restore_group, restore_node. cbn.
    rewrite lookup_insert. case_decide; [|by rewrite lookup_empty].
    by intros [= <-].
  - intros i n. unfold sample_group_scene, restore_group, restore_node. cbn.
    by rewrite lookup_empty.
  - intros i g. unfold sample_group_scene, restore_group, restore_node. cbn.
    rewrite lookup_insert. case_decide; [|by rewrite lookup_empty].
    by intros [= <-].
Qed.

Lemma moves_keep_positions_in_sync_witness :
  match @execute sample_uuid (NodePositionCommand "n" 5 5 7 8) sample_group_world with
  | Ok _ w' =>
      match scene (context w') with
      | Some sc' => scene_in_sync sc'
      | None => False
      end
  | Raise _ => False
  end.
Proof.
  destruct (@execute sample_uuid (NodePositionCommand "n" 5 5 7 8) sample_group_world)
    as [c' w'|w'] eqn:Hrun; [|vm_compute in Hrun; discriminate Hrun].
  destruct (scene (context w')) as [sc'|] eqn:Hsc'.
  - exact (proj1 (@moves_keep_positions_in_sync sample_uuid
                    (NodePositionCommand "n" 5 5 7 8) sample_group_world
                    sample_group_scene I eq_refl sample_group_scene_sync)
             c' w' sc' Hrun Hsc').
  - vm_compute in Hrun. injection Hrun as _ <-. discriminate Hsc'.
Defined.

Lemma commands_guarded_by_hasattr_witness :
  @execute sample_uuid (TodoAddCommand "a" 0) headless_world
  = Ok (TodoAddCommand "a" 0) headless_world
  ∧ @undo sample_uuid (TodoAddCommand "a" 0) headless_world
    = Ok (TodoAddCommand "a" 0) headless_world.
Proof.
  exact (proj1 (@commands_guarded_by_hasattr sample_uuid) (TodoAddCommand "a" 0)
           headless_world eq_refl).
Defined.

Lemma repaired_edges_resolve_witness :
  ProjectData.get_edges_for_node
    (ProjectData.set_edges sample_project [EdgeData.mk "e1" "A" "B"]) "missing" = [].
Proof.
  exact (proj2 (repaired_edges_resolve sample_manager
                  {| papers_dir := None; images_dir := None |}
                  [("edges_removed", 1%nat); ("assets_removed", 0%nat)]
                  (ProjectManager.mk (Some "demo") (Some "projects/demo")
                     (Some (ProjectData.set_edges sample_project
                              [EdgeData.mk "e1" "A" "B"])))
                  {| papers_dir := None; images_dir := None |}
                  (ProjectData.set_edges sample_project [EdgeData.mk "e1" "A" "B"])
                  eq_refl eq_refl eq_refl)
           "missing" eq_refl).
Defined.

Lemma sanitize_project_name_valid_witness :
  sanitize_project_name "my-paper_2024" = "my-paper_2024".
Proof.
  apply (proj2 (proj2 (proj2 (sanitize_project_name_valid "my-paper_2024")))).
  - discriminate.
  - reflexivity.
Defined.

Lemma cleanup_orphaned_assets_effect_witness :
  ∃ counts store',
    ProjectManager.cleanup_orphaned_assets assets_manager assets_store
    = (counts, store')
    ∧ ProjectManager.cleanup_orphaned_assets assets_manager store'
      = ((0%nat, 0%nat), store').
Proof.
  destruct (cleanup_orphaned_assets_effect assets_manager assets_project assets_store
              eq_refl eq_refl)
    as (paper_refs & image_refs & _ & _ & Hrun & Hagain).
  eexists _, _. split; [exact Hrun|exact Hagain].
Defined.

Lemma validate_and_clean_data_assets_witness :
  ProjectManager.cleanup_orphaned_assets (ProjectManager.close_project assets_manager)
    assets_store
  = ((0%nat, 0%nat), assets_store)
  ∧ ProjectManager.validate_and_clean_data
      (ProjectManager.close_project assets_manager) assets_store
    = Some ([], ProjectManager.close_project assets_manager, assets_store).
Proof.
  exact (proj1 validate_and_clean_data_assets
           (ProjectManager.close_project assets_manager) assets_store eq_refl).
Defined.

Lemma from_dict_reads_known_keys_witness :
  Position.from_dict [("z", JNum 9); ("y", JNum 2); ("x", JNum 1)]
  = Position.from_dict [("x", JNum 1); ("y", JNum 2)].
Proof.
  apply (proj1 (@from_dict_reads_known_keys sample_uuid)).
  intros k Hk. repeat (apply elem_of_cons in Hk as [->|Hk]); [reflexivity..|].
  by apply elem_of_nil in Hk.
Defined.

Lemma color_commands_write_project_data_witness :
  ∃ w' pm' pd',
    @execute sample_uuid (GlobalEdgeColorChangeCommand "#607D8B" "#4CAF50" "#000000"
                            "#FFFFFF") open_world
    = Ok (GlobalEdgeColorChangeCommand "#607D8B" "#4CAF50" "#000000" "#FFFFFF") w'
    ∧ project_manager (context w') = Some pm'
    ∧ ProjectManager.project_data pm' = Some pd'
    ∧ ProjectData.pipeline_edge_color pd' = "#000000"
    ∧ ProjectData.reference_edge_color pd' = "#FFFFFF".
Proof.
  destruct (proj1 (@color_commands_write_project_data sample_uuid)
              "#607D8B" "#4CAF50" "#000000" "#FFFFFF" open_world sample_manager
              sample_project eq_refl eq_refl eq_refl)
    as (w' & pm' & pd' & Hrun & Hpm & Hpd & Hp & Hr & _).
  exists w', pm', pd'. split; [exact Hrun|]. split; [exact Hpm|].
  split; [exact Hpd|]. split; [exact Hp|exact Hr].
Defined.


Lemma missing_field_drops_command_witness :
  _deserialize_command (sample_context empty_dock empty_scene)
    (JDict (dict_remove "todo_text" (to_dict (TodoAddCommand "a" 0)))) = Absent.
Proof.
  apply (proj1 (missing_field_drops_command (sample_context empty_dock empty_scene)
                  (TodoAddCommand "a" 0))).
  apply list_elem_of_further, list_elem_of_here.
Defined.

Lemma history_file_round_trip_witness :
  history_files (save_to_file new_UndoManager "projects/demo" open_world)
    !! history_path "projects/other"
  = history_files open_world !! history_path "projects/other".
Proof.
  apply (proj2 (proj2 (history_file_round_trip new_UndoManager new_UndoManager
                         "projects/demo" open_world))).
  discriminate.
Defined.

Lemma failed_command_leaves_history_file_witness :
  @manager_execute sample_uuid new_UndoManager (RemoveNodeCommand [] []) open_world
  = Thrown new_UndoManager
      (with_context open_world
         (with_scene (context open_world)
            (with_is_undo_operation sample_group_scene false)))
  ∧ history_files
      (with_context open_world
         (with_scene (context open_world)
            (with_is_undo_operation sample_group_scene false)))
    = history_files open_world.
Proof.
  exact (proj1 (@failed_command_leaves_history_file sample_uuid) new_UndoManager
           (RemoveNodeCommand [] []) open_world _ eq_refl eq_refl).
Defined.

Lemma recolor_scene_leaves_others_witness :
  _nodes (recolor_scene "input" "#000000" sample_group_scene) !! "n"
  = Some (new_node_item sample_node).
Proof.
  exact (proj1 (recolor_scene_leaves_others "input" "#000000" sample_group_scene)
           "n" (new_node_item sample_node) eq_refl eq_refl).
Defined.
